(** * Asteroids simulation core: a shallow embedding and its verified properties

    The JavaScript sources embedded here are
    [src/lib/Vector2D.js], [src/models/Asteroid.js], [src/models/Ship.js]
    (which also holds [Projectile]), [src/models/Particle.js],
    [src/services/PhysicsEngine.js] (which also holds [EntityManager]),
    [src/services/GameState.js] and [src/Game.js].

    Conventions of the embedding.
    - A JavaScript number is a real number ([R]) in the main embedding,
      which is used for what rounding does not change: comparisons,
      assignments, the order of the steps, and the expressions the code
      itself computes.  Counters that the code only ever steps by one from
      an integer literal (entity ids, lives, level, split counts, loop
      indices) are integers.
    - Where the length of a computed vector is at stake, rounding decides:
      module [Binary64] embeds those functions a second time on IEEE
      doubles, operation for operation, and the properties that fail in
      doubles are refuted there.
    - A method that mutates [this] is a function from the old record to the
      new one (paired with the returned value when there is one).
    - [Math.random()] reads the next value of an explicit random source.
    - A JavaScript [Map] is a [gmap], a [Set] is a [gset]. *)

From Stdlib Require Import Floats.PrimFloat.
From Stdlib Require Import Reals Lra Lia ZArith List Bool String.
From stdpp Require Import gmap strings.
Import ListNotations.

#[local] Open Scope R_scope.

(* Decimal literals such as 0.98 denote the nearest double, as in
   JavaScript. *)
Set Warnings "-inexact-float".

(** ** JavaScript numbers and [Math] *)

Module Js.

(** [a || d] for a number-valued option field: [undefined] and [0] are
    falsy. *)
Definition orNumber (o : option R) (d : R) : R :=
  match o with
  | Some v => if Req_dec_T v 0 then d else v
  | None => d
  end.

(** [a || d] for an integer-valued option field and for a counter: [0] is
    falsy. *)
Definition orInteger (o : option Z) (d : Z) : Z :=
  match o with
  | Some v => if Z.eqb v 0 then d else v
  | None => d
  end.

Definition orCount (o : option nat) (d : nat) : nat :=
  match o with
  | Some v => if Nat.eqb v 0 then d else v
  | None => d
  end.

(** [a || d] for an object-valued option field: every object is truthy. *)
Definition orObject {A : Type} (o : option A) (d : A) : A :=
  match o with
  | Some v => v
  | None => d
  end.

(** A property of an object literal followed by a spread
    ([{name: computed, ...options}]): a property present in [options]
    replaces the computed one. *)
Definition spread (override : option R) (computed : R) : option R :=
  match override with
  | Some v => Some v
  | None => Some computed
  end.

(** [Math.floor]. *)
Definition floor (x : R) : Z := Zfloor x.

(** [Math.atan2(y, x)]. *)
Definition atan2 (y x : R) : R :=
  if Rlt_dec 0 x then atan (y / x)
  else if Rlt_dec x 0 then
    (if Rle_dec 0 y then atan (y / x) + PI else atan (y / x) - PI)
  else if Rlt_dec 0 y then PI / 2
  else if Rlt_dec y 0 then - (PI / 2)
  else 0.

(** The source of [Math.random()]: an infinite sequence of draws and the
    position of the next one. *)
Record RandomSource := mkRandomSource {
  draws : nat -> R;
  cursor : nat
}.

(** [Math.random()]: the next draw, and the advanced source. *)
Definition random (g : RandomSource) : R * RandomSource :=
  (draws g (cursor g), {| draws := draws g; cursor := S (cursor g) |}).

(** Every draw of [Math.random()] lies in [0, 1). *)
Definition uniform (g : RandomSource) : Prop :=
  forall n, 0 <= draws g n < 1.

End Js.

(** ** Vector2D.js *)

Module Vector2D.

Record t := mk { x : R; y : R }.

Definition clone (v : t) : t := mk (x v) (y v).

Definition add (v vector : t) : t := mk (x v + x vector) (y v + y vector).

Definition subtract (v vector : t) : t := mk (x v - x vector) (y v - y vector).

Definition multiply (v : t) (scalar : R) : t := mk (x v * scalar) (y v * scalar).

Definition divide (v : t) (scalar : R) : t :=
  if Req_dec_T scalar 0 then v else mk (x v / scalar) (y v / scalar).

Definition magnitude (v : t) : R := sqrt (x v * x v + y v * y v).

Definition magnitudeSquared (v : t) : R := x v * x v + y v * y v.

Definition normalize (v : t) : t :=
  let mag := magnitude v in
  if Rgt_dec mag 0 then divide v mag else v.

Definition normalized (v : t) : t := normalize (clone v).

Definition distanceTo (v vector : t) : R :=
  let dx := x vector - x v in
  let dy := y vector - y v in
  sqrt (dx * dx + dy * dy).

Definition limit (v : t) (max : R) : t :=
  let magSq := magnitudeSquared v in
  if Rgt_dec magSq (max * max) then multiply (normalize v) max else v.

Definition angle (v : t) : R := Js.atan2 (y v) (x v).

Definition set (v : t) (x' y' : R) : t := mk x' y'.

Definition zero (v : t) : t := mk 0 0.

Definition fromAngle (angle magnitude : R) : t :=
  mk (cos angle * magnitude) (sin angle * magnitude).

(** [equals(vector, tolerance)]; the default tolerance is [0.0001]. *)
Definition equals (v vector : t) (tolerance : R) : bool :=
  (if Rlt_dec (Rabs (x v - x vector)) tolerance then true else false)
  && (if Rlt_dec (Rabs (y v - y vector)) tolerance then true else false).

End Vector2D.

(** ** Values shared by the entity models *)

(** The [type] tag of an entity; the ship carries none ([undefined]). *)
Inductive EntityType := asteroidType | projectileType | particleType.

#[global] Instance EntityType_eq_dec : EqDecision EntityType.
Proof. solve_decision. Defined.

(** A CSS colour: a literal string, or the template
    [hsl(${hue}, ${saturation}%, ${lightness}%)] with its three numbers. *)
Inductive Color :=
| css (s : string)
| hsl (hue : Z) (saturation lightness : R).

(** [color || d]: the empty string is falsy. *)
Definition orColor (o : option Color) (d : Color) : Color :=
  match o with
  | Some (css EmptyString) | None => d
  | Some c => c
  end.

Module Difficulty.
Inductive t := easy | medium | hard.
End Difficulty.

(** The object returned by every [getBounds()]. *)
Module Bounds.
Record t := mk { x : R; y : R; radius : R }.
End Bounds.

(** ** Asteroid.js *)

Module Asteroid.

Inductive Size := large | medium | small.

#[global] Instance Size_eq_dec : EqDecision Size.
Proof. solve_decision. Defined.

Record t := mk {
  position : Vector2D.t;
  velocity : Vector2D.t;
  angularVelocity : R;
  rotation : R;
  size : Size;
  radius : R;
  pointValue : R;
  splitCount : Z;
  vertices : list Vector2D.t;
  color : Color;
  isActive : bool;
  screenWidth : R;
  screenHeight : R;
  id : option nat
}.

(** The [options] object of the constructor; an absent property is [None]. *)
Record options := mkOptions {
  o_position : option Vector2D.t;
  o_velocity : option Vector2D.t;
  o_angularVelocity : option R;
  o_rotation : option R;
  o_size : option Size;
  o_vertices : option (list Vector2D.t);
  o_color : option Color;
  o_screenWidth : option R;
  o_screenHeight : option R
}.

Definition set_position (p : Vector2D.t) (a : t) : t :=
  mk p (velocity a) (angularVelocity a) (rotation a) (size a) (radius a)
     (pointValue a) (splitCount a) (vertices a) (color a) (isActive a)
     (screenWidth a) (screenHeight a) (id a).

Definition set_rotation (r : R) (a : t) : t :=
  mk (position a) (velocity a) (angularVelocity a) r (size a) (radius a)
     (pointValue a) (splitCount a) (vertices a) (color a) (isActive a)
     (screenWidth a) (screenHeight a) (id a).

Definition set_isActive (b : bool) (a : t) : t :=
  mk (position a) (velocity a) (angularVelocity a) (rotation a) (size a)
     (radius a) (pointValue a) (splitCount a) (vertices a) (color a) b
     (screenWidth a) (screenHeight a) (id a).

Definition set_id (i : option nat) (a : t) : t :=
  mk (position a) (velocity a) (angularVelocity a) (rotation a) (size a)
     (radius a) (pointValue a) (splitCount a) (vertices a) (color a)
     (isActive a) (screenWidth a) (screenHeight a) i.

(** [setupSizeProperties]: radius, pointValue and splitCount of a size. *)
Definition setupSizeProperties (s : Size) (g : Js.RandomSource)
  : R * R * Z * Js.RandomSource :=
  match s with
  | large =>
      let '(r1, g) := Js.random g in
      let '(r2, g) := Js.random g in
      (40 + r1 * 10, 20, (2 + Js.floor (r2 * 2))%Z, g)
  | medium =>
      let '(r1, g) := Js.random g in
      let '(r2, g) := Js.random g in
      (25 + r1 * 8, 50, (2 + Js.floor (r2 * 2))%Z, g)
  | small =>
      let '(r1, g) := Js.random g in
      (12 + r1 * 5, 100, 0%Z, g)
  end.

(** The loop of [generateShape]: [n] iterations are left, the next index
    is [i]. *)
Fixpoint generateShapeLoop (radius : R) (vertexCount : Z) (n : nat) (i : Z)
    (g : Js.RandomSource) (vertices : list Vector2D.t)
  : list Vector2D.t * Js.RandomSource :=
  match n with
  | O => (vertices, g)
  | S n' =>
      let angle := (IZR i / IZR vertexCount) * PI * 2 in
      let '(r, g) := Js.random g in
      let radiusVariation := 0.6 + r * 0.8 in
      let vertexRadius := radius * radiusVariation in
      let x := cos angle * vertexRadius in
      let y := sin angle * vertexRadius in
      generateShapeLoop radius vertexCount n' (i + 1)%Z g
        (vertices ++ [Vector2D.mk x y])
  end.

Definition generateShape (radius : R) (g : Js.RandomSource)
  : list Vector2D.t * Js.RandomSource :=
  let '(r, g) := Js.random g in
  let vertexCount := (8 + Js.floor (r * 5))%Z in
  generateShapeLoop radius vertexCount (Z.to_nat vertexCount) 0%Z g [].

Definition generateColor (g : Js.RandomSource) : Color * Js.RandomSource :=
  let '(r1, g) := Js.random g in
  let hue := Js.floor (r1 * 360) in
  let '(r2, g) := Js.random g in
  let saturation := 60 + r2 * 20 in
  let '(r3, g) := Js.random g in
  let lightness := 50 + r3 * 20 in
  (hsl hue saturation lightness, g).

(** [new Asteroid(options)]. *)
Definition new (o : options) (g : Js.RandomSource) : t * Js.RandomSource :=
  let position := Js.orObject (o_position o) (Vector2D.mk 0 0) in
  let velocity := Js.orObject (o_velocity o) (Vector2D.mk 0 0) in
  let '(angularVelocity, g) :=
    let drawn := let '(r, g) := Js.random g in ((r - 0.5) * 2, g) in
    match o_angularVelocity o with
    | Some v => if Req_dec_T v 0 then drawn else (v, g)
    | None => drawn
    end in
  let rotation := Js.orNumber (o_rotation o) 0 in
  let size := Js.orObject (o_size o) large in
  let '(radius, pointValue, splitCount, g) := setupSizeProperties size g in
  let '(vertices, g) :=
    match o_vertices o with
    | Some vs => (vs, g)
    | None => generateShape radius g
    end in
  let '(color, g) :=
    match o_color o with
    | Some (css EmptyString) | None => generateColor g
    | Some c => (c, g)
    end in
  (mk position velocity angularVelocity rotation size radius pointValue
      splitCount vertices color true
      (Js.orNumber (o_screenWidth o) 800)
      (Js.orNumber (o_screenHeight o) 600)
      None,
   g).

(** [wrapScreenEdges]: the buffered wrap. *)
Definition wrapScreenEdges (a : t) : t :=
  let buffer := radius a in
  let p := position a in
  let x :=
    if Rlt_dec (Vector2D.x p) (- buffer) then screenWidth a + buffer
    else if Rgt_dec (Vector2D.x p) (screenWidth a + buffer) then - buffer
    else Vector2D.x p in
  let y :=
    if Rlt_dec (Vector2D.y p) (- buffer) then screenHeight a + buffer
    else if Rgt_dec (Vector2D.y p) (screenHeight a + buffer) then - buffer
    else Vector2D.y p in
  set_position (Vector2D.mk x y) a.

(** [update(deltaTime)]. *)
Definition update (a : t) (deltaTime : R) : t :=
  if negb (isActive a) then a
  else
    let deltaSeconds := deltaTime / 1000 in
    let movement := Vector2D.multiply (Vector2D.clone (velocity a)) deltaSeconds in
    let a := set_position (Vector2D.add (position a) movement) a in
    let a := set_rotation (rotation a + angularVelocity a * deltaSeconds) a in
    wrapScreenEdges a.

(** The loop of [split]: [n] iterations are left, the next index is [i]. *)
Fixpoint splitLoop (a : t) (nextSize : Size) (n : nat) (i : Z)
    (g : Js.RandomSource) (fragments : list t) : list t * Js.RandomSource :=
  match n with
  | O => (fragments, g)
  | S n' =>
      let '(r1, g) := Js.random g in
      let angle := (IZR i / IZR (splitCount a)) * PI * 2 + r1 * 0.5 in
      let '(r2, g) := Js.random g in
      let speed := 50 + r2 * 100 in
      let fragmentVelocity := Vector2D.fromAngle angle speed in
      let fragmentVelocity :=
        Vector2D.add fragmentVelocity
          (Vector2D.multiply (Vector2D.clone (velocity a)) 0.3) in
      let offsetDistance := radius a * 0.3 in
      let offset := Vector2D.fromAngle angle offsetDistance in
      let fragmentPosition := Vector2D.add (Vector2D.clone (position a)) offset in
      let '(r3, g) := Js.random g in
      let '(fragment, g) :=
        new {| o_position := Some fragmentPosition;
               o_velocity := Some fragmentVelocity;
               o_angularVelocity := Some ((r3 - 0.5) * 4);
               o_rotation := None;
               o_size := Some nextSize;
               o_vertices := None;
               o_color := None;
               o_screenWidth := Some (screenWidth a);
               o_screenHeight := Some (screenHeight a) |} g in
      splitLoop a nextSize n' (i + 1)%Z g (fragments ++ [fragment])
  end.

(** [split()]: the fragments, the asteroid after the call, and the
    advanced random source. *)
Definition split (a : t) (g : Js.RandomSource)
  : list t * t * Js.RandomSource :=
  if Z.eqb (splitCount a) 0 then ([], a, g)
  else
    let nextSize := if decide (size a = large) then medium else small in
    let '(fragments, g) :=
      splitLoop a nextSize (Z.to_nat (splitCount a)) 0%Z g [] in
    (fragments, set_isActive false a, g).

(** [destroy()]. *)
Definition destroy (a : t) : bool * t := (true, set_isActive false a).

(** [onCollision(other)], reading only [other.type]. *)
Definition onCollision (a : t) (otherType : option EntityType) : bool * t :=
  if negb (isActive a) then (false, a)
  else if decide (otherType = Some projectileType) then destroy a
  else (true, a).

(** The [do ... while] of [createRandom]; [left] is
    [maxAttempts - attempts] after the increment of this iteration, so the
    loop test [attempts < maxAttempts] is [left > 0]. *)
Fixpoint createRandomLoop (playerPosition : Vector2D.t)
    (screenWidth screenHeight safeDistance : R) (left : nat)
    (g : Js.RandomSource) : Vector2D.t * Js.RandomSource :=
  let '(r1, g) := Js.random g in
  let '(r2, g) := Js.random g in
  let position := Vector2D.mk (r1 * screenWidth) (r2 * screenHeight) in
  match left with
  | S left' =>
      if Rlt_dec (Vector2D.distanceTo position playerPosition) safeDistance
      then createRandomLoop playerPosition screenWidth screenHeight
             safeDistance left' g
      else (position, g)
  | O => (position, g)
  end.

Definition maxAttempts : nat := 50.

(** [Asteroid.createRandom]. *)
Definition createRandom (playerPosition : Vector2D.t) (size : Size)
    (screenWidth screenHeight safeDistance : R) (g : Js.RandomSource)
  : t * Js.RandomSource :=
  let '(position, g) :=
    createRandomLoop playerPosition screenWidth screenHeight safeDistance
      (maxAttempts - 1) g in
  let '(r1, g) := Js.random g in
  let angle := r1 * PI * 2 in
  let '(r2, g) := Js.random g in
  let speed := 20 + r2 * 40 in
  let velocity := Vector2D.fromAngle angle speed in
  new {| o_position := Some position;
         o_velocity := Some velocity;
         o_angularVelocity := None;
         o_rotation := None;
         o_size := Some size;
         o_vertices := None;
         o_color := None;
         o_screenWidth := Some screenWidth;
         o_screenHeight := Some screenHeight |} g.

(** [sizeDistribution[difficulty]]. *)
Definition sizeDistribution (d : Difficulty.t) : list Size :=
  match d with
  | Difficulty.easy => [large; large; large; medium]
  | Difficulty.medium => [large; large; medium; medium; small]
  | Difficulty.hard => [large; medium; medium; small; small; small]
  end.

(** The loop of [createField]. *)
Fixpoint createFieldLoop (playerPosition : Vector2D.t) (sizes : list Size)
    (screenWidth screenHeight : R) (n : nat) (i : nat)
    (g : Js.RandomSource) (asteroids : list t) : list t * Js.RandomSource :=
  match n with
  | O => (asteroids, g)
  | S n' =>
      let size := nth (i mod length sizes) sizes large in
      let '(asteroid, g) :=
        createRandom playerPosition size screenWidth screenHeight 120 g in
      createFieldLoop playerPosition sizes screenWidth screenHeight n'
        (S i) g (asteroids ++ [asteroid])
  end.

(** [Asteroid.createField]. *)
Definition createField (count : Z) (playerPosition : Vector2D.t)
    (difficulty : Difficulty.t) (screenWidth screenHeight : R)
    (g : Js.RandomSource) : list t * Js.RandomSource :=
  let sizes := sizeDistribution difficulty in
  createFieldLoop playerPosition sizes screenWidth screenHeight
    (Z.to_nat count) 0%nat g [].

(** [getBounds()]. *)
Definition getBounds (a : t) : Bounds.t :=
  Bounds.mk (Vector2D.x (position a)) (Vector2D.y (position a)) (radius a).

End Asteroid.

(** ** Projectile (Ship.js, second class) *)

Module Projectile.

Record t := mk {
  position : Vector2D.t;
  velocity : Vector2D.t;
  speed : R;
  radius : R;
  size : R;
  lifespan : R;
  age : R;
  maxDistance : R;
  isActive : bool;
  color : Color;
  screenWidth : R;
  screenHeight : R;
  startPosition : Vector2D.t;
  id : option nat
}.

Record options := mkOptions {
  o_position : option Vector2D.t;
  o_velocity : option Vector2D.t;
  o_speed : option R;
  o_radius : option R;
  o_size : option R;
  o_lifespan : option R;
  o_maxDistance : option R;
  o_color : option Color;
  o_screenWidth : option R;
  o_screenHeight : option R
}.

Definition set_position (p : Vector2D.t) (q : t) : t :=
  mk p (velocity q) (speed q) (radius q) (size q) (lifespan q) (age q)
     (maxDistance q) (isActive q) (color q) (screenWidth q) (screenHeight q)
     (startPosition q) (id q).

Definition set_velocity (v : Vector2D.t) (q : t) : t :=
  mk (position q) v (speed q) (radius q) (size q) (lifespan q) (age q)
     (maxDistance q) (isActive q) (color q) (screenWidth q) (screenHeight q)
     (startPosition q) (id q).

Definition set_age (a : R) (q : t) : t :=
  mk (position q) (velocity q) (speed q) (radius q) (size q) (lifespan q) a
     (maxDistance q) (isActive q) (color q) (screenWidth q) (screenHeight q)
     (startPosition q) (id q).

Definition set_isActive (b : bool) (q : t) : t :=
  mk (position q) (velocity q) (speed q) (radius q) (size q) (lifespan q)
     (age q) (maxDistance q) b (color q) (screenWidth q) (screenHeight q)
     (startPosition q) (id q).

Definition set_id (i : option nat) (q : t) : t :=
  mk (position q) (velocity q) (speed q) (radius q) (size q) (lifespan q)
     (age q) (maxDistance q) (isActive q) (color q) (screenWidth q)
     (screenHeight q) (startPosition q) i.

(** [new Projectile(options)]; [startPosition] is a clone of the position
    the projectile is constructed with. *)
Definition new (o : options) : t :=
  let position := Js.orObject (o_position o) (Vector2D.mk 0 0) in
  mk position
     (Js.orObject (o_velocity o) (Vector2D.mk 0 0))
     (Js.orNumber (o_speed o) 400)
     (Js.orNumber (o_radius o) 3)
     (Js.orNumber (o_size o) 2)
     (Js.orNumber (o_lifespan o) 2000)
     0
     (Js.orNumber (o_maxDistance o) 1000)
     true
     (orColor (o_color o) (css "#FFFFFF"))
     (Js.orNumber (o_screenWidth o) 800)
     (Js.orNumber (o_screenHeight o) 600)
     (Vector2D.clone position)
     None.

(** [deactivate()]. *)
Definition deactivate (q : t) : t := set_isActive false q.

(** [destroy()]. *)
Definition destroy (q : t) : t := deactivate q.

(** [update(deltaTime)]. *)
Definition update (q : t) (deltaTime : R) : t :=
  if negb (isActive q) then q
  else
    let deltaSeconds := deltaTime / 1000 in
    let movement := Vector2D.multiply (Vector2D.clone (velocity q)) deltaSeconds in
    let q := set_position (Vector2D.add (position q) movement) q in
    let q := set_age (age q + deltaTime) q in
    if Rge_dec (age q) (lifespan q) then deactivate q
    else
      let distanceTraveled := Vector2D.distanceTo (position q) (startPosition q) in
      if Rge_dec distanceTraveled (maxDistance q) then deactivate q
      else
        let buffer := 50 in
        if Rlt_dec (Vector2D.x (position q)) (- buffer) then deactivate q
        else if Rgt_dec (Vector2D.x (position q)) (screenWidth q + buffer)
        then deactivate q
        else if Rlt_dec (Vector2D.y (position q)) (- buffer) then deactivate q
        else if Rgt_dec (Vector2D.y (position q)) (screenHeight q + buffer)
        then deactivate q
        else q.

(** [onCollision(other)], reading only [other.type]. *)
Definition onCollision (q : t) (otherType : option EntityType) : bool * t :=
  if negb (isActive q) then (false, q)
  else if decide (otherType = Some asteroidType) then (true, destroy q)
  else (false, q).

Definition getBounds (q : t) : Bounds.t :=
  Bounds.mk (Vector2D.x (position q)) (Vector2D.y (position q)) (radius q).

(** [isExpired()]. *)
Definition isExpired (q : t) : bool :=
  negb (isActive q) || (if Rge_dec (age q) (lifespan q) then true else false).

End Projectile.

(** ** Particle.js *)

Module Particle.

Record t := mk {
  position : Vector2D.t;
  velocity : Vector2D.t;
  color : Color;
  size : R;
  initialSize : R;
  alpha : R;
  initialAlpha : R;
  lifespan : R;
  age : R;
  drag : R;
  gravity : Vector2D.t;
  isActive : bool;
  fadeOut : bool;
  shrink : bool;
  id : option nat
}.

Record options := mkOptions {
  o_position : option Vector2D.t;
  o_velocity : option Vector2D.t;
  o_color : option Color;
  o_size : option R;
  o_alpha : option R;
  o_lifespan : option R;
  o_drag : option R;
  o_gravity : option Vector2D.t;
  o_fadeOut : option bool;
  o_shrink : option bool
}.

Definition set_id (i : option nat) (p : t) : t :=
  mk (position p) (velocity p) (color p) (size p) (initialSize p) (alpha p)
     (initialAlpha p) (lifespan p) (age p) (drag p) (gravity p) (isActive p)
     (fadeOut p) (shrink p) i.

Definition set_isActive (b : bool) (p : t) : t :=
  mk (position p) (velocity p) (color p) (size p) (initialSize p) (alpha p)
     (initialAlpha p) (lifespan p) (age p) (drag p) (gravity p) b
     (fadeOut p) (shrink p) (id p).

(** [x !== false] for an optional boolean property. *)
Definition notFalse (o : option bool) : bool :=
  match o with
  | Some false => false
  | _ => true
  end.

(** [new Particle(options)]. *)
Definition new (o : options) : t :=
  let size := Js.orNumber (o_size o) 3 in
  let alpha := Js.orNumber (o_alpha o) 1 in
  mk (Js.orObject (o_position o) (Vector2D.mk 0 0))
     (Js.orObject (o_velocity o) (Vector2D.mk 0 0))
     (orColor (o_color o) (css "#FFFFFF"))
     size size alpha alpha
     (Js.orNumber (o_lifespan o) 1000)
     0
     (Js.orNumber (o_drag o) 0.95)
     (Js.orObject (o_gravity o) (Vector2D.mk 0 0))
     true
     (notFalse (o_fadeOut o))
     (notFalse (o_shrink o))
     None.

Definition deactivate (p : t) : t := set_isActive false p.

(** [isExpired()]. *)
Definition isExpired (p : t) : bool :=
  negb (isActive p) || (if Rge_dec (age p) (lifespan p) then true else false).

(** [update(deltaTime)]. *)
Definition update (p : t) (deltaTime : R) : t :=
  if negb (isActive p) then p
  else
    let deltaSeconds := deltaTime / 1000 in
    let age' := age p + deltaTime in
    if Rge_dec age' (lifespan p) then
      deactivate
        (mk (position p) (velocity p) (color p) (size p) (initialSize p)
            (alpha p) (initialAlpha p) (lifespan p) age' (drag p) (gravity p)
            (isActive p) (fadeOut p) (shrink p) (id p))
    else
      let lifeProgress := age' / lifespan p in
      let movement := Vector2D.multiply (Vector2D.clone (velocity p)) deltaSeconds in
      let position' := Vector2D.add (position p) movement in
      let velocity' :=
        if Rgt_dec (Vector2D.magnitude (gravity p)) 0
        then Vector2D.add (velocity p)
               (Vector2D.multiply (Vector2D.clone (gravity p)) deltaSeconds)
        else velocity p in
      let velocity' := Vector2D.multiply velocity' (drag p) in
      let alpha' :=
        if fadeOut p then initialAlpha p * (1 - lifeProgress) else alpha p in
      let size' :=
        if shrink p then initialSize p * (1 - lifeProgress * 0.5) else size p in
      mk position' velocity' (color p) size' (initialSize p) alpha'
         (initialAlpha p) (lifespan p) age' (drag p) (gravity p) (isActive p)
         (fadeOut p) (shrink p) (id p).

(** The [options] of [createExplosion]; its properties are also spread
    over the particle's, so a present [lifespan] or [size] replaces the
    randomised one. *)
Record explosionOptions := mkExplosionOptions {
  e_speed : option R;
  e_speedVariation : option R;
  e_lifespan : option R;
  e_size : option R
}.

Fixpoint createExplosionLoop (position : Vector2D.t) (color : Color)
    (count : R) (o : explosionOptions) (n : nat) (i : Z)
    (g : Js.RandomSource) (particles : list t) : list t * Js.RandomSource :=
  match n with
  | O => (particles, g)
  | S n' =>
      let baseSpeed := Js.orNumber (e_speed o) 100 in
      let speedVariation := Js.orNumber (e_speedVariation o) 50 in
      let lifespan := Js.orNumber (e_lifespan o) 1000 in
      let size := Js.orNumber (e_size o) 3 in
      let '(r1, g) := Js.random g in
      let angle := (IZR i / count) * PI * 2 + (r1 - 0.5) * 0.5 in
      let '(r2, g) := Js.random g in
      let speed := baseSpeed + (r2 - 0.5) * speedVariation in
      let velocity := Vector2D.fromAngle angle speed in
      let '(r3, g) := Js.random g in
      let offset := Vector2D.fromAngle angle (r3 * 5) in
      let particlePosition := Vector2D.add (Vector2D.clone position) offset in
      let '(r4, g) := Js.random g in
      let '(r5, g) := Js.random g in
      let '(r6, g) := Js.random g in
      let particle :=
        new {| o_position := Some particlePosition;
               o_velocity := Some velocity;
               o_color := Some color;
               o_size := Js.spread (e_size o) (size + r4 * 2);
               o_alpha := None;
               o_lifespan := Js.spread (e_lifespan o) (lifespan + (r5 - 0.5) * 500);
               o_drag := Some (0.92 + r6 * 0.05);
               o_gravity := None;
               o_fadeOut := None;
               o_shrink := None |} in
      createExplosionLoop position color count o n' (i + 1)%Z g
        (particles ++ [particle])
  end.

(** The number of iterations of [for (let i = 0; i < count; i++)]. *)
Definition iterations (count : R) : nat :=
  if Rle_dec count 0 then O else Z.to_nat (Zceil count).

(** [Particle.createExplosion]. *)
Definition createExplosion (position : Vector2D.t) (color : Color)
    (count : R) (o : explosionOptions) (g : Js.RandomSource)
  : list t * Js.RandomSource :=
  createExplosionLoop position color count o (iterations count) 0%Z g [].

Fixpoint createDebrisLoop (position velocity : Vector2D.t) (color : Color)
    (n : nat) (g : Js.RandomSource) (particles : list t)
  : list t * Js.RandomSource :=
  match n with
  | O => (particles, g)
  | S n' =>
      let '(r1, g) := Js.random g in
      let angle := r1 * PI * 2 in
      let '(r2, g) := Js.random g in
      let speed := 30 + r2 * 70 in
      let debrisVelocity := Vector2D.fromAngle angle speed in
      let debrisVelocity :=
        Vector2D.add debrisVelocity
          (Vector2D.multiply (Vector2D.clone velocity) 0.3) in
      let '(r3, g) := Js.random g in
      let '(r4, g) := Js.random g in
      let particle :=
        new {| o_position := Some (Vector2D.clone position);
               o_velocity := Some debrisVelocity;
               o_color := Some color;
               o_size := Some (2 + r3 * 3);
               o_alpha := None;
               o_lifespan := Some (800 + r4 * 600);
               o_drag := Some 0.90;
               o_gravity := None;
               o_fadeOut := None;
               o_shrink := Some false |} in
      createDebrisLoop position velocity color n' g (particles ++ [particle])
  end.

(** [Particle.createDebris], with the default (empty) [options]. *)
Definition createDebris (position velocity : Vector2D.t) (color : Color)
    (count : R) (g : Js.RandomSource) : list t * Js.RandomSource :=
  createDebrisLoop position velocity color (iterations count) g [].

Fixpoint createSparksLoop (position : Vector2D.t) (baseAngle spreadAngle : R)
    (color : Color) (n : nat) (g : Js.RandomSource) (particles : list t)
  : list t * Js.RandomSource :=
  match n with
  | O => (particles, g)
  | S n' =>
      let '(r1, g) := Js.random g in
      let angleOffset := (r1 - 0.5) * spreadAngle in
      let sparkAngle := baseAngle + PI + angleOffset in
      let '(r2, g) := Js.random g in
      let speed := 80 + r2 * 40 in
      let velocity := Vector2D.fromAngle sparkAngle speed in
      let '(r3, g) := Js.random g in
      let '(r4, g) := Js.random g in
      let particle :=
        new {| o_position := Some (Vector2D.clone position);
               o_velocity := Some velocity;
               o_color := Some color;
               o_size := Some (1 + r3 * 2);
               o_alpha := None;
               o_lifespan := Some (400 + r4 * 300);
               o_drag := Some 0.85;
               o_gravity := None;
               o_fadeOut := None;
               o_shrink := None |} in
      createSparksLoop position baseAngle spreadAngle color n' g
        (particles ++ [particle])
  end.

(** [Particle.createSparks], with the default (empty) [options]. *)
Definition createSparks (position direction : Vector2D.t) (color : Color)
    (count : R) (g : Js.RandomSource) : list t * Js.RandomSource :=
  let baseAngle := Vector2D.angle direction in
  let spreadAngle := PI / 3 in
  createSparksLoop position baseAngle spreadAngle color (iterations count) g [].

End Particle.

(** ** Ship.js *)

Module Ship.

Record t := mk {
  position : Vector2D.t;
  velocity : Vector2D.t;
  rotation : R;
  radius : R;
  thrustPower : R;
  rotationSpeed : R;
  maxVelocity : R;
  drag : R;
  color : Color;
  size : R;
  isThrusting : bool;
  isInvulnerable : bool;
  invulnerabilityTimer : R;
  invulnerabilityDuration : R;
  lastFireTime : R;
  fireRate : R;
  projectileSpeed : R;
  screenWidth : R;
  screenHeight : R
}.

(** A [position] or [velocity] option: a [Vector2D] instance, a plain
    object with optional [x] and [y], or absent. *)
Inductive vectorOption :=
| instance (v : Vector2D.t)
| plain (x y : option R)
| absent.

Record options := mkOptions {
  o_position : vectorOption;
  o_velocity : vectorOption;
  o_rotation : option R;
  o_radius : option R;
  o_thrustPower : option R;
  o_rotationSpeed : option R;
  o_maxVelocity : option R;
  o_drag : option R;
  o_color : option Color;
  o_size : option R;
  o_screenWidth : option R;
  o_screenHeight : option R
}.

Definition set_position (p : Vector2D.t) (s : t) : t :=
  mk p (velocity s) (rotation s) (radius s) (thrustPower s)
     (rotationSpeed s) (maxVelocity s) (drag s) (color s) (size s)
     (isThrusting s) (isInvulnerable s) (invulnerabilityTimer s)
     (invulnerabilityDuration s) (lastFireTime s) (fireRate s)
     (projectileSpeed s) (screenWidth s) (screenHeight s).

Definition set_velocity (v : Vector2D.t) (s : t) : t :=
  mk (position s) v (rotation s) (radius s) (thrustPower s)
     (rotationSpeed s) (maxVelocity s) (drag s) (color s) (size s)
     (isThrusting s) (isInvulnerable s) (invulnerabilityTimer s)
     (invulnerabilityDuration s) (lastFireTime s) (fireRate s)
     (projectileSpeed s) (screenWidth s) (screenHeight s).

Definition set_rotation (r : R) (s : t) : t :=
  mk (position s) (velocity s) r (radius s) (thrustPower s)
     (rotationSpeed s) (maxVelocity s) (drag s) (color s) (size s)
     (isThrusting s) (isInvulnerable s) (invulnerabilityTimer s)
     (invulnerabilityDuration s) (lastFireTime s) (fireRate s)
     (projectileSpeed s) (screenWidth s) (screenHeight s).

Definition set_isThrusting (b : bool) (s : t) : t :=
  mk (position s) (velocity s) (rotation s) (radius s) (thrustPower s)
     (rotationSpeed s) (maxVelocity s) (drag s) (color s) (size s)
     b (isInvulnerable s) (invulnerabilityTimer s)
     (invulnerabilityDuration s) (lastFireTime s) (fireRate s)
     (projectileSpeed s) (screenWidth s) (screenHeight s).

Definition set_invulnerability (b : bool) (timer : R) (s : t) : t :=
  mk (position s) (velocity s) (rotation s) (radius s) (thrustPower s)
     (rotationSpeed s) (maxVelocity s) (drag s) (color s) (size s)
     (isThrusting s) b timer
     (invulnerabilityDuration s) (lastFireTime s) (fireRate s)
     (projectileSpeed s) (screenWidth s) (screenHeight s).

Definition set_lastFireTime (time : R) (s : t) : t :=
  mk (position s) (velocity s) (rotation s) (radius s) (thrustPower s)
     (rotationSpeed s) (maxVelocity s) (drag s) (color s) (size s)
     (isThrusting s) (isInvulnerable s) (invulnerabilityTimer s)
     (invulnerabilityDuration s) time (fireRate s)
     (projectileSpeed s) (screenWidth s) (screenHeight s).

Definition vectorOr (o : vectorOption) (dx dy : R) : Vector2D.t :=
  match o with
  | instance v => v
  | plain x y => Vector2D.mk (Js.orNumber x dx) (Js.orNumber y dy)
  | absent => Vector2D.mk dx dy
  end.

(** [new Ship(options)]. *)
Definition new (o : options) : t :=
  mk (vectorOr (o_position o) 400 300)
     (vectorOr (o_velocity o) 0 0)
     (Js.orNumber (o_rotation o) 0)
     (Js.orNumber (o_radius o) 12)
     (Js.orNumber (o_thrustPower o) 200)
     (Js.orNumber (o_rotationSpeed o) PI)
     (Js.orNumber (o_maxVelocity o) 300)
     (Js.orNumber (o_drag o) 0.98)
     (orColor (o_color o) (css "#00FF88"))
     (Js.orNumber (o_size o) 15)
     false false 0 2000
     0 250 400
     (Js.orNumber (o_screenWidth o) 800)
     (Js.orNumber (o_screenHeight o) 600).

(** [wrapScreenEdges]: the hard wrap. *)
Definition wrapScreenEdges (s : t) : t :=
  let p := position s in
  let x :=
    if Rlt_dec (Vector2D.x p) 0 then screenWidth s
    else if Rgt_dec (Vector2D.x p) (screenWidth s) then 0
    else Vector2D.x p in
  let y :=
    if Rlt_dec (Vector2D.y p) 0 then screenHeight s
    else if Rgt_dec (Vector2D.y p) (screenHeight s) then 0
    else Vector2D.y p in
  set_position (Vector2D.mk x y) s.

(** [update(deltaTime)]. *)
Definition update (s : t) (deltaTime : R) : t :=
  let deltaSeconds := deltaTime / 1000 in
  let s :=
    if isThrusting s then
      let thrustVector :=
        Vector2D.fromAngle (rotation s) (thrustPower s * deltaSeconds) in
      set_velocity (Vector2D.add (velocity s) thrustVector) s
    else s in
  let movement := Vector2D.multiply (Vector2D.clone (velocity s)) deltaSeconds in
  let s := set_position (Vector2D.add (position s) movement) s in
  let s := set_velocity (Vector2D.multiply (velocity s) (drag s)) s in
  let s := set_velocity (Vector2D.limit (velocity s) (maxVelocity s)) s in
  let s := wrapScreenEdges s in
  if isInvulnerable s then
    let timer := invulnerabilityTimer s - deltaTime in
    if Rle_dec timer 0 then set_invulnerability false 0 s
    else set_invulnerability (isInvulnerable s) timer s
  else s.

Definition thrust (s : t) : t := set_isThrusting true s.

Definition stopThrust (s : t) : t := set_isThrusting false s.

Definition rotateLeft (s : t) (deltaTime : R) : t :=
  set_rotation (rotation s - rotationSpeed s * (deltaTime / 1000)) s.

Definition rotateRight (s : t) (deltaTime : R) : t :=
  set_rotation (rotation s + rotationSpeed s * (deltaTime / 1000)) s.

(** [canFire(currentTime)]. *)
Definition canFire (s : t) (currentTime : R) : bool :=
  if Rge_dec (currentTime - lastFireTime s) (fireRate s) then true else false.

(** The object returned by [createProjectile]. *)
Record projectileData := mkProjectileData {
  d_position : Vector2D.t;
  d_velocity : Vector2D.t;
  d_rotation : R
}.

(** [createProjectile(currentTime)]: the returned object ([None] is
    [null]) and the ship after the call. *)
Definition createProjectile (s : t) (currentTime : R)
  : option projectileData * t :=
  if negb (canFire s currentTime) then (None, s)
  else
    let s := set_lastFireTime currentTime s in
    let offset := Vector2D.fromAngle (rotation s) (radius s + 5) in
    let projectilePosition := Vector2D.add (Vector2D.clone (position s)) offset in
    let projectileVelocity := Vector2D.clone (velocity s) in
    let projectileDirection :=
      Vector2D.fromAngle (rotation s) (projectileSpeed s) in
    let projectileVelocity := Vector2D.add projectileVelocity projectileDirection in
    (Some (mkProjectileData projectilePosition projectileVelocity (rotation s)),
     s).

(** [respawn()]. *)
Definition respawn (s : t) : t :=
  let s := set_position
             (Vector2D.set (position s) (screenWidth s / 2) (screenHeight s / 2)) s in
  let s := set_velocity (Vector2D.zero (velocity s)) s in
  let s := set_rotation (- PI / 2) s in
  let s := set_isThrusting false s in
  set_invulnerability true (invulnerabilityDuration s) s.

(** [destroy()]. *)
Definition destroy (s : t) : t := respawn s.

(** [onCollision(other)], reading only [other.type]. *)
Definition onCollision (s : t) (otherType : option EntityType) : bool * t :=
  if isInvulnerable s then (false, s)
  else if decide (otherType = Some asteroidType) then (true, destroy s)
  else (false, s).

Definition getBounds (s : t) : Bounds.t :=
  Bounds.mk (Vector2D.x (position s)) (Vector2D.y (position s)) (radius s).

(** The object [getConfig()] returns and [setConfig(config)] reads:
    [position], [velocity] and [rotation] are read as they are, the other
    three through [||]. *)
Record config := mkConfig {
  c_position : Vector2D.t;
  c_velocity : Vector2D.t;
  c_rotation : R;
  c_color : option Color;
  c_isInvulnerable : option bool;
  c_invulnerabilityTimer : option R
}.

(** [getConfig()]. *)
Definition getConfig (s : t) : config :=
  mkConfig
    (Vector2D.mk (Vector2D.x (position s)) (Vector2D.y (position s)))
    (Vector2D.mk (Vector2D.x (velocity s)) (Vector2D.y (velocity s)))
    (rotation s) (Some (color s)) (Some (isInvulnerable s))
    (Some (invulnerabilityTimer s)).

(** [setConfig(config)]. *)
Definition setConfig (s : t) (config : config) : t :=
  let s :=
    set_position
      (Vector2D.set (position s) (Vector2D.x (c_position config))
         (Vector2D.y (c_position config))) s in
  let s :=
    set_velocity
      (Vector2D.set (velocity s) (Vector2D.x (c_velocity config))
         (Vector2D.y (c_velocity config))) s in
  let s := set_rotation (c_rotation config) s in
  mk (position s) (velocity s) (rotation s) (radius s) (thrustPower s)
     (rotationSpeed s) (maxVelocity s) (drag s)
     (orColor (c_color config) (color s)) (size s)
     (isThrusting s)
     (Js.orObject (c_isInvulnerable config) false)
     (Js.orNumber (c_invulnerabilityTimer config) 0)
     (invulnerabilityDuration s) (lastFireTime s) (fireRate s)
     (projectileSpeed s) (screenWidth s) (screenHeight s).

End Ship.

(** ** PhysicsEngine.js *)

Module PhysicsEngine.

Section Engine.

(** Object identity: [Ref] names the object an array slot points to, so
    [a === b] is equality of references. *)
Context {Ref : Type} `{EqDecision Ref}.

(** What the engine reads of an entity: the object's reference, its
    [id] ([None] when the property is absent, as on the ship), its
    [isActive] flag (absent on the ship), its [type] tag, its [position]
    and the result of [getBounds()]. *)
Record Entity := mkEntity {
  ref : Ref;
  id : option nat;
  isActive : option bool;
  type : option EntityType;
  position : Vector2D.t;
  getBounds : Bounds.t
}.

(** [entity.isActive !== false]. *)
Definition notInactive (entity : Entity) : bool :=
  match isActive entity with
  | Some false => false
  | _ => true
  end.

Record Collision := mkCollision {
  entityA : Entity;
  entityB : Entity;
  point : Vector2D.t;
  normal : Vector2D.t
}.

Record t := mk {
  screenWidth : R;
  screenHeight : R;
  useSpacialGrid : bool;
  gridCellSize : R;
  spatialGrid : gmap (Z * Z) (list Entity);
  collisionChecks : nat;
  actualCollisions : nat
}.

(** [new PhysicsEngine(screenWidth, screenHeight)]. *)
Definition new (screenWidth screenHeight : R) : t :=
  mk screenWidth screenHeight true 100 ∅ 0 0.

Definition set_spatialGrid (grid : gmap (Z * Z) (list Entity)) (e : t) : t :=
  mk (screenWidth e) (screenHeight e) (useSpacialGrid e) (gridCellSize e)
     grid (collisionChecks e) (actualCollisions e).

Definition set_counters (checks actual : nat) (e : t) : t :=
  mk (screenWidth e) (screenHeight e) (useSpacialGrid e) (gridCellSize e)
     (spatialGrid e) checks actual.

(** The objects the engine is handed are mutable: [entityAt] reads the
    object a reference names as the engine sees it now, and [updateAt] is
    the object's own [update(deltaTime)]. *)
Class EntityStore (Store : Type) := {
  entityAt : Store -> Ref -> option Entity;
  updateAt : Store -> Ref -> R -> Store
}.

(** [hasWrappedScreen(previousPosition, currentPosition)]. *)
Definition hasWrappedScreen (e : t) (previousPosition currentPosition : Vector2D.t)
  : bool :=
  let halfX := screenWidth e / 2 in
  let halfY := screenHeight e / 2 in
  let deltaX := Rabs (Vector2D.x currentPosition - Vector2D.x previousPosition) in
  let deltaY := Rabs (Vector2D.y currentPosition - Vector2D.y previousPosition) in
  if Rgt_dec deltaX halfX then true
  else if Rgt_dec deltaY halfY then true else false.

(** The body of the loop of [updateEntities]; the state is the two
    counters and the store.  A reference that names no object is skipped. *)
Definition updateEntity {Store : Type} `{EntityStore Store} (e : t)
    (deltaTime : R) (st : nat * nat * Store) (r : Ref) : nat * nat * Store :=
  let '(entitiesUpdated, screenWraps, store) := st in
  match entityAt store r with
  | None => st
  | Some entity =>
      if negb (notInactive entity) then st
      else
        let previousPosition := Vector2D.clone (position entity) in
        let store := updateAt store r deltaTime in
        let entitiesUpdated := S entitiesUpdated in
        let currentPosition :=
          match entityAt store r with
          | Some entity => position entity
          | None => previousPosition
          end in
        if hasWrappedScreen e previousPosition currentPosition
        then (entitiesUpdated, S screenWraps, store)
        else (entitiesUpdated, screenWraps, store)
  end.

(** [updateEntities(entities, deltaTime)]: [(entitiesUpdated,
    screenWraps)] and the store after the updates. *)
Definition updateEntities {Store : Type} `{EntityStore Store} (e : t)
    (store : Store) (entities : list Ref) (deltaTime : R)
  : nat * nat * Store :=
  fold_left (updateEntity e deltaTime) entities (0%nat, 0%nat, store).

(** [checkCircleCollision(entityA, entityB)]. *)
Definition checkCircleCollision (entityA entityB : Entity) : bool :=
  let boundsA := getBounds entityA in
  let boundsB := getBounds entityB in
  let dx := Bounds.x boundsB - Bounds.x boundsA in
  let dy := Bounds.y boundsB - Bounds.y boundsA in
  let distanceSquared := dx * dx + dy * dy in
  let radiusSum := Bounds.radius boundsA + Bounds.radius boundsB in
  if Rlt_dec distanceSquared (radiusSum * radiusSum) then true else false.

(** [getCollisionPoint(entityA, entityB)]. *)
Definition getCollisionPoint (entityA entityB : Entity) : Vector2D.t :=
  let boundsA := getBounds entityA in
  let boundsB := getBounds entityB in
  let x := (Bounds.x boundsA + Bounds.x boundsB) / 2 in
  let y := (Bounds.y boundsA + Bounds.y boundsB) / 2 in
  Vector2D.mk x y.

(** [getCollisionNormal(entityA, entityB)]. *)
Definition getCollisionNormal (entityA entityB : Entity) : Vector2D.t :=
  let boundsA := getBounds entityA in
  let boundsB := getBounds entityB in
  let normal :=
    Vector2D.mk (Bounds.x boundsB - Bounds.x boundsA)
                (Bounds.y boundsB - Bounds.y boundsA) in
  Vector2D.normalize normal.

(** The body of both detection loops once a pair is to be tested:
    count the check, and push a record when the circles overlap. *)
Definition testPair (entityA entityB : Entity)
    (st : list Collision * t) : list Collision * t :=
  let '(collisions, e) := st in
  let e := set_counters (S (collisionChecks e)) (actualCollisions e) e in
  if checkCircleCollision entityA entityB then
    (collisions ++
       [mkCollision entityA entityB
          (getCollisionPoint entityA entityB)
          (getCollisionNormal entityA entityB)],
     set_counters (collisionChecks e) (S (actualCollisions e)) e)
  else (collisions, e).

(** The inner loop of [detectCollisionsBruteForce]: [entityA] is
    [entities[i]], [rest] is [entities[i+1..]]. *)
Definition bruteForceInner (entityA : Entity) (rest : list Entity)
    (st : list Collision * t) : list Collision * t :=
  fold_left (fun st entityB => testPair entityA entityB st) rest st.

(** The outer loop of [detectCollisionsBruteForce]. *)
Fixpoint bruteForceOuter (entities : list Entity)
    (st : list Collision * t) : list Collision * t :=
  match entities with
  | [] => st
  | entityA :: rest => bruteForceOuter rest (bruteForceInner entityA rest st)
  end.

(** [detectCollisionsBruteForce(entities)]: the [collisions] of the
    result, and the engine with its counters advanced. *)
Definition detectCollisionsBruteForce (e : t) (entities : list Entity)
  : list Collision * t :=
  bruteForceOuter entities ([], e).

(** The cell of an entity: [(gridX, gridY)], the two numbers of the key
    string [`${gridX},${gridY}`]. *)
Definition cellOf (e : t) (entity : Entity) : Z * Z :=
  let bounds := getBounds entity in
  let gridX := Js.floor (Bounds.x bounds / gridCellSize e) in
  let gridY := Js.floor (Bounds.y bounds / gridCellSize e) in
  (gridX, gridY).

(** [clearSpatialGrid()]. *)
Definition clearSpatialGrid (e : t) : t := set_spatialGrid ∅ e.

(** [populateSpatialGrid(entities)]. *)
Definition populateSpatialGrid (e : t) (entities : list Entity) : t :=
  fold_left
    (fun e entity =>
       let key := cellOf e entity in
       let grid := spatialGrid e in
       let grid :=
         match grid !! key with
         | Some _ => grid
         | None => <[key := []]> grid
         end in
       let cell := default [] (grid !! key) in
       set_spatialGrid (<[key := cell ++ [entity]]> grid) e)
    entities e.

(** [getNearbyEntities(entity)]. *)
Definition getNearbyEntities (e : t) (entity : Entity) : list Entity :=
  let '(gridX, gridY) := cellOf e entity in
  flat_map
    (fun dx =>
       flat_map
         (fun dy =>
            match spatialGrid e !! ((gridX + dx)%Z, (gridY + dy)%Z) with
            | Some cellEntities => cellEntities
            | None => []
            end)
         [(-1)%Z; 0%Z; 1%Z])
    [(-1)%Z; 0%Z; 1%Z].

(** [a < b] on two [id] properties; a comparison with [undefined] is
    false. *)
Definition idLess (a b : option nat) : bool :=
  match a, b with
  | Some m, Some n => Nat.ltb m n
  | _, _ => false
  end.

(** The pair identifier [`${small}-${large}`], as the pair of the two
    interpolated ids. *)
Definition pairId (entity candidate : Entity) : option nat * option nat :=
  if idLess (id entity) (id candidate)
  then (id entity, id candidate)
  else (id candidate, id entity).

(** The body of the inner loop of [detectCollisionsSpatial]. *)
Definition spatialStep (entity candidate : Entity)
    (st : gset (option nat * option nat) * (list Collision * t))
  : gset (option nat * option nat) * (list Collision * t) :=
  let '(checkedPairs, cs) := st in
  if decide (ref entity = ref candidate) then st
  else
    let key := pairId entity candidate in
    if decide (key ∈ checkedPairs) then st
    else ({[ key ]} ∪ checkedPairs, testPair entity candidate cs).

(** The outer loop of [detectCollisionsSpatial]. *)
Definition spatialLoop (entities : list Entity)
    (st : gset (option nat * option nat) * (list Collision * t))
  : gset (option nat * option nat) * (list Collision * t) :=
  fold_left
    (fun st entity =>
       let candidates := getNearbyEntities (snd (snd st)) entity in
       fold_left (fun st candidate => spatialStep entity candidate st)
         candidates st)
    entities st.

(** [detectCollisionsSpatial(entities)]. *)
Definition detectCollisionsSpatial (e : t) (entities : list Entity)
  : list Collision * t :=
  let e := clearSpatialGrid e in
  let e := populateSpatialGrid e entities in
  snd (spatialLoop entities (∅, ([], e))).

(** [detectCollisions(entities)]. *)
Definition detectCollisions (e : t) (entities : list Entity)
  : list Collision * t :=
  let e := set_counters 0 0 e in
  let activeEntities := List.filter notInactive entities in
  if useSpacialGrid e && (10 <? length activeEntities)%nat
  then detectCollisionsSpatial e activeEntities
  else detectCollisionsBruteForce e activeEntities.

(** [setScreenDimensions(width, height)]. *)
Definition setScreenDimensions (e : t) (width height : R) : t :=
  mk width height (useSpacialGrid e) (gridCellSize e) (spatialGrid e)
     (collisionChecks e) (actualCollisions e).

(** The unordered pair [{a, b}] is reported in [collisions]. *)
Definition reports (collisions : list Collision) (a b : Entity) : Prop :=
  exists c, In c collisions /\
    ((entityA c = a /\ entityB c = b) \/ (entityA c = b /\ entityB c = a)).

End Engine.

Arguments Entity Ref : clear implicits.
Arguments Collision Ref : clear implicits.
Arguments t Ref : clear implicits.

End PhysicsEngine.

(** ** References to the objects of a game *)

(** The references the orchestrator hands to the physics engine: the
    ship, or a slot of the manager's [asteroids] or [projectiles] array.
    Between two clean-ups these arrays only grow at the end, so a slot keeps
    naming the same object. *)
Inductive Handle :=
| shipRef
| asteroidRef (i : nat)
| projectileRef (i : nat).

#[global] Instance Handle_eq_dec : EqDecision Handle.
Proof. solve_decision. Defined.

(** ** EntityManager (PhysicsEngine.js, second class) *)

Module EntityManager.

Record t := mk {
  screenWidth : R;
  screenHeight : R;
  asteroids : list Asteroid.t;
  projectiles : list Projectile.t;
  particles : list Particle.t;
  projectilePool : list Projectile.t;
  particlePool : list Particle.t;
  maxPoolSize : nat;
  nextEntityId : nat;
  entitiesCreated : nat;
  entitiesDestroyed : nat;
  poolHits : nat;
  poolMisses : nat
}.

(** [new EntityManager(screenWidth, screenHeight)]. *)
Definition new (screenWidth screenHeight : R) : t :=
  mk screenWidth screenHeight [] [] [] [] [] 50 1 0 0 0 0.

Definition set_asteroids (l : list Asteroid.t) (m : t) : t :=
  mk (screenWidth m) (screenHeight m) l (projectiles m) (particles m)
     (projectilePool m) (particlePool m) (maxPoolSize m) (nextEntityId m)
     (entitiesCreated m) (entitiesDestroyed m) (poolHits m) (poolMisses m).

Definition set_projectiles (l : list Projectile.t) (m : t) : t :=
  mk (screenWidth m) (screenHeight m) (asteroids m) l (particles m)
     (projectilePool m) (particlePool m) (maxPoolSize m) (nextEntityId m)
     (entitiesCreated m) (entitiesDestroyed m) (poolHits m) (poolMisses m).

Definition set_particles (l : list Particle.t) (m : t) : t :=
  mk (screenWidth m) (screenHeight m) (asteroids m) (projectiles m) l
     (projectilePool m) (particlePool m) (maxPoolSize m) (nextEntityId m)
     (entitiesCreated m) (entitiesDestroyed m) (poolHits m) (poolMisses m).

Definition set_projectilePool (l : list Projectile.t) (m : t) : t :=
  mk (screenWidth m) (screenHeight m) (asteroids m) (projectiles m)
     (particles m) l (particlePool m) (maxPoolSize m) (nextEntityId m)
     (entitiesCreated m) (entitiesDestroyed m) (poolHits m) (poolMisses m).

Definition set_particlePool (l : list Particle.t) (m : t) : t :=
  mk (screenWidth m) (screenHeight m) (asteroids m) (projectiles m)
     (particles m) (projectilePool m) l (maxPoolSize m) (nextEntityId m)
     (entitiesCreated m) (entitiesDestroyed m) (poolHits m) (poolMisses m).

Definition set_nextEntityId (n : nat) (m : t) : t :=
  mk (screenWidth m) (screenHeight m) (asteroids m) (projectiles m)
     (particles m) (projectilePool m) (particlePool m) (maxPoolSize m) n
     (entitiesCreated m) (entitiesDestroyed m) (poolHits m) (poolMisses m).

Definition set_entitiesCreated (n : nat) (m : t) : t :=
  mk (screenWidth m) (screenHeight m) (asteroids m) (projectiles m)
     (particles m) (projectilePool m) (particlePool m) (maxPoolSize m)
     (nextEntityId m) n (entitiesDestroyed m) (poolHits m) (poolMisses m).

Definition set_entitiesDestroyed (n : nat) (m : t) : t :=
  mk (screenWidth m) (screenHeight m) (asteroids m) (projectiles m)
     (particles m) (projectilePool m) (particlePool m) (maxPoolSize m)
     (nextEntityId m) (entitiesCreated m) n (poolHits m) (poolMisses m).

Definition set_poolHits (n : nat) (m : t) : t :=
  mk (screenWidth m) (screenHeight m) (asteroids m) (projectiles m)
     (particles m) (projectilePool m) (particlePool m) (maxPoolSize m)
     (nextEntityId m) (entitiesCreated m) (entitiesDestroyed m) n
     (poolMisses m).

Definition set_poolMisses (n : nat) (m : t) : t :=
  mk (screenWidth m) (screenHeight m) (asteroids m) (projectiles m)
     (particles m) (projectilePool m) (particlePool m) (maxPoolSize m)
     (nextEntityId m) (entitiesCreated m) (entitiesDestroyed m)
     (poolHits m) n.

(** The projectile half of [cleanupInactiveEntities]: the callback of
    [filter], run over the array in order; the state is the kept prefix
    and the pool. *)
Definition cleanupProjectile (maxPoolSize : nat)
    (st : list Projectile.t * list Projectile.t) (projectile : Projectile.t)
  : list Projectile.t * list Projectile.t :=
  let '(kept, pool) := st in
  if negb (Projectile.isActive projectile) then
    if (length pool <? maxPoolSize)%nat
    then (kept, pool ++ [projectile])
    else (kept, pool)
  else (kept ++ [projectile], pool).

Definition cleanupParticle (maxPoolSize : nat)
    (st : list Particle.t * list Particle.t) (particle : Particle.t)
  : list Particle.t * list Particle.t :=
  let '(kept, pool) := st in
  if negb (Particle.isActive particle) then
    if (length pool <? maxPoolSize)%nat
    then (kept, pool ++ [particle])
    else (kept, pool)
  else (kept ++ [particle], pool).

(** [cleanupInactiveEntities()]. *)
Definition cleanupInactiveEntities (m : t) : t :=
  let m := set_asteroids (List.filter Asteroid.isActive (asteroids m)) m in
  let '(kept, pool) :=
    fold_left (cleanupProjectile (maxPoolSize m)) (projectiles m)
      ([], projectilePool m) in
  let m := set_projectiles kept (set_projectilePool pool m) in
  let '(kept, pool) :=
    fold_left (cleanupParticle (maxPoolSize m)) (particles m)
      ([], particlePool m) in
  set_particles kept (set_particlePool pool m).

(** [update(deltaTime)]. *)
Definition update (m : t) (deltaTime : R) : t :=
  let m :=
    set_asteroids
      (map (fun asteroid =>
              if Asteroid.isActive asteroid
              then Asteroid.update asteroid deltaTime else asteroid)
         (asteroids m)) m in
  let m :=
    set_projectiles
      (map (fun projectile =>
              if Projectile.isActive projectile
              then Projectile.update projectile deltaTime else projectile)
         (projectiles m)) m in
  let m :=
    set_particles
      (map (fun particle =>
              if Particle.isActive particle
              then Particle.update particle deltaTime else particle)
         (particles m)) m in
  cleanupInactiveEntities m.

(** The body of the loop that registers new asteroids (a created field, or
    the fragments of a split): the asteroid gets the next id and is
    pushed. *)
Definition registerAsteroid (st : list Asteroid.t * t) (asteroid : Asteroid.t)
  : list Asteroid.t * t :=
  let '(registered, m) := st in
  let asteroid := Asteroid.set_id (Some (nextEntityId m)) asteroid in
  let m := set_nextEntityId (S (nextEntityId m)) m in
  let m := set_asteroids (asteroids m ++ [asteroid]) m in
  let m := set_entitiesCreated (S (entitiesCreated m)) m in
  (registered ++ [asteroid], m).

(** The loop over the new asteroids. *)
Definition registerAsteroids (m : t) (new : list Asteroid.t)
  : list Asteroid.t * t :=
  fold_left registerAsteroid new ([], m).

(** [createAsteroid(options)]: the spread [{screenWidth, screenHeight,
    ...options}] lets a present option replace the manager's dimension. *)
Definition createAsteroid (m : t) (o : Asteroid.options)
    (g : Js.RandomSource) : Asteroid.t * t * Js.RandomSource :=
  let '(asteroid, g) :=
    Asteroid.new
      {| Asteroid.o_position := Asteroid.o_position o;
         Asteroid.o_velocity := Asteroid.o_velocity o;
         Asteroid.o_angularVelocity := Asteroid.o_angularVelocity o;
         Asteroid.o_rotation := Asteroid.o_rotation o;
         Asteroid.o_size := Asteroid.o_size o;
         Asteroid.o_vertices := Asteroid.o_vertices o;
         Asteroid.o_color := Asteroid.o_color o;
         Asteroid.o_screenWidth :=
           Js.spread (Asteroid.o_screenWidth o) (screenWidth m);
         Asteroid.o_screenHeight :=
           Js.spread (Asteroid.o_screenHeight o) (screenHeight m) |}
      g in
  let asteroid := Asteroid.set_id (Some (nextEntityId m)) asteroid in
  let m := set_nextEntityId (S (nextEntityId m)) m in
  let m := set_asteroids (asteroids m ++ [asteroid]) m in
  let m := set_entitiesCreated (S (entitiesCreated m)) m in
  (asteroid, m, g).

(** [createAsteroidField(count, playerPosition, difficulty)]. *)
Definition createAsteroidField (m : t) (count : Z)
    (playerPosition : Vector2D.t) (difficulty : Difficulty.t)
    (g : Js.RandomSource) : list Asteroid.t * t * Js.RandomSource :=
  let '(asteroids, g) :=
    Asteroid.createField count playerPosition difficulty
      (screenWidth m) (screenHeight m) g in
  let '(asteroids, m) := registerAsteroids m asteroids in
  (asteroids, m, g).

(** The [options] of [createProjectile].  [position] and [velocity] are
    required (the pooled branch reads their coordinates); the other
    properties reach the [Projectile] constructor through the spread. *)
Record projectileOptions := mkProjectileOptions {
  p_position : Vector2D.t;
  p_velocity : Vector2D.t;
  p_speed : option R;
  p_radius : option R;
  p_size : option R;
  p_lifespan : option R;
  p_maxDistance : option R;
  p_color : option Color;
  p_screenWidth : option R;
  p_screenHeight : option R
}.

(** [array.pop()]: the last element and the remaining array. *)
Definition pop {A : Type} (l : list A) : option (A * list A) :=
  match rev l with
  | [] => None
  | last :: front => Some (last, rev front)
  end.

(** [createProjectile(options)]. *)
Definition createProjectile (m : t) (o : projectileOptions)
  : Projectile.t * t :=
  let '(projectile, m) :=
    match pop (projectilePool m) with
    | Some (projectile, pool) =>
        let m := set_projectilePool pool m in
        let projectile :=
          Projectile.set_position
            (Vector2D.set (Projectile.position projectile)
               (Vector2D.x (p_position o)) (Vector2D.y (p_position o)))
            projectile in
        let projectile :=
          Projectile.set_velocity
            (Vector2D.set (Projectile.velocity projectile)
               (Vector2D.x (p_velocity o)) (Vector2D.y (p_velocity o)))
            projectile in
        let projectile := Projectile.set_age 0 projectile in
        let projectile := Projectile.set_isActive true projectile in
        (projectile, set_poolHits (S (poolHits m)) m)
    | None =>
        let projectile :=
          Projectile.new
            {| Projectile.o_position := Some (p_position o);
               Projectile.o_velocity := Some (p_velocity o);
               Projectile.o_speed := p_speed o;
               Projectile.o_radius := p_radius o;
               Projectile.o_size := p_size o;
               Projectile.o_lifespan := p_lifespan o;
               Projectile.o_maxDistance := p_maxDistance o;
               Projectile.o_color := p_color o;
               Projectile.o_screenWidth :=
                 Js.spread (p_screenWidth o) (screenWidth m);
               Projectile.o_screenHeight :=
                 Js.spread (p_screenHeight o) (screenHeight m) |} in
        let projectile :=
          Projectile.set_id (Some (nextEntityId m)) projectile in
        let m := set_nextEntityId (S (nextEntityId m)) m in
        let m := set_entitiesCreated (S (entitiesCreated m)) m in
        (projectile, set_poolMisses (S (poolMisses m)) m)
    end in
  (projectile, set_projectiles (projectiles m ++ [projectile]) m).

(** The body of the loop shared by the three particle generators: the new
    particle gets the next id and is pushed. *)
Definition registerParticle (st : list Particle.t * t) (particle : Particle.t)
  : list Particle.t * t :=
  let '(registered, m) := st in
  let particle := Particle.set_id (Some (nextEntityId m)) particle in
  let m := set_nextEntityId (S (nextEntityId m)) m in
  let m := set_particles (particles m ++ [particle]) m in
  let m := set_entitiesCreated (S (entitiesCreated m)) m in
  (registered ++ [particle], m).

(** The loop over the new particles. *)
Definition registerParticles (m : t) (new : list Particle.t)
  : list Particle.t * t :=
  fold_left registerParticle new ([], m).

(** The [type] and [options] of [createParticleEffect]; an absent
    optional property is [None]. *)
Inductive effect :=
| explosion (position : Vector2D.t) (color : option Color)
    (count : option R) (speed : option R)
| debris (position velocity : Vector2D.t) (color : option Color)
    (count : option R)
| sparks (position direction : Vector2D.t) (color : option Color)
    (count : option R)
| unknownEffect (type : string).

(** A destructuring default [name = d]: used when the property is
    [undefined]. *)
Definition defaultTo {A : Type} (o : option A) (d : A) : A :=
  match o with
  | Some v => v
  | None => d
  end.

(** [createExplosionParticles(options)]. *)
Definition createExplosionParticles (m : t) (position : Vector2D.t)
    (color : option Color) (count speed : option R) (g : Js.RandomSource)
  : list Particle.t * t * Js.RandomSource :=
  let color := defaultTo color (css "#FFFFFF") in
  let count := defaultTo count 8 in
  let speed := defaultTo speed 100 in
  let '(particles, g) :=
    Particle.createExplosion position color count
      (Particle.mkExplosionOptions (Some speed) None None None) g in
  let '(particles, m) := registerParticles m particles in
  (particles, m, g).

(** [createDebrisParticles(options)]. *)
Definition createDebrisParticles (m : t) (position velocity : Vector2D.t)
    (color : option Color) (count : option R) (g : Js.RandomSource)
  : list Particle.t * t * Js.RandomSource :=
  let color := defaultTo color (css "#888888") in
  let count := defaultTo count 6 in
  let '(particles, g) := Particle.createDebris position velocity color count g in
  let '(particles, m) := registerParticles m particles in
  (particles, m, g).

(** [createSparkParticles(options)]. *)
Definition createSparkParticles (m : t) (position direction : Vector2D.t)
    (color : option Color) (count : option R) (g : Js.RandomSource)
  : list Particle.t * t * Js.RandomSource :=
  let color := defaultTo color (css "#FFFF00") in
  let count := defaultTo count 5 in
  let '(particles, g) := Particle.createSparks position direction color count g in
  let '(particles, m) := registerParticles m particles in
  (particles, m, g).

(** [createParticleEffect(type, options)]. *)
Definition createParticleEffect (m : t) (e : effect) (g : Js.RandomSource)
  : list Particle.t * t * Js.RandomSource :=
  match e with
  | explosion position color count speed =>
      createExplosionParticles m position color count speed g
  | debris position velocity color count =>
      createDebrisParticles m position velocity color count g
  | sparks position direction color count =>
      createSparkParticles m position direction color count g
  | unknownEffect _ => ([], m, g)
  end.

(** [destroyAsteroid(asteroid)]: the fragments, the asteroid after the
    call, the manager and the random source. *)
Definition destroyAsteroid (m : t) (asteroid : Asteroid.t)
    (g : Js.RandomSource)
  : list Asteroid.t * Asteroid.t * t * Js.RandomSource :=
  let '(_, m, g) :=
    createParticleEffect m
      (explosion (Asteroid.position asteroid)
         (Some (Asteroid.color asteroid))
         (Some (6 + IZR (Js.floor (Asteroid.radius asteroid / 10))))
         None) g in
  let '(fragments, asteroid, g) := Asteroid.split asteroid g in
  let '(fragments, m) := registerAsteroids m fragments in
  let asteroid := Asteroid.set_isActive false asteroid in
  let m := set_entitiesDestroyed (S (entitiesDestroyed m)) m in
  (fragments, asteroid, m, g).

(** [destroyProjectile(projectile)]: the projectile after the call, the
    manager and the random source. *)
Definition destroyProjectile (m : t) (projectile : Projectile.t)
    (g : Js.RandomSource) : Projectile.t * t * Js.RandomSource :=
  if negb (Projectile.isActive projectile) then (projectile, m, g)
  else
    let '(_, m, g) :=
      createParticleEffect m
        (sparks (Projectile.position projectile)
           (Vector2D.normalized (Projectile.velocity projectile))
           None (Some 3)) g in
    let projectile := Projectile.set_isActive false projectile in
    let m := set_entitiesDestroyed (S (entitiesDestroyed m)) m in
    (projectile, m, g).

(** The slots of the elements of an array that satisfy [keep], in array
    order. *)
Definition slotsWhere {A : Type} (keep : A -> bool) (l : list A) : list nat :=
  map fst (List.filter (fun entry => keep (snd entry))
             (combine (seq 0 (length l)) l)).

(** [getAllActiveEntities()]: the active asteroids, then the active
    projectiles, each named by its slot. *)
Definition getAllActiveEntities (m : t) : list Handle :=
  map asteroidRef (slotsWhere Asteroid.isActive (asteroids m))
  ++ map projectileRef (slotsWhere Projectile.isActive (projectiles m)).

(** [clearAllEntities()]; the objects it marks inactive are dropped with
    the arrays. *)
Definition clearAllEntities (m : t) : t :=
  let m := set_asteroids [] m in
  let m := set_projectiles [] m in
  let m := set_particles [] m in
  let m := set_projectilePool [] m in
  set_particlePool [] m.

(** The [pooled] part of [getEntityCounts()]. *)
Record pooledCounts := mkPooledCounts {
  pooledProjectiles : nat;
  pooledParticles : nat
}.

Record entityCounts := mkEntityCounts {
  countAsteroids : nat;
  countProjectiles : nat;
  countParticles : nat;
  countTotal : nat;
  pooled : pooledCounts
}.

(** [getEntityCounts()]. *)
Definition getEntityCounts (m : t) : entityCounts :=
  mkEntityCounts
    (length (List.filter Asteroid.isActive (asteroids m)))
    (length (List.filter Projectile.isActive (projectiles m)))
    (length (List.filter Particle.isActive (particles m)))
    (length (getAllActiveEntities m))
    (mkPooledCounts (length (projectilePool m)) (length (particlePool m))).

(** The result of [getEntitiesByType(type)]: an array of asteroids, of
    projectiles or of particles. *)
Inductive entitiesOfType :=
| asteroidsOfType (l : list Asteroid.t)
| projectilesOfType (l : list Projectile.t)
| particlesOfType (l : list Particle.t)
| noneOfType.

(** [getEntitiesByType(type)]. *)
Definition getEntitiesByType (m : t) (type : string) : entitiesOfType :=
  if String.eqb type "asteroid"
  then asteroidsOfType (List.filter Asteroid.isActive (asteroids m))
  else if String.eqb type "projectile"
  then projectilesOfType (List.filter Projectile.isActive (projectiles m))
  else if String.eqb type "particle"
  then particlesOfType (List.filter Particle.isActive (particles m))
  else noneOfType.

(** [setScreenDimensions(width, height)]. *)
Definition setScreenDimensions (m : t) (width height : R) : t :=
  mk width height (asteroids m) (projectiles m) (particles m)
     (projectilePool m) (particlePool m) (maxPoolSize m) (nextEntityId m)
     (entitiesCreated m) (entitiesDestroyed m) (poolHits m) (poolMisses m).

End EntityManager.

(** ** GameState.js *)

Module GameState.

Inductive Phase := menu | playing | paused | gameOver.

#[global] Instance Phase_eq_dec : EqDecision Phase.
Proof. solve_decision. Defined.

(** One entry of [difficultySettings]. *)
Record settings := mkSettings {
  initialLives : Z;
  baseAsteroidCount : Z;
  asteroidSpeedMultiplier : R;
  extraLifeThreshold : R
}.

(** [this.difficultySettings[difficulty]]. *)
Definition difficultySettings (d : Difficulty.t) : settings :=
  match d with
  | Difficulty.easy => mkSettings 5 3 0.8 8000
  | Difficulty.medium => mkSettings 3 5 1.0 10000
  | Difficulty.hard => mkSettings 1 8 1.3 15000
  end.

(** [this.pointValues]. *)
Definition asteroidLarge : R := 20.
Definition asteroidMedium : R := 50.
Definition asteroidSmall : R := 100.
Definition levelBonus : R := 500.

Record t := mk {
  score : R;
  lives : Z;
  level : Z;
  difficulty : Difficulty.t;
  gamePhase : Phase;
  isPaused : bool;
  isGameOver : bool;
  levelStartTime : R;
  levelDuration : R;
  asteroidsDestroyed : nat;
  totalAsteroidsThisLevel : nat;
  lastExtraLifeScore : R;
  gameStartTime : R;
  totalGameTime : R;
  shotsFired : nat;
  shotsHit : nat
}.

Definition set_score (v : R) (s : t) : t :=
  mk v (lives s) (level s) (difficulty s) (gamePhase s) (isPaused s)
     (isGameOver s) (levelStartTime s) (levelDuration s)
     (asteroidsDestroyed s) (totalAsteroidsThisLevel s)
     (lastExtraLifeScore s) (gameStartTime s) (totalGameTime s)
     (shotsFired s) (shotsHit s).

Definition set_lives (v : Z) (s : t) : t :=
  mk (score s) v (level s) (difficulty s) (gamePhase s) (isPaused s)
     (isGameOver s) (levelStartTime s) (levelDuration s)
     (asteroidsDestroyed s) (totalAsteroidsThisLevel s)
     (lastExtraLifeScore s) (gameStartTime s) (totalGameTime s)
     (shotsFired s) (shotsHit s).

Definition set_level (v : Z) (s : t) : t :=
  mk (score s) (lives s) v (difficulty s) (gamePhase s) (isPaused s)
     (isGameOver s) (levelStartTime s) (levelDuration s)
     (asteroidsDestroyed s) (totalAsteroidsThisLevel s)
     (lastExtraLifeScore s) (gameStartTime s) (totalGameTime s)
     (shotsFired s) (shotsHit s).

Definition set_difficulty (v : Difficulty.t) (s : t) : t :=
  mk (score s) (lives s) (level s) v (gamePhase s) (isPaused s)
     (isGameOver s) (levelStartTime s) (levelDuration s)
     (asteroidsDestroyed s) (totalAsteroidsThisLevel s)
     (lastExtraLifeScore s) (gameStartTime s) (totalGameTime s)
     (shotsFired s) (shotsHit s).

Definition set_gamePhase (v : Phase) (s : t) : t :=
  mk (score s) (lives s) (level s) (difficulty s) v (isPaused s)
     (isGameOver s) (levelStartTime s) (levelDuration s)
     (asteroidsDestroyed s) (totalAsteroidsThisLevel s)
     (lastExtraLifeScore s) (gameStartTime s) (totalGameTime s)
     (shotsFired s) (shotsHit s).

Definition set_isPaused (v : bool) (s : t) : t :=
  mk (score s) (lives s) (level s) (difficulty s) (gamePhase s) v
     (isGameOver s) (levelStartTime s) (levelDuration s)
     (asteroidsDestroyed s) (totalAsteroidsThisLevel s)
     (lastExtraLifeScore s) (gameStartTime s) (totalGameTime s)
     (shotsFired s) (shotsHit s).

Definition set_isGameOver (v : bool) (s : t) : t :=
  mk (score s) (lives s) (level s) (difficulty s) (gamePhase s) (isPaused s)
     v (levelStartTime s) (levelDuration s)
     (asteroidsDestroyed s) (totalAsteroidsThisLevel s)
     (lastExtraLifeScore s) (gameStartTime s) (totalGameTime s)
     (shotsFired s) (shotsHit s).

Definition set_levelStartTime (v : R) (s : t) : t :=
  mk (score s) (lives s) (level s) (difficulty s) (gamePhase s) (isPaused s)
     (isGameOver s) v (levelDuration s)
     (asteroidsDestroyed s) (totalAsteroidsThisLevel s)
     (lastExtraLifeScore s) (gameStartTime s) (totalGameTime s)
     (shotsFired s) (shotsHit s).

Definition set_asteroidsDestroyed (v : nat) (s : t) : t :=
  mk (score s) (lives s) (level s) (difficulty s) (gamePhase s) (isPaused s)
     (isGameOver s) (levelStartTime s) (levelDuration s)
     v (totalAsteroidsThisLevel s)
     (lastExtraLifeScore s) (gameStartTime s) (totalGameTime s)
     (shotsFired s) (shotsHit s).

Definition set_lastExtraLifeScore (v : R) (s : t) : t :=
  mk (score s) (lives s) (level s) (difficulty s) (gamePhase s) (isPaused s)
     (isGameOver s) (levelStartTime s) (levelDuration s)
     (asteroidsDestroyed s) (totalAsteroidsThisLevel s)
     v (gameStartTime s) (totalGameTime s)
     (shotsFired s) (shotsHit s).

Definition set_gameStartTime (v : R) (s : t) : t :=
  mk (score s) (lives s) (level s) (difficulty s) (gamePhase s) (isPaused s)
     (isGameOver s) (levelStartTime s) (levelDuration s)
     (asteroidsDestroyed s) (totalAsteroidsThisLevel s)
     (lastExtraLifeScore s) v (totalGameTime s)
     (shotsFired s) (shotsHit s).

Definition set_totalGameTime (v : R) (s : t) : t :=
  mk (score s) (lives s) (level s) (difficulty s) (gamePhase s) (isPaused s)
     (isGameOver s) (levelStartTime s) (levelDuration s)
     (asteroidsDestroyed s) (totalAsteroidsThisLevel s)
     (lastExtraLifeScore s) (gameStartTime s) v
     (shotsFired s) (shotsHit s).

Definition set_shotsFired (v : nat) (s : t) : t :=
  mk (score s) (lives s) (level s) (difficulty s) (gamePhase s) (isPaused s)
     (isGameOver s) (levelStartTime s) (levelDuration s)
     (asteroidsDestroyed s) (totalAsteroidsThisLevel s)
     (lastExtraLifeScore s) (gameStartTime s) (totalGameTime s)
     v (shotsHit s).

Definition set_shotsHit (v : nat) (s : t) : t :=
  mk (score s) (lives s) (level s) (difficulty s) (gamePhase s) (isPaused s)
     (isGameOver s) (levelStartTime s) (levelDuration s)
     (asteroidsDestroyed s) (totalAsteroidsThisLevel s)
     (lastExtraLifeScore s) (gameStartTime s) (totalGameTime s)
     (shotsFired s) v.

(** [applyDifficultySettings()]. *)
Definition applyDifficultySettings (s : t) : t :=
  let settings := difficultySettings (difficulty s) in
  set_lives (initialLives settings) s.

(** [new GameState()], with the default (empty) [options]. *)
Definition new : t :=
  applyDifficultySettings
    (mk 0 3 1 Difficulty.medium menu false false 0 60000 0 0 0 0 0 0 0).

(** [startNewGame(difficulty, shipColor)]; [now] is [Date.now()]. *)
Definition startNewGame (s : t) (difficulty : Difficulty.t) (now : R) : t :=
  let s := set_difficulty difficulty s in
  let s := set_score 0 s in
  let s := set_level 1 s in
  let s := applyDifficultySettings s in
  let s := set_gamePhase playing s in
  let s := set_isPaused false s in
  let s := set_isGameOver false s in
  let s := set_levelStartTime now s in
  let s := set_gameStartTime now s in
  let s := set_asteroidsDestroyed 0 s in
  let s := set_lastExtraLifeScore 0 s in
  let s := set_shotsFired 0 s in
  set_shotsHit 0 s.

(** [update(deltaTime, gameData)]. *)
Definition update (s : t) (deltaTime : R) : t :=
  if decide (gamePhase s <> playing) then s
  else set_totalGameTime (totalGameTime s + deltaTime) s.

(** [source.includes('asteroid')]. *)
Definition includesAsteroid (source : string) : bool :=
  match String.index 0 "asteroid" source with
  | Some _ => true
  | None => false
  end.

(** The object returned by [addScore]. *)
Record scoreResult := mkScoreResult {
  newScore : R;
  pointsAdded : R;
  extraLifeEarned : bool;
  source : option string
}.

(** [addScore(points, source)]. *)
Definition addScore (s : t) (points : R) (source : string)
  : scoreResult * t :=
  let oldScore := score s in
  let s := set_score (score s + points) s in
  let settings := difficultySettings (difficulty s) in
  let extraLifeThreshold := extraLifeThreshold settings in
  let extraLifeEarned :=
    (Js.floor (lastExtraLifeScore s / extraLifeThreshold)
     <? Js.floor (score s / extraLifeThreshold))%Z in
  let s :=
    if extraLifeEarned then
      let s := set_lives (lives s + 1) s in
      set_lastExtraLifeScore (score s) s
    else s in
  let s :=
    if includesAsteroid source then set_shotsHit (S (shotsHit s)) s else s in
  (mkScoreResult (score s) points extraLifeEarned (Some source), s).

(** [endGame()]; [now] is [Date.now()]. *)
Definition endGame (s : t) (now : R) : t :=
  let s := set_isGameOver true s in
  let s := set_gamePhase gameOver s in
  set_totalGameTime (now - gameStartTime s) s.

(** [loseLife()]: the [gameOver] flag of the result, and the state. *)
Definition loseLife (s : t) (now : R) : bool * t :=
  let s := set_lives (lives s - 1) s in
  let gameOver := (lives s <=? 0)%Z in
  let s := if gameOver then endGame s now else s in
  (gameOver, s).

(** [awardLevelBonus()]. *)
Definition awardLevelBonus (s : t) : R * t :=
  let '(_, s) := addScore s levelBonus "level-bonus" in
  (levelBonus, s).

(** [advanceLevel()]; [now] is [Date.now()]. *)
Definition advanceLevel (s : t) (now : R) : Z * t :=
  let s := set_level (level s + 1) s in
  let s := set_levelStartTime now s in
  let s := set_asteroidsDestroyed 0 s in
  (level s, s).

(** [completeLevel()]: [(newLevel, bonusAwarded)] and the state. *)
Definition completeLevel (s : t) (now : R) : (Z * R) * t :=
  let '(bonusAwarded, s) := awardLevelBonus s in
  let '(newLevel, s) := advanceLevel s now in
  ((newLevel, bonusAwarded), s).

(** [getAsteroidCountForLevel()]; on integers [Math.floor(a / 3)] is the
    floored division. *)
Definition getAsteroidCountForLevel (s : t) : Z :=
  let settings := difficultySettings (difficulty s) in
  let baseCount := baseAsteroidCount settings in
  let levelBonus := ((level s - 1) / 3)%Z in
  (baseCount + levelBonus)%Z.

(** [getAsteroidSpeedMultiplier()]. *)
Definition getAsteroidSpeedMultiplier (s : t) : R :=
  let settings := difficultySettings (difficulty s) in
  let baseMultiplier := asteroidSpeedMultiplier settings in
  let levelMultiplier := 1 + Rmin 0.5 (IZR (level s - 1) * 0.05) in
  baseMultiplier * levelMultiplier.

(** [pause()]. *)
Definition pause (s : t) : bool * t :=
  if bool_decide (gamePhase s = playing) && negb (isPaused s)
  then (true, set_isPaused true s)
  else (false, s).

(** [resume()]. *)
Definition resume (s : t) : bool * t :=
  if bool_decide (gamePhase s = playing) && isPaused s
  then (true, set_isPaused false s)
  else (false, s).

(** [returnToMenu()]. *)
Definition returnToMenu (s : t) : t :=
  let s := set_gamePhase menu s in
  let s := set_isPaused false s in
  set_isGameOver false s.

(** The template [`asteroid-${asteroidSize}`]. *)
Definition asteroidSource (size : Asteroid.Size) : string :=
  match size with
  | Asteroid.large => "asteroid-large"
  | Asteroid.medium => "asteroid-medium"
  | Asteroid.small => "asteroid-small"
  end.

(** [recordAsteroidDestroyed(asteroidSize)]. *)
Definition recordAsteroidDestroyed (s : t) (asteroidSize : Asteroid.Size)
  : scoreResult * t :=
  let s := set_asteroidsDestroyed (S (asteroidsDestroyed s)) s in
  let points :=
    match asteroidSize with
    | Asteroid.large => asteroidLarge
    | Asteroid.medium => asteroidMedium
    | Asteroid.small => asteroidSmall
    end in
  if Rgt_dec points 0 then addScore s points (asteroidSource asteroidSize)
  else (mkScoreResult (score s) 0 false None, s).

(** [recordShotFired()]. *)
Definition recordShotFired (s : t) : t :=
  set_shotsFired (S (shotsFired s)) s.

(** The object [getUIState()] returns. *)
Record uiState := mkUiState {
  ui_score : R;
  ui_lives : Z;
  ui_level : Z;
  ui_difficulty : Difficulty.t;
  ui_gamePhase : Phase;
  ui_isPaused : bool;
  ui_isGameOver : bool
}.

(** [getUIState()]. *)
Definition getUIState (s : t) : uiState :=
  mkUiState (score s) (lives s) (level s) (difficulty s) (gamePhase s)
    (isPaused s) (isGameOver s).

(** The object [getConfig()] returns and [setConfig(config)] reads; an
    absent property is [None]. *)
Record config := mkConfig {
  c_score : option R;
  c_lives : option Z;
  c_level : option Z;
  c_difficulty : option Difficulty.t;
  c_gamePhase : option Phase;
  c_asteroidsDestroyed : option nat;
  c_totalGameTime : option R;
  c_shotsFired : option nat;
  c_shotsHit : option nat;
  c_lastExtraLifeScore : option R
}.

(** [getConfig()]. *)
Definition getConfig (s : t) : config :=
  mkConfig (Some (score s)) (Some (lives s)) (Some (level s))
    (Some (difficulty s)) (Some (gamePhase s)) (Some (asteroidsDestroyed s))
    (Some (totalGameTime s)) (Some (shotsFired s)) (Some (shotsHit s))
    (Some (lastExtraLifeScore s)).

(** [setConfig(config)]: every saved property is read through [||], and
    the two transient flags are reset. *)
Definition setConfig (s : t) (config : config) : t :=
  let s := set_score (Js.orNumber (c_score config) 0) s in
  let s := set_lives (Js.orInteger (c_lives config) 3) s in
  let s := set_level (Js.orInteger (c_level config) 1) s in
  let s := set_difficulty (Js.orObject (c_difficulty config) Difficulty.medium) s in
  let s := set_gamePhase (Js.orObject (c_gamePhase config) menu) s in
  let s := set_asteroidsDestroyed (Js.orCount (c_asteroidsDestroyed config) 0) s in
  let s := set_totalGameTime (Js.orNumber (c_totalGameTime config) 0) s in
  let s := set_shotsFired (Js.orCount (c_shotsFired config) 0) s in
  let s := set_shotsHit (Js.orCount (c_shotsHit config) 0) s in
  let s := set_lastExtraLifeScore (Js.orNumber (c_lastExtraLifeScore config) 0) s in
  let s := set_isPaused false s in
  set_isGameOver false s.

End GameState.

(** ** InputManager (PhysicsEngine.js, fourth class) *)

Module InputManager.

(** The actions of [keyBindings]. *)
Inductive action := rotateLeft | rotateRight | thrust | pause | escape.

(** The state read by [processInput]: the two key maps, the bindings and
    the two switches; the event listeners that fill [keys] are left out. *)
Record t := mk {
  keys : gmap string bool;
  previousKeys : gmap string bool;
  keyBindings : action -> list string;
  inputEnabled : bool;
  autoFireEnabled : bool
}.

(** The default [keyBindings]. *)
Definition defaultKeyBindings (a : action) : list string :=
  match a with
  | rotateLeft => ["ArrowLeft"; "KeyA"]
  | rotateRight => ["ArrowRight"; "KeyD"]
  | thrust => ["ArrowUp"; "KeyW"]
  | pause => ["KeyP"]
  | escape => ["Escape"]
  end.

(** [new InputManager()]. *)
Definition new : t := mk ∅ ∅ defaultKeyBindings true true.

(** [this.keys.get(keyCode) === true]. *)
Definition isDown (m : gmap string bool) (keyCode : string) : bool :=
  match m !! keyCode with
  | Some true => true
  | _ => false
  end.

(** [isPressed(action)]. *)
Definition isPressed (im : t) (a : action) : bool :=
  existsb (fun keyCode => isDown (keys im) keyCode) (keyBindings im a).

(** [wasJustPressed(action)]. *)
Definition wasJustPressed (im : t) (a : action) : bool :=
  existsb (fun keyCode =>
             isDown (keys im) keyCode && negb (isDown (previousKeys im) keyCode))
    (keyBindings im a).

(** [updatePreviousKeys()]: [previousKeys] becomes a copy of [keys]. *)
Definition updatePreviousKeys (im : t) : t :=
  mk (keys im) (keys im) (keyBindings im) (inputEnabled im) (autoFireEnabled im).

(** [handleKeyDown(event)] and [handleKeyUp(event)], reading only
    [event.code]. *)
Definition handleKeyDown (im : t) (code : string) : t :=
  if negb (inputEnabled im) then im
  else mk (<[code := true]> (keys im)) (previousKeys im) (keyBindings im)
         (inputEnabled im) (autoFireEnabled im).

Definition handleKeyUp (im : t) (code : string) : t :=
  if negb (inputEnabled im) then im
  else mk (<[code := false]> (keys im)) (previousKeys im) (keyBindings im)
         (inputEnabled im) (autoFireEnabled im).

(** [wasJustReleased(action)]. *)
Definition wasJustReleased (im : t) (a : action) : bool :=
  existsb (fun keyCode =>
             negb (isDown (keys im) keyCode) && isDown (previousKeys im) keyCode)
    (keyBindings im a).

(** [isKeyPressed(keyCode)]. *)
Definition isKeyPressed (im : t) (keyCode : string) : bool :=
  isDown (keys im) keyCode.

(** [clearAllKeys()]. *)
Definition clearAllKeys (im : t) : t :=
  mk ∅ ∅ (keyBindings im) (inputEnabled im) (autoFireEnabled im).

(** [isGameKey(keyCode)]. *)
Definition isGameKey (im : t) (keyCode : string) : bool :=
  let allGameKeys :=
    flat_map (keyBindings im) [rotateLeft; rotateRight; thrust; pause; escape] in
  existsb (String.eqb keyCode) allGameKeys.

(** [setInputEnabled(enabled)]. *)
Definition setInputEnabled (im : t) (enabled : bool) : t :=
  let im :=
    mk (keys im) (previousKeys im) (keyBindings im) enabled (autoFireEnabled im) in
  if negb enabled then clearAllKeys im else im.

(** [setAutoFireEnabled(enabled)]. *)
Definition setAutoFireEnabled (im : t) (enabled : bool) : t :=
  mk (keys im) (previousKeys im) (keyBindings im) (inputEnabled im) enabled.

(** [destroy()]. *)
Definition destroy (im : t) : t :=
  let im := clearAllKeys im in
  mk (keys im) (previousKeys im) (keyBindings im) false (autoFireEnabled im).

(** The object returned by [processInput]. *)
Record result := mkResult {
  actions : list string;
  shipUpdated : bool;
  newProjectile : option Ship.projectileData
}.

(** [processInput(inputState)]: the result, the input manager and the
    ship after the call. *)
Definition processInput (im : t) (ship : option Ship.t)
    (gameState : GameState.t) (deltaTime currentTime : R)
  : result * t * option Ship.t :=
  let actions := [] in
  let actions :=
    if isPressed im pause && wasJustPressed im pause
    then actions ++ ["toggle-pause"] else actions in
  let actions :=
    if isPressed im escape && wasJustPressed im escape
    then actions ++ ["escape"] else actions in
  if GameState.isPaused gameState then
    (mkResult actions false None, updatePreviousKeys im, ship)
  else
    match ship with
    | None => (mkResult actions false None, updatePreviousKeys im, ship)
    | Some s =>
        let '(s, actions, shipUpdated) :=
          if isPressed im rotateLeft
          then (Ship.rotateLeft s deltaTime, actions ++ ["rotate-left"], true)
          else (s, actions, false) in
        let '(s, actions, shipUpdated) :=
          if isPressed im rotateRight
          then (Ship.rotateRight s deltaTime, actions ++ ["rotate-right"], true)
          else (s, actions, shipUpdated) in
        let '(s, actions, shipUpdated) :=
          if isPressed im thrust
          then (Ship.thrust s, actions ++ ["thrust"], true)
          else (Ship.stopThrust s, actions, shipUpdated) in
        let '(s, actions, newProjectile) :=
          if autoFireEnabled im && Ship.canFire s currentTime then
            let '(newProjectile, s) := Ship.createProjectile s currentTime in
            match newProjectile with
            | Some _ => (s, actions ++ ["auto-fire"], newProjectile)
            | None => (s, actions, newProjectile)
            end
          else (s, actions, None) in
        (mkResult actions shipUpdated newProjectile, updatePreviousKeys im,
         Some s)
    end.

End InputManager.

(** ** Game.js *)

Module Game.

Definition Entity := PhysicsEngine.Entity Handle.
Definition Collision := PhysicsEngine.Collision Handle.

(** The fields of [Game] that the simulation reads and writes; the
    canvas, renderer and frame bookkeeping are left out. *)
Record t := mk {
  width : R;
  height : R;
  physicsEngine : PhysicsEngine.t Handle;
  inputManager : InputManager.t;
  gameState : GameState.t;
  entityManager : EntityManager.t;
  ship : option Ship.t;
  selectedShipColor : Color;
  selectedDifficulty : Difficulty.t
}.

Definition set_gameState (s : GameState.t) (gm : t) : t :=
  mk (width gm) (height gm) (physicsEngine gm) (inputManager gm) s
     (entityManager gm) (ship gm) (selectedShipColor gm)
     (selectedDifficulty gm).

Definition set_entityManager (m : EntityManager.t) (gm : t) : t :=
  mk (width gm) (height gm) (physicsEngine gm) (inputManager gm)
     (gameState gm) m (ship gm) (selectedShipColor gm)
     (selectedDifficulty gm).

Definition set_ship (s : option Ship.t) (gm : t) : t :=
  mk (width gm) (height gm) (physicsEngine gm) (inputManager gm)
     (gameState gm) (entityManager gm) s (selectedShipColor gm)
     (selectedDifficulty gm).

Definition set_physicsEngine (e : PhysicsEngine.t Handle) (gm : t) : t :=
  mk (width gm) (height gm) e (inputManager gm) (gameState gm)
     (entityManager gm) (ship gm) (selectedShipColor gm)
     (selectedDifficulty gm).

Definition set_inputManager (im : InputManager.t) (gm : t) : t :=
  mk (width gm) (height gm) (physicsEngine gm) im (gameState gm)
     (entityManager gm) (ship gm) (selectedShipColor gm)
     (selectedDifficulty gm).

Definition set_selection (d : Difficulty.t) (c : Color) (gm : t) : t :=
  mk (width gm) (height gm) (physicsEngine gm) (inputManager gm)
     (gameState gm) (entityManager gm) (ship gm) c d.

(** What the physics engine reads of each kind of object. *)
Definition shipEntity (s : Ship.t) : Entity :=
  PhysicsEngine.mkEntity shipRef None None None (Ship.position s)
    (Ship.getBounds s).

Definition asteroidEntity (i : nat) (a : Asteroid.t) : Entity :=
  PhysicsEngine.mkEntity (asteroidRef i) (Asteroid.id a)
    (Some (Asteroid.isActive a)) (Some asteroidType) (Asteroid.position a)
    (Asteroid.getBounds a).

Definition projectileEntity (i : nat) (p : Projectile.t) : Entity :=
  PhysicsEngine.mkEntity (projectileRef i) (Projectile.id p)
    (Some (Projectile.isActive p)) (Some projectileType)
    (Projectile.position p) (Projectile.getBounds p).

(** The object a reference names, as the engine sees it. *)
Definition entityAt (gm : t) (h : Handle) : option Entity :=
  match h with
  | shipRef => shipEntity <$> ship gm
  | asteroidRef i =>
      asteroidEntity i <$> EntityManager.asteroids (entityManager gm) !! i
  | projectileRef i =>
      projectileEntity i <$> EntityManager.projectiles (entityManager gm) !! i
  end.

(** [entity.update(deltaTime)] on the object a reference names. *)
Definition updateAt (gm : t) (h : Handle) (deltaTime : R) : t :=
  match h with
  | shipRef => set_ship ((fun s => Ship.update s deltaTime) <$> ship gm) gm
  | asteroidRef i =>
      let m := entityManager gm in
      set_entityManager
        (EntityManager.set_asteroids
           (alter (fun a => Asteroid.update a deltaTime) i
              (EntityManager.asteroids m)) m) gm
  | projectileRef i =>
      let m := entityManager gm in
      set_entityManager
        (EntityManager.set_projectiles
           (alter (fun p => Projectile.update p deltaTime) i
              (EntityManager.projectiles m)) m) gm
  end.

#[global] Instance store : PhysicsEngine.EntityStore t :=
  {| PhysicsEngine.entityAt := entityAt; PhysicsEngine.updateAt := updateAt |}.

(** [entity === this.ship]. *)
Definition isShip (gm : t) (entity : Entity) : bool :=
  match ship gm with
  | Some _ => bool_decide (PhysicsEngine.ref entity = shipRef)
  | None => false
  end.

(** [entity.type === tag]. *)
Definition hasType (entity : Entity) (tag : EntityType) : bool :=
  bool_decide (PhysicsEngine.type entity = Some tag).

(** The ship branch of [handleCollisions], once [ship] and [asteroid]
    are told apart. *)
Definition shipHitsAsteroid (gm : t) (asteroid : Entity) (now : R)
    (g : Js.RandomSource) : t * Js.RandomSource :=
  match ship gm with
  | None => (gm, g)
  | Some s =>
      let '(destroyed, s) := Ship.onCollision s (PhysicsEngine.type asteroid) in
      let gm := set_ship (Some s) gm in
      if destroyed then
        let '(_, gs) := GameState.loseLife (gameState gm) now in
        let gm := set_gameState gs gm in
        let '(_, m, g) :=
          EntityManager.createParticleEffect (entityManager gm)
            (EntityManager.explosion (Ship.position s) (Some (Ship.color s))
               (Some 10) None) g in
        (set_entityManager m gm, g)
      else (gm, g)
  end.

(** The projectile branch of [handleCollisions]; [i] and [j] are the
    slots of the projectile and of the asteroid. *)
Definition projectileHitsAsteroid (gm : t) (i j : nat)
    (projectile asteroid : Entity) (g : Js.RandomSource)
  : t * Js.RandomSource :=
  let m := entityManager gm in
  match EntityManager.projectiles m !! i, EntityManager.asteroids m !! j with
  | Some p, Some a =>
      let '(hitP, p) := Projectile.onCollision p (PhysicsEngine.type asteroid) in
      let m := EntityManager.set_projectiles
                 (<[i := p]> (EntityManager.projectiles m)) m in
      if hitP then
        let '(hitA, a) := Asteroid.onCollision a (PhysicsEngine.type projectile) in
        let m := EntityManager.set_asteroids
                   (<[j := a]> (EntityManager.asteroids m)) m in
        if hitA then
          let '(p, m, g) := EntityManager.destroyProjectile m p g in
          let m := EntityManager.set_projectiles
                     (<[i := p]> (EntityManager.projectiles m)) m in
          let '(_, a, m, g) := EntityManager.destroyAsteroid m a g in
          let m := EntityManager.set_asteroids
                     (<[j := a]> (EntityManager.asteroids m)) m in
          let '(_, gs) :=
            GameState.recordAsteroidDestroyed (gameState gm) (Asteroid.size a) in
          (set_gameState gs (set_entityManager m gm), g)
        else (set_entityManager m gm, g)
      else (set_entityManager m gm, g)
  | _, _ => (gm, g)
  end.

(** The body of the loop of [handleCollisions]; [now] is [Date.now()]. *)
Definition handleCollision (gm : t) (collision : Collision) (now : R)
    (g : Js.RandomSource) : t * Js.RandomSource :=
  let entityA := PhysicsEngine.entityA collision in
  let entityB := PhysicsEngine.entityB collision in
  if (isShip gm entityA && hasType entityB asteroidType)
     || (isShip gm entityB && hasType entityA asteroidType)
  then
    let asteroid := if isShip gm entityA then entityB else entityA in
    shipHitsAsteroid gm asteroid now g
  else if (hasType entityA projectileType && hasType entityB asteroidType)
          || (hasType entityB projectileType && hasType entityA asteroidType)
  then
    let projectile := if hasType entityA projectileType then entityA else entityB in
    let asteroid := if hasType entityA projectileType then entityB else entityA in
    match PhysicsEngine.ref projectile, PhysicsEngine.ref asteroid with
    | projectileRef i, asteroidRef j =>
        projectileHitsAsteroid gm i j projectile asteroid g
    | _, _ => (gm, g)
    end
  else (gm, g).

(** [handleCollisions(collisions)]. *)
Definition handleCollisions (gm : t) (collisions : list Collision) (now : R)
    (g : Js.RandomSource) : t * Js.RandomSource :=
  fold_left (fun '(gm, g) collision => handleCollision gm collision now g)
    collisions (gm, g).

(** [handleLevelComplete()]; [None] is the [TypeError] of reading
    [this.ship.position] when there is no ship. *)
Definition handleLevelComplete (gm : t) (now : R) (g : Js.RandomSource)
  : option (t * Js.RandomSource) :=
  let '(_, gs) := GameState.completeLevel (gameState gm) now in
  let gm := set_gameState gs gm in
  let asteroidCount := GameState.getAsteroidCountForLevel (gameState gm) in
  match ship gm with
  | None => None
  | Some s =>
      let '(_, m, g) :=
        EntityManager.createAsteroidField (entityManager gm) asteroidCount
          (Ship.position s) (selectedDifficulty gm) g in
      Some (set_entityManager m gm, g)
  end.

(** [startNewGame(difficulty, shipColor)]. *)
Definition startNewGame (gm : t) (difficulty : Difficulty.t)
    (shipColor : Color) (now : R) (g : Js.RandomSource)
  : t * Js.RandomSource :=
  let gm := set_selection difficulty shipColor gm in
  let gm := set_gameState
              (GameState.startNewGame (gameState gm) difficulty now) gm in
  let s :=
    Ship.new
      {| Ship.o_position :=
           Ship.plain (Some (width gm / 2)) (Some (height gm / 2));
         Ship.o_velocity := Ship.absent;
         Ship.o_rotation := None;
         Ship.o_radius := None;
         Ship.o_thrustPower := None;
         Ship.o_rotationSpeed := None;
         Ship.o_maxVelocity := None;
         Ship.o_drag := None;
         Ship.o_color := Some shipColor;
         Ship.o_size := None;
         Ship.o_screenWidth := Some (width gm);
         Ship.o_screenHeight := Some (height gm) |} in
  let gm := set_ship (Some s) gm in
  let gm := set_entityManager
              (EntityManager.clearAllEntities (entityManager gm)) gm in
  let asteroidCount := GameState.getAsteroidCountForLevel (gameState gm) in
  let '(_, m, g) :=
    EntityManager.createAsteroidField (entityManager gm) asteroidCount
      (Ship.position s) difficulty g in
  (set_entityManager m gm, g).

(** [handleInputActions(actions)]. *)
Definition handleInputActions (gm : t) (actions : list string) : t :=
  fold_left
    (fun gm action =>
       if String.eqb action "toggle-pause" then
         if GameState.isPaused (gameState gm)
         then set_gameState (snd (GameState.resume (gameState gm))) gm
         else set_gameState (snd (GameState.pause (gameState gm))) gm
       else if String.eqb action "escape" then
         set_gameState (GameState.returnToMenu (gameState gm)) gm
       else gm)
    actions gm.

(** The projectile options made of the object [Ship.createProjectile]
    returns; its [rotation] is read by nobody. *)
Definition projectileOptionsOf (d : Ship.projectileData)
  : EntityManager.projectileOptions :=
  EntityManager.mkProjectileOptions (Ship.d_position d) (Ship.d_velocity d)
    None None None None None None None None.

(** [update(deltaTime, currentTime)]; [now] is [Date.now()], and [None] is
    the [TypeError] of [handleLevelComplete] without a ship. *)
Definition update (gm : t) (deltaTime currentTime now : R)
    (g : Js.RandomSource) : option (t * Js.RandomSource) :=
  let entityCounts := EntityManager.getEntityCounts (entityManager gm) in
  let gm := set_gameState (GameState.update (gameState gm) deltaTime) gm in
  let '(inputResult, im, s) :=
    InputManager.processInput (inputManager gm) (ship gm) (gameState gm)
      deltaTime currentTime in
  let gm := set_ship s (set_inputManager im gm) in
  let gm := handleInputActions gm (InputManager.actions inputResult) in
  if GameState.isPaused (gameState gm)
     || GameState.isGameOver (gameState gm)
     || bool_decide (GameState.gamePhase (gameState gm) = GameState.menu)
  then Some (gm, g)
  else
    let gm :=
      match InputManager.newProjectile inputResult with
      | Some d =>
          let '(_, m) :=
            EntityManager.createProjectile (entityManager gm)
              (projectileOptionsOf d) in
          set_gameState (GameState.recordShotFired (gameState gm))
            (set_entityManager m gm)
      | None => gm
      end in
    let gm := set_ship ((fun s => Ship.update s deltaTime) <$> ship gm) gm in
    let gm :=
      set_entityManager (EntityManager.update (entityManager gm) deltaTime) gm in
    let allEntities :=
      EntityManager.getAllActiveEntities (entityManager gm)
      ++ match ship gm with
         | Some _ => [shipRef]
         | None => []
         end in
    let '(_, gm) :=
      PhysicsEngine.updateEntities (physicsEngine gm) gm allEntities deltaTime in
    let '(collisions, engine) :=
      PhysicsEngine.detectCollisions (physicsEngine gm)
        (omap (entityAt gm) allEntities) in
    let gm := set_physicsEngine engine gm in
    let '(gm, g) := handleCollisions gm collisions now g in
    if (EntityManager.countAsteroids entityCounts =? 0)%nat
    then handleLevelComplete gm now g
    else Some (gm, g).

End Game.

(** ** Sequences of manager calls *)

Module Scenario.

(** One call on an [EntityManager].  A projectile handed to
    [destroyProjectile] is named by the array it sits in and its slot. *)
Inductive op :=
| createProjectile (o : EntityManager.projectileOptions)
| destroyProjectile (i : nat)
| destroyPooledProjectile (i : nat)
| update (deltaTime : R)
| cleanupInactiveEntities.

(** [this.destroyProjectile(this.projectiles[i])]; a slot past the end
    names no projectile and the call is not made. *)
Definition destroyActive (m : EntityManager.t) (i : nat)
    (g : Js.RandomSource) : EntityManager.t * Js.RandomSource :=
  match EntityManager.projectiles m !! i with
  | Some projectile =>
      let '(projectile, m, g) := EntityManager.destroyProjectile m projectile g in
      (EntityManager.set_projectiles
         (<[i := projectile]> (EntityManager.projectiles m)) m, g)
  | None => (m, g)
  end.

(** [this.destroyProjectile(this.projectilePool[i])]. *)
Definition destroyPooled (m : EntityManager.t) (i : nat)
    (g : Js.RandomSource) : EntityManager.t * Js.RandomSource :=
  match EntityManager.projectilePool m !! i with
  | Some projectile =>
      let '(projectile, m, g) := EntityManager.destroyProjectile m projectile g in
      (EntityManager.set_projectilePool
         (<[i := projectile]> (EntityManager.projectilePool m)) m, g)
  | None => (m, g)
  end.

Definition step (st : EntityManager.t * Js.RandomSource) (o : op)
  : EntityManager.t * Js.RandomSource :=
  let '(m, g) := st in
  match o with
  | createProjectile opts => (snd (EntityManager.createProjectile m opts), g)
  | destroyProjectile i => destroyActive m i g
  | destroyPooledProjectile i => destroyPooled m i g
  | update deltaTime => (EntityManager.update m deltaTime, g)
  | cleanupInactiveEntities => (EntityManager.cleanupInactiveEntities m, g)
  end.

Definition run (ops : list op) (st : EntityManager.t * Js.RandomSource)
  : EntityManager.t * Js.RandomSource :=
  fold_left step ops st.

End Scenario.

(** ** Sequences of calls on the whole manager *)

Module Session.

(** One call of the public interface of an [EntityManager].  An asteroid
    or projectile handed to a [destroy] method is named by its slot in the
    manager's array. *)
Inductive op :=
| createAsteroid (o : Asteroid.options)
| createAsteroidField (count : Z) (playerPosition : Vector2D.t)
    (difficulty : Difficulty.t)
| createProjectile (o : EntityManager.projectileOptions)
| createParticleEffect (e : EntityManager.effect)
| destroyAsteroid (j : nat)
| destroyProjectile (i : nat)
| update (deltaTime : R)
| cleanupInactiveEntities
| clearAllEntities
| setScreenDimensions (width height : R).

(** [this.destroyAsteroid(this.asteroids[j])]; a slot past the end names
    no asteroid and the call is not made. *)
Definition destroyAt (m : EntityManager.t) (j : nat) (g : Js.RandomSource)
  : EntityManager.t * Js.RandomSource :=
  match EntityManager.asteroids m !! j with
  | Some asteroid =>
      let '(_, asteroid, m, g) := EntityManager.destroyAsteroid m asteroid g in
      (EntityManager.set_asteroids
         (<[j := asteroid]> (EntityManager.asteroids m)) m, g)
  | None => (m, g)
  end.

Definition step (st : EntityManager.t * Js.RandomSource) (o : op)
  : EntityManager.t * Js.RandomSource :=
  let '(m, g) := st in
  match o with
  | createAsteroid opts =>
      let '(_, m, g) := EntityManager.createAsteroid m opts g in (m, g)
  | createAsteroidField count playerPosition difficulty =>
      let '(_, m, g) :=
        EntityManager.createAsteroidField m count playerPosition difficulty g in
      (m, g)
  | createProjectile opts => (snd (EntityManager.createProjectile m opts), g)
  | createParticleEffect e =>
      let '(_, m, g) := EntityManager.createParticleEffect m e g in (m, g)
  | destroyAsteroid j => destroyAt m j g
  | destroyProjectile i => Scenario.destroyActive m i g
  | update deltaTime => (EntityManager.update m deltaTime, g)
  | cleanupInactiveEntities => (EntityManager.cleanupInactiveEntities m, g)
  | clearAllEntities => (EntityManager.clearAllEntities m, g)
  | setScreenDimensions width height =>
      (EntityManager.setScreenDimensions m width height, g)
  end.

Definition run (ops : list op) (st : EntityManager.t * Js.RandomSource)
  : EntityManager.t * Js.RandomSource :=
  fold_left step ops st.

End Session.

(** ** IEEE doubles

    The functions whose result depends on rounding, on binary64 floats:
    [+], [-], [*], [/] and [Math.sqrt] are the correctly rounded operations
    of IEEE 754, as in JavaScript; [a > b] is [b <? a] and [a !== 0] is
    the negation of [a =? 0], both false on NaN as in JavaScript. *)

Module Binary64.

#[local] Open Scope float_scope.

(** [Math.cos] and [Math.sin] are not among the primitive operations: a
    function that calls them takes them as an argument. *)
Record Math := mkMath {
  cos : float -> float;
  sin : float -> float
}.

(** A stand-in for [Math] on the paths that never call it: whatever would
    be computed from it is NaN. *)
Definition noMath : Math := mkMath (fun _ => nan) (fun _ => nan).

Module Vector2D.

Record t := mk { x : float; y : float }.

Definition clone (v : t) : t := mk (x v) (y v).

Definition add (v vector : t) : t := mk (x v + x vector) (y v + y vector).

Definition multiply (v : t) (scalar : float) : t :=
  mk (x v * scalar) (y v * scalar).

Definition divide (v : t) (scalar : float) : t :=
  if scalar =? 0 then v else mk (x v / scalar) (y v / scalar).

Definition magnitude (v : t) : float :=
  PrimFloat.sqrt (x v * x v + y v * y v).

Definition magnitudeSquared (v : t) : float := x v * x v + y v * y v.

Definition normalize (v : t) : t :=
  let mag := magnitude v in
  if 0 <? mag then divide v mag else v.

Definition limit (v : t) (max : float) : t :=
  let magSq := magnitudeSquared v in
  if max * max <? magSq then multiply (normalize v) max else v.

Definition fromAngle (math : Math) (angle magnitude : float) : t :=
  mk (cos math angle * magnitude) (sin math angle * magnitude).

End Vector2D.

(** The object [getBounds()] returns. *)
Module Bounds.

Record t := mk { x : float; y : float; radius : float }.

End Bounds.

(** The three functions of [PhysicsEngine] that build a collision record,
    on the bounds of the two entities. *)
Module PhysicsEngine.

Definition checkCircleCollision (boundsA boundsB : Bounds.t) : bool :=
  let dx := Bounds.x boundsB - Bounds.x boundsA in
  let dy := Bounds.y boundsB - Bounds.y boundsA in
  let distanceSquared := dx * dx + dy * dy in
  let radiusSum := Bounds.radius boundsA + Bounds.radius boundsB in
  distanceSquared <? radiusSum * radiusSum.

Definition getCollisionPoint (boundsA boundsB : Bounds.t) : Vector2D.t :=
  let x := (Bounds.x boundsA + Bounds.x boundsB) / 2 in
  let y := (Bounds.y boundsA + Bounds.y boundsB) / 2 in
  Vector2D.mk x y.

Definition getCollisionNormal (boundsA boundsB : Bounds.t) : Vector2D.t :=
  let normal :=
    Vector2D.mk (Bounds.x boundsB - Bounds.x boundsA)
                (Bounds.y boundsB - Bounds.y boundsA) in
  Vector2D.normalize normal.

End PhysicsEngine.

(** The fields of a ship that [update] reads or writes. *)
Module Ship.

Record t := mk {
  position : Vector2D.t;
  velocity : Vector2D.t;
  rotation : float;
  thrustPower : float;
  maxVelocity : float;
  drag : float;
  isThrusting : bool;
  isInvulnerable : bool;
  invulnerabilityTimer : float;
  screenWidth : float;
  screenHeight : float
}.

Definition set_position (p : Vector2D.t) (s : t) : t :=
  mk p (velocity s) (rotation s) (thrustPower s) (maxVelocity s) (drag s)
     (isThrusting s) (isInvulnerable s) (invulnerabilityTimer s)
     (screenWidth s) (screenHeight s).

Definition set_velocity (v : Vector2D.t) (s : t) : t :=
  mk (position s) v (rotation s) (thrustPower s) (maxVelocity s) (drag s)
     (isThrusting s) (isInvulnerable s) (invulnerabilityTimer s)
     (screenWidth s) (screenHeight s).

Definition set_invulnerability (b : bool) (timer : float) (s : t) : t :=
  mk (position s) (velocity s) (rotation s) (thrustPower s) (maxVelocity s)
     (drag s) (isThrusting s) b timer (screenWidth s) (screenHeight s).

Definition wrapScreenEdges (s : t) : t :=
  let p := position s in
  let x :=
    if Vector2D.x p <? 0 then screenWidth s
    else if screenWidth s <? Vector2D.x p then 0
    else Vector2D.x p in
  let y :=
    if Vector2D.y p <? 0 then screenHeight s
    else if screenHeight s <? Vector2D.y p then 0
    else Vector2D.y p in
  set_position (Vector2D.mk x y) s.

(** [update(deltaTime)]. *)
Definition update (math : Math) (s : t) (deltaTime : float) : t :=
  let deltaSeconds := deltaTime / 1000 in
  let s :=
    if isThrusting s then
      let thrustVector :=
        Vector2D.fromAngle math (rotation s) (thrustPower s * deltaSeconds) in
      set_velocity (Vector2D.add (velocity s) thrustVector) s
    else s in
  let movement := Vector2D.multiply (Vector2D.clone (velocity s)) deltaSeconds in
  let s := set_position (Vector2D.add (position s) movement) s in
  let s := set_velocity (Vector2D.multiply (velocity s) (drag s)) s in
  let s := set_velocity (Vector2D.limit (velocity s) (maxVelocity s)) s in
  let s := wrapScreenEdges s in
  if isInvulnerable s then
    let timer := invulnerabilityTimer s - deltaTime in
    if timer <=? 0 then set_invulnerability false 0 s
    else set_invulnerability (isInvulnerable s) timer s
  else s.

End Ship.

End Binary64.
(** * Vocabulary of the statements *)

(** The bucket index of a score: [Math.floor(score / extraLifeThreshold)]. *)
Definition bucket (s : GameState.t) (score : R) : Z :=
  Js.floor
    (score /
     GameState.extraLifeThreshold
       (GameState.difficultySettings (GameState.difficulty s))).

(** The record both detection strategies push for a colliding pair. *)
Definition collisionRecord {Ref : Type} (a b : PhysicsEngine.Entity Ref)
  : PhysicsEngine.Collision Ref :=
  PhysicsEngine.mkCollision a b
    (PhysicsEngine.getCollisionPoint a b)
    (PhysicsEngine.getCollisionNormal a b).

(** The centre of an entity's bounds, and the squared distance between two
    centres. *)
Definition centre {Ref : Type} (a : PhysicsEngine.Entity Ref) : Vector2D.t :=
  Vector2D.mk (Bounds.x (PhysicsEngine.getBounds a))
              (Bounds.y (PhysicsEngine.getBounds a)).

Definition distanceSquared (p q : Vector2D.t) : R :=
  (Vector2D.x q - Vector2D.x p) * (Vector2D.x q - Vector2D.x p) +
  (Vector2D.y q - Vector2D.y p) * (Vector2D.y q - Vector2D.y p).

Definition radiusOf {Ref : Type} (a : PhysicsEngine.Entity Ref) : R :=
  Bounds.radius (PhysicsEngine.getBounds a).

(** [a] comes before [b] in the array. *)
Definition before {A : Type} (l : list A) (a b : A) : Prop :=
  exists l1 l2, l = l1 ++ a :: l2 /\ In b l2.

(** A ship of the default construction, thrusting, and moving faster than
    its speed limit. *)
Definition defaultShipOptions : Ship.options :=
  Ship.mkOptions Ship.absent Ship.absent None None None None None None None
    None None None.

Definition fastShip : Ship.t :=
  Ship.set_velocity (Vector2D.mk 400 0) (Ship.thrust (Ship.new defaultShipOptions)).

(** Two grid cells are the same or neighbours (one of the nine cells
    [getNearbyEntities] visits). *)
Definition adjacent (k1 k2 : Z * Z) : Prop :=
  (Z.abs (fst k2 - fst k1) <= 1)%Z /\ (Z.abs (snd k2 - snd k1) <= 1)%Z.

(** The invariant of the loops of [detectCollisionsSpatial] over the array
    [es], with [base] the engine after [populateSpatialGrid]: the grid is
    untouched; every record pushed so far is the record of a colliding pair
    of distinct objects, the second a candidate of the first; and every pair
    identifier in [checkedPairs] stands for a pair that was tested, whose
    record was pushed if it collides. *)
Definition spatialInvariant {Ref : Type} `{EqDecision Ref}
    (es : list (PhysicsEngine.Entity Ref)) (base : PhysicsEngine.t Ref)
    (st : gset (option nat * option nat)
          * (list (PhysicsEngine.Collision Ref) * PhysicsEngine.t Ref))
  : Prop :=
  PhysicsEngine.spatialGrid (snd (snd st)) = PhysicsEngine.spatialGrid base /\
  PhysicsEngine.gridCellSize (snd (snd st)) = PhysicsEngine.gridCellSize base /\
  (forall c, In c (fst (snd st)) ->
     exists a b, c = collisionRecord a b /\ In a es /\
       In b (PhysicsEngine.getNearbyEntities base a) /\
       PhysicsEngine.ref a <> PhysicsEngine.ref b /\
       PhysicsEngine.checkCircleCollision a b = true) /\
  (forall key, key ∈ fst st ->
     exists x y, In x es /\ In y es /\
       PhysicsEngine.ref x <> PhysicsEngine.ref y /\
       key = PhysicsEngine.pairId x y /\
       (PhysicsEngine.checkCircleCollision x y = true ->
        In (collisionRecord x y) (fst (snd st)))).

(** [a] and [b] are two distinct objects of the array whose circles
    overlap. *)
Definition collides {Ref : Type} (es : list (PhysicsEngine.Entity Ref))
    (a b : PhysicsEngine.Entity Ref) : Prop :=
  In a es /\ In b es /\
  PhysicsEngine.ref a <> PhysicsEngine.ref b /\
  PhysicsEngine.checkCircleCollision a b = true.


(** Two entities for the grid: a circle of radius 200 centred in cell
    (0, 0) and a circle of radius 10 centred two cells to the right. *)
Definition wideEntity : PhysicsEngine.Entity nat :=
  PhysicsEngine.mkEntity 0%nat (Some 1%nat) (Some true) (Some asteroidType)
    (Vector2D.mk 50 50) (Bounds.mk 50 50 200).

Definition farEntity : PhysicsEngine.Entity nat :=
  PhysicsEngine.mkEntity 1%nat (Some 2%nat) (Some true) (Some asteroidType)
    (Vector2D.mk 250 50) (Bounds.mk 250 50 10).

(** Two overlapping circles of game size in neighbouring cells. *)
Definition leftEntity : PhysicsEngine.Entity nat :=
  PhysicsEngine.mkEntity 0%nat (Some 1%nat) (Some true) (Some asteroidType)
    (Vector2D.mk 90 50) (Bounds.mk 90 50 40).

Definition rightEntity : PhysicsEngine.Entity nat :=
  PhysicsEngine.mkEntity 1%nat None None None (Vector2D.mk 110 50)
    (Bounds.mk 110 50 12).

(** A collision record between the ship and an entity tagged as an
    asteroid, in either order. *)
Definition shipMeetsAsteroid (c : Game.Collision) : Prop :=
  (PhysicsEngine.ref (PhysicsEngine.entityA c) = shipRef /\
   PhysicsEngine.type (PhysicsEngine.entityB c) = Some asteroidType) \/
  (PhysicsEngine.ref (PhysicsEngine.entityB c) = shipRef /\
   PhysicsEngine.ref (PhysicsEngine.entityA c) <> shipRef /\
   PhysicsEngine.type (PhysicsEngine.entityA c) = Some asteroidType).

(** A game in its playing phase on medium difficulty, with the default
    ship and an empty manager. *)
Definition sampleGame : Game.t :=
  Game.mk 800 600 (PhysicsEngine.new 800 600) InputManager.new
    (GameState.startNewGame GameState.new Difficulty.medium 0)
    (EntityManager.new 800 600)
    (Some (Ship.new defaultShipOptions))
    (css "#00FF88") Difficulty.medium.

(** The record of the ship touching an asteroid that sits in slot 0. *)
Definition sampleShipCollision : Game.Collision :=
  collisionRecord
    (Game.shipEntity (Ship.new defaultShipOptions))
    (PhysicsEngine.mkEntity (asteroidRef 0) (Some 1%nat) (Some true)
       (Some asteroidType) (Vector2D.mk 410 300) (Bounds.mk 410 300 40)).

(** A random source whose every draw is one half. *)
Definition halves : Js.RandomSource := Js.mkRandomSource (fun _ => 1 / 2) 0.

(** Two shots: the first fired from the top-left corner, the second from
    just right of the bottom-right corner, both moving right at 400 px/s. *)
Definition firstShot : EntityManager.projectileOptions :=
  EntityManager.mkProjectileOptions (Vector2D.mk 0 0) (Vector2D.mk 400 0)
    None None None None None None None None.

Definition secondShot : EntityManager.projectileOptions :=
  EntityManager.mkProjectileOptions (Vector2D.mk 810 600) (Vector2D.mk 400 0)
    None None None None None None None None.

(** The second shot fired from a recycled projectile: the first shot is
    fired, destroyed and collected into the pool, then the second shot is
    fired and the manager updated by one 16 ms frame. *)
Definition recycledShot : list Scenario.op :=
  [Scenario.createProjectile firstShot;
   Scenario.destroyProjectile 0;
   Scenario.cleanupInactiveEntities;
   Scenario.createProjectile secondShot;
   Scenario.update 16].

(** The second shot fired from a newly constructed projectile. *)
Definition freshShot : list Scenario.op :=
  [Scenario.createProjectile secondShot;
   Scenario.update 16].

(** The part of a manager that decides what happens to its projectiles. *)
Definition projectileView (m : EntityManager.t)
  : list Projectile.t * list Projectile.t * nat * R * R :=
  (EntityManager.projectiles m, EntityManager.projectilePool m,
   EntityManager.maxPoolSize m, EntityManager.screenWidth m,
   EntityManager.screenHeight m).

(** The per-element step of [update] on the projectiles. *)
Definition updateProjectile (deltaTime : R) (projectile : Projectile.t)
  : Projectile.t :=
  if Projectile.isActive projectile
  then Projectile.update projectile deltaTime else projectile.

(** What the constructor establishes for each size category, and no
    method changes: the radius range and the split count. *)
Definition sized (a : Asteroid.t) : Prop :=
  match Asteroid.size a with
  | Asteroid.large =>
      40 <= Asteroid.radius a < 50 /\
      (Asteroid.splitCount a = 2%Z \/ Asteroid.splitCount a = 3%Z)
  | Asteroid.medium =>
      25 <= Asteroid.radius a < 33 /\
      (Asteroid.splitCount a = 2%Z \/ Asteroid.splitCount a = 3%Z)
  | Asteroid.small =>
      12 <= Asteroid.radius a < 17 /\ Asteroid.splitCount a = 0%Z
  end.

(** The next-smaller size. *)
Definition nextSmaller (s : Asteroid.Size) : Asteroid.Size :=
  match s with
  | Asteroid.large => Asteroid.medium
  | _ => Asteroid.small
  end.

(** [f] is a fragment of the parent [a]: of the next-smaller size, with the
    properties of a constructed asteroid, its velocity a vector of some
    direction and of magnitude in [50, 150) plus 30% of the parent's
    velocity, and its position the parent's centre moved by 30% of the
    parent's radius along that direction. *)
Definition fragmentOf (a f : Asteroid.t) : Prop :=
  Asteroid.size f = nextSmaller (Asteroid.size a) /\
  sized f /\
  Asteroid.isActive f = true /\
  exists angle speed : R,
    50 <= speed < 150 /\
    Vector2D.magnitude (Vector2D.fromAngle angle speed) = speed /\
    Asteroid.velocity f
    = Vector2D.add (Vector2D.fromAngle angle speed)
        (Vector2D.multiply (Asteroid.velocity a) 0.3) /\
    Asteroid.position f
    = Vector2D.add (Asteroid.position a)
        (Vector2D.fromAngle angle (Asteroid.radius a * 0.3)) /\
    Vector2D.distanceTo (Asteroid.position a) (Asteroid.position f)
    = Asteroid.radius a * 0.3.

(** A small and a large asteroid, as the constructor can build them. *)
Definition smallAsteroid : Asteroid.t :=
  Asteroid.mk (Vector2D.mk 100 100) (Vector2D.mk 30 0) 1 0 Asteroid.small
    14 100 0 [] (css "#FFFFFF") true 800 600 (Some 1%nat).

Definition largeAsteroid : Asteroid.t :=
  Asteroid.mk (Vector2D.mk 100 100) (Vector2D.mk 30 0) 1 0 Asteroid.large
    45 20 2 [] (css "#FFFFFF") true 800 600 (Some 1%nat).

(** The [k]-th placement attempt of a [createRandom] call that starts
    reading the random source at draw [start]: two draws per attempt. *)
Definition attempt (g : Js.RandomSource) (screenWidth screenHeight : R)
    (start k : nat) : Vector2D.t :=
  Vector2D.mk (Js.draws g (start + 2 * k) * screenWidth)
              (Js.draws g (start + 2 * k + 1) * screenHeight).

(** Where [createRandom] may place an asteroid: at least [safeDistance]
    from the player, or, when 50 attempts in a row all fell closer than
    that, at the last of them. *)
Definition placement (g : Js.RandomSource) (screenWidth screenHeight : R)
    (playerPosition : Vector2D.t) (safeDistance : R) (p : Vector2D.t) : Prop :=
  safeDistance <= Vector2D.distanceTo p playerPosition \/
  exists start : nat,
    (forall k : nat, (k < 50)%nat ->
       Vector2D.distanceTo (attempt g screenWidth screenHeight start k)
         playerPosition < safeDistance) /\
    p = attempt g screenWidth screenHeight start 49.

(** A list of input actions that neither toggles the pause nor leaves for
    the menu. *)
Definition quiet (actions : list string) : Prop :=
  Forall (fun a => a <> "toggle-pause" /\ a <> "escape") actions.

(** A reference that names no asteroid. *)
Definition notAsteroidRef (h : Handle) : Prop :=
  match h with
  | asteroidRef _ => False
  | _ => True
  end.

(** The bookkeeping of a detection run: [actualCollisions] counts the
    records pushed, and no more collisions than checks are counted. *)
Definition tallied {Ref : Type}
    (st : list (PhysicsEngine.Collision Ref) * PhysicsEngine.t Ref) : Prop :=
  PhysicsEngine.actualCollisions (snd st) = length (fst st) /\
  (PhysicsEngine.actualCollisions (snd st)
   <= PhysicsEngine.collisionChecks (snd st))%nat.

(** The ids of the asteroids and projectiles a manager holds, the pooled
    projectiles included. *)
Definition entityIds (m : EntityManager.t) : list (option nat) :=
  map Asteroid.id (EntityManager.asteroids m)
  ++ map Projectile.id (EntityManager.projectiles m)
  ++ map Projectile.id (EntityManager.projectilePool m).

(** Every asteroid and projectile of the manager carries an id, below the
    counter [nextEntityId], and no two of them carry the same. *)
Definition wellNumbered (m : EntityManager.t) : Prop :=
  List.NoDup (entityIds m) /\
  Forall (fun i => exists n : nat,
            i = Some n /\ (n < EntityManager.nextEntityId m)%nat)
    (entityIds m).

(** The ids handed out between two values of the counter. *)
Definition freshIds (from to : nat) : list (option nat) :=
  map Some (seq from (to - from)).

(** From [m] to [m'] the counter did not go back, and the ids held
    afterwards are ids held before or ids handed out in between, each at
    most as often. *)
Definition renumbers (m m' : EntityManager.t) : Prop :=
  (EntityManager.nextEntityId m <= EntityManager.nextEntityId m')%nat /\
  entityIds m' ⊆+
    freshIds (EntityManager.nextEntityId m) (EntityManager.nextEntityId m')
    ++ entityIds m.

(** The sample game, paused. *)
Definition pausedGame : Game.t :=
  Game.set_gameState (snd (GameState.pause (Game.gameState sampleGame)))
    sampleGame.

(** The points [recordAsteroidDestroyed] awards for a size. *)
Definition pointsFor (size : Asteroid.Size) : R :=
  match size with
  | Asteroid.large => 20
  | Asteroid.medium => 50
  | Asteroid.small => 100
  end.

(** The sample game with one shot fired and one large asteroid, and the
    record of the two touching. *)
Definition firstProjectile : Projectile.t :=
  fst (EntityManager.createProjectile (EntityManager.new 800 600) firstShot).

Definition skirmish : Game.t :=
  Game.set_entityManager
    (EntityManager.set_asteroids [largeAsteroid]
       (snd (EntityManager.createProjectile (EntityManager.new 800 600)
               firstShot)))
    sampleGame.

(** The velocity [Ship.update] hands to [limit]: the velocity after the
    thrust of this step, if the ship is thrusting, and after the drag. *)
Definition draggedVelocity (s : Ship.t) (deltaTime : R) : Vector2D.t :=
  let thrusted :=
    if Ship.isThrusting s then
      Vector2D.add (Ship.velocity s)
        (Vector2D.fromAngle (Ship.rotation s)
           (Ship.thrustPower s * (deltaTime / 1000)))
    else Ship.velocity s in
  Vector2D.multiply thrusted (Ship.drag s).

(** The offset from the centre of [a] to the centre of [b]. *)
Definition offset {Ref : Type} (a b : PhysicsEngine.Entity Ref) : Vector2D.t :=
  Vector2D.subtract (centre b) (centre a).

(** A ship as the constructor builds it (thrust power 200, speed limit
    300, drag 0.98, an 800 by 600 screen), coasting at velocity (300, 71). *)
Definition coastingShip : Binary64.Ship.t :=
  Binary64.Ship.mk (Binary64.Vector2D.mk 400 300) (Binary64.Vector2D.mk 300 71)
    0 200 300 0.98 false false 0 800 600.



(** * Verified properties *)

(** ** Invalid-state calls *)

(** C9. Invalid-state calls are silent no-ops: [pause()] outside the
    playing phase or when already paused, and [resume()] when not paused,
    return [false] and leave the game state as it was;
    [destroyProjectile] on an inactive projectile leaves the projectile, the
    manager and the random source as they were; [Ship.createProjectile]
    before [fireRate] (250 ms on every constructed ship) has elapsed since
    the last shot returns [null] and leaves the ship as it was. *)
Theorem invalid_state_calls_are_noops :
  (forall s : GameState.t,
      GameState.gamePhase s <> GameState.playing \/ GameState.isPaused s = true ->
      GameState.pause s = (false, s)) /\
  (forall s : GameState.t,
      GameState.isPaused s = false -> GameState.resume s = (false, s)) /\
  (forall (m : EntityManager.t) (p : Projectile.t) (g : Js.RandomSource),
      Projectile.isActive p = false ->
      EntityManager.destroyProjectile m p g = (p, m, g)) /\
  (forall (s : Ship.t) (currentTime : R),
      currentTime - Ship.lastFireTime s < Ship.fireRate s ->
      Ship.createProjectile s currentTime = (None, s)) /\
  (forall o : Ship.options, Ship.fireRate (Ship.new o) = 250).
Proof.
  repeat split.
  - intros s [Hphase | Hpaused]; unfold GameState.pause.
    + rewrite bool_decide_eq_false_2 by assumption. reflexivity.
    + rewrite Hpaused, andb_false_r. reflexivity.
  - intros s Hpaused. unfold GameState.resume.
    rewrite Hpaused, andb_false_r. reflexivity.
  - intros m p g Hinactive. unfold EntityManager.destroyProjectile.
    rewrite Hinactive. reflexivity.
  - intros s currentTime Hcool.
    unfold Ship.createProjectile, Ship.canFire.
    destruct (Rge_dec _ _) as [Hge | _]; [lra | reflexivity].
Qed.

(** ** Scoring and extra lives *)

Lemma addScore_fields (s : GameState.t) (points : R) (source : string) :
  let s' := snd (GameState.addScore s points source) in
  GameState.score s' = GameState.score s + points /\
  GameState.level s' = GameState.level s /\
  GameState.difficulty s' = GameState.difficulty s /\
  GameState.gamePhase s' = GameState.gamePhase s /\
  GameState.lives s' =
    (if (bucket s (GameState.lastExtraLifeScore s)
         <? bucket s (GameState.score s + points))%Z
     then GameState.lives s + 1 else GameState.lives s)%Z.
Proof.
  unfold GameState.addScore, bucket; cbn.
  destruct (_ <? _)%Z; destruct (GameState.includesAsteroid source);
    cbn; repeat split.
Qed.

(** C4. For every call to [addScore] (with non-negative points, or any
    other): when the bucket of the new score exceeds the bucket of
    [lastExtraLifeScore] by one, exactly one life is granted; when it does
    not exceed it, no life is granted; and the call never decreases [lives]
    and never changes [level]. *)
Theorem addScore_extra_life :
  forall (s : GameState.t) (points : R) (source : string),
    let s' := snd (GameState.addScore s points source) in
    let new := bucket s (GameState.score s + points) in
    let last := bucket s (GameState.lastExtraLifeScore s) in
    GameState.score s' = GameState.score s + points /\
    (new = (last + 1)%Z -> GameState.lives s' = (GameState.lives s + 1)%Z) /\
    ((new <= last)%Z -> GameState.lives s' = GameState.lives s) /\
    (GameState.lives s <= GameState.lives s')%Z /\
    GameState.level s' = GameState.level s.
Proof.
  intros s points source s' new last.
  destruct (addScore_fields s points source) as (Hscore & Hlevel & _ & _ & Hlives).
  fold s' in Hscore, Hlevel, Hlives. fold new last in Hlives.
  repeat split; try assumption.
  - intros Hone. rewrite Hlives.
    destruct (Z.ltb_spec last new); [reflexivity | lia].
  - intros Hnone. rewrite Hlives.
    destruct (Z.ltb_spec last new); [lia | reflexivity].
  - rewrite Hlives. destruct (last <? new)%Z; lia.
Qed.

(** ** Vectors *)

Lemma sqrt_sq_nonneg (a : R) : 0 <= a -> sqrt (a * a) = a.
Proof. intros Ha. apply sqrt_square. exact Ha. Qed.

Lemma sum_squares_nonneg (a b : R) : 0 <= a * a + b * b.
Proof. nra. Qed.

Lemma magnitude_nonneg (v : Vector2D.t) : 0 <= Vector2D.magnitude v.
Proof. apply sqrt_pos. Qed.

Lemma magnitude_sq (v : Vector2D.t) :
  Vector2D.magnitude v * Vector2D.magnitude v = Vector2D.magnitudeSquared v.
Proof. apply sqrt_sqrt, sum_squares_nonneg. Qed.



(** [fromAngle] builds a vector of the given non-negative magnitude. *)
Lemma fromAngle_magnitude (angle magnitude : R) :
  0 <= magnitude ->
  Vector2D.magnitude (Vector2D.fromAngle angle magnitude) = magnitude.
Proof.
  intros Hm. unfold Vector2D.magnitude, Vector2D.fromAngle; cbn.
  replace (cos angle * magnitude * (cos angle * magnitude) +
           sin angle * magnitude * (sin angle * magnitude))
    with (magnitude * magnitude * ((sin angle)² + (cos angle)²))
    by (unfold Rsqr; ring).
  rewrite sin2_cos2, Rmult_1_r. apply sqrt_sq_nonneg, Hm.
Qed.

(** ** The ship's speed limit *)

(** A vector with a positive magnitude is normalised by dividing it by
    that magnitude. *)
Lemma normalize_divides (v : Vector2D.t) :
  0 < Vector2D.magnitude v ->
  Vector2D.normalize v
  = Vector2D.mk (Vector2D.x v / Vector2D.magnitude v)
                (Vector2D.y v / Vector2D.magnitude v).
Proof.
  intros Hpos. unfold Vector2D.normalize.
  destruct (Rgt_dec _ _) as [_ | Hn]; [| lra].
  unfold Vector2D.divide.
  destruct (Req_dec_T _ _) as [Hz | _]; [lra | reflexivity].
Qed.

(** No component of a vector is longer than the vector. *)
Lemma component_le_magnitude (v : Vector2D.t) :
  Rabs (Vector2D.x v) <= Vector2D.magnitude v /\
  Rabs (Vector2D.y v) <= Vector2D.magnitude v.
Proof.
  pose proof (magnitude_sq v) as Hsq.
  pose proof (magnitude_nonneg v) as Hnn.
  unfold Vector2D.magnitudeSquared in Hsq.
  split; apply Rabs_le; split; nra.
Qed.

(** The last write of [update] to the velocity is the call of [limit],
    on the velocity after thrust and drag. *)
Lemma ship_update_velocity (s : Ship.t) (deltaTime : R) :
  Ship.velocity (Ship.update s deltaTime)
  = Vector2D.limit (draggedVelocity s deltaTime) (Ship.maxVelocity s) /\
  Ship.maxVelocity (Ship.update s deltaTime) = Ship.maxVelocity s.
Proof.
  unfold Ship.update, draggedVelocity.
  destruct (Ship.isThrusting s); cbn;
    repeat match goal with
           | |- context [if ?c then _ else _] => destruct c; cbn
           end;
    split; reflexivity.
Qed.

(** C10. After every [Ship.update(dt)], whatever the thrust flag, the
    elapsed time and the velocity before the call, the velocity is the
    velocity after thrust and drag passed through [limit(maxVelocity)].
    When its squared magnitude does not exceed [maxVelocity * maxVelocity]
    it is kept, and its magnitude is then at most [maxVelocity].  Otherwise
    it is divided by its magnitude and multiplied by [maxVelocity]; the
    length of that product is [maxVelocity] only as far as the division and
    the multiplication are exact.  In both cases neither component of the
    velocity exceeds [maxVelocity] in absolute value. *)
Theorem ship_update_speed_limit :
  forall (s : Ship.t) (deltaTime : R),
    let v := draggedVelocity s deltaTime in
    let max := Ship.maxVelocity s in
    let v' := Ship.velocity (Ship.update s deltaTime) in
    Ship.maxVelocity (Ship.update s deltaTime) = max /\
    (Vector2D.magnitudeSquared v <= max * max ->
     v' = v /\
     Vector2D.magnitudeSquared v' <= max * max /\
     (0 <= max -> Vector2D.magnitude v' <= max)) /\
    (Vector2D.magnitudeSquared v > max * max ->
     v' = Vector2D.multiply
            (Vector2D.mk (Vector2D.x v / Vector2D.magnitude v)
                         (Vector2D.y v / Vector2D.magnitude v)) max) /\
    Rabs (Vector2D.x v') <= Rabs max /\
    Rabs (Vector2D.y v') <= Rabs max.
Proof.
  intros s deltaTime v max v'.
  destruct (ship_update_velocity s deltaTime) as [Hv' Hmax].
  fold v max v' in Hv'. fold max in Hmax.
  pose proof (magnitude_sq v) as Hsq.
  pose proof (magnitude_nonneg v) as Hnn.
  destruct (component_le_magnitude v) as [Hx Hy].
  assert (Hunder : Vector2D.magnitudeSquared v <= max * max -> v' = v).
  { intros Hle. rewrite Hv'. unfold Vector2D.limit.
    destruct (Rgt_dec _ _); [lra | reflexivity]. }
  assert (Hover : Vector2D.magnitudeSquared v > max * max ->
                  0 < Vector2D.magnitude v /\
                  v' = Vector2D.multiply
                         (Vector2D.mk (Vector2D.x v / Vector2D.magnitude v)
                                      (Vector2D.y v / Vector2D.magnitude v)) max).
  { intros Hgt.
    assert (Hpos : 0 < Vector2D.magnitude v) by nra.
    split; [exact Hpos |].
    rewrite Hv'. unfold Vector2D.limit.
    destruct (Rgt_dec _ _); [| lra].
    rewrite (normalize_divides v Hpos). reflexivity. }
  assert (Hmagmax : Vector2D.magnitudeSquared v <= max * max ->
                    Vector2D.magnitude v <= Rabs max).
  { intros Hle. rewrite <- (Rabs_pos_eq _ Hnn).
    apply Rsqr_le_abs_0. unfold Rsqr. lra. }
  split; [exact Hmax |]. split; [| split].
  - intros Hle. rewrite (Hunder Hle).
    split; [reflexivity |]. split; [exact Hle |].
    intros Hpos. rewrite <- (Rabs_pos_eq max Hpos). apply Hmagmax, Hle.
  - intros Hgt. apply Hover, Hgt.
  - destruct (Rle_dec (Vector2D.magnitudeSquared v) (max * max)) as [Hle | Hgt].
    + rewrite (Hunder Hle). specialize (Hmagmax Hle). lra.
    + destruct Hover as [Hpos ->]; [lra |].
      unfold Vector2D.multiply; cbn [Vector2D.x Vector2D.y].
      assert (Hscale : forall c : R,
                 Rabs c <= Vector2D.magnitude v ->
                 Rabs (c / Vector2D.magnitude v * max) <= Rabs max).
      { intros c Hc. rewrite Rabs_mult.
        rewrite <- (Rmult_1_l (Rabs max)) at 2.
        apply Rmult_le_compat_r; [apply Rabs_pos |].
        unfold Rdiv. rewrite Rabs_mult, (Rabs_pos_eq (/ _)).
        - apply (Rmult_le_reg_r (Vector2D.magnitude v)); [exact Hpos |].
          rewrite Rmult_assoc, Rinv_l, Rmult_1_r, Rmult_1_l by lra. exact Hc.
        - left. apply Rinv_0_lt_compat, Hpos. }
      split; apply Hscale; assumption.
Qed.

(** The same update on doubles: a ship built with the defaults and
    coasting at velocity (300, 71) leaves [update] with a velocity whose
    magnitude, as [magnitude()] computes it, is above its [maxVelocity] of
    300. *)
Lemma coasting_ship_exceeds_speed_limit :
  Binary64.Ship.maxVelocity (Binary64.Ship.update Binary64.noMath coastingShip 16)
  = 300%float /\
  PrimFloat.ltb 300
    (Binary64.Vector2D.magnitude
       (Binary64.Ship.velocity
          (Binary64.Ship.update Binary64.noMath coastingShip 16)))
  = true.
Proof. vm_compute. split; reflexivity. Qed.

(** ** Collision records *)

Section EngineFacts.

Context {Ref : Type} `{EqDecision Ref}.

Abbreviation Entity := (PhysicsEngine.Entity Ref).
Abbreviation Collision := (PhysicsEngine.Collision Ref).
Abbreviation Engine := (PhysicsEngine.t Ref).

Lemma checkCircleCollision_iff (a b : Entity) :
  PhysicsEngine.checkCircleCollision a b = true <->
  distanceSquared (centre a) (centre b)
    < (radiusOf a + radiusOf b) * (radiusOf a + radiusOf b).
Proof.
  unfold PhysicsEngine.checkCircleCollision, distanceSquared, centre, radiusOf.
  cbn. destruct (Rlt_dec _ _) as [Hlt | Hge]; split; intros Hc;
    try assumption; try reflexivity; try discriminate; contradiction.
Qed.

Lemma checkCircleCollision_sym (a b : Entity) :
  PhysicsEngine.checkCircleCollision a b =
  PhysicsEngine.checkCircleCollision b a.
Proof.
  destruct (PhysicsEngine.checkCircleCollision a b) eqn:Hab;
    destruct (PhysicsEngine.checkCircleCollision b a) eqn:Hba;
    try reflexivity.
  - apply checkCircleCollision_iff in Hab.
    assert (Hn : PhysicsEngine.checkCircleCollision b a <> true)
      by (rewrite Hba; discriminate).
    rewrite checkCircleCollision_iff in Hn.
    unfold distanceSquared in *; cbn in *. exfalso; apply Hn; nra.
  - apply checkCircleCollision_iff in Hba.
    assert (Hn : PhysicsEngine.checkCircleCollision a b <> true)
      by (rewrite Hab; discriminate).
    rewrite checkCircleCollision_iff in Hn.
    unfold distanceSquared in *; cbn in *. exfalso; apply Hn; nra.
Qed.

(** [testPair] pushes the record of the pair exactly when the circles
    overlap, and touches only the counters of the engine. *)
Lemma testPair_spec (a b : Entity) (cs : list Collision) (e : Engine) :
  exists e',
    PhysicsEngine.testPair a b (cs, e) =
      (if PhysicsEngine.checkCircleCollision a b
       then cs ++ [collisionRecord a b] else cs, e') /\
    PhysicsEngine.spatialGrid e' = PhysicsEngine.spatialGrid e /\
    PhysicsEngine.gridCellSize e' = PhysicsEngine.gridCellSize e.
Proof.
  unfold PhysicsEngine.testPair.
  destruct (PhysicsEngine.checkCircleCollision a b);
    eexists; repeat split.
Qed.

Lemma bruteForceInner_spec (a : Entity) (rest : list Entity)
    (st : list Collision * Engine) (c : Collision) :
  In c (fst (PhysicsEngine.bruteForceInner a rest st)) <->
  In c (fst st) \/
  exists b, In b rest /\ PhysicsEngine.checkCircleCollision a b = true /\
            c = collisionRecord a b.
Proof.
  unfold PhysicsEngine.bruteForceInner.
  revert st. induction rest as [| b rest IH]; intros [cs e];
    cbn -[PhysicsEngine.testPair].
  - split; [auto | intros [Hc | (b & [] & _)]; exact Hc].
  - destruct (testPair_spec a b cs e) as (e' & Heq & _).
    rewrite Heq, IH. cbn [fst In].
    destruct (PhysicsEngine.checkCircleCollision a b) eqn:Hab.
    + rewrite in_app_iff; cbn. split.
      * intros [[Hc | [<- | []]] | (b' & Hin & Hchk & ->)]; eauto 8.
      * intros [Hc | (b' & [<- | Hin] & Hchk & ->)]; eauto 8.
    + split.
      * intros [Hc | (b' & Hin & Hchk & ->)]; eauto 8.
      * intros [Hc | (b' & [<- | Hin] & Hchk & ->)];
          [auto | congruence | eauto 8].
Qed.

Lemma before_cons (a0 : Entity) (l : list Entity) (a b : Entity) :
  before (a0 :: l) a b <-> (a = a0 /\ In b l) \/ before l a b.
Proof.
  unfold before. split.
  - intros (l1 & l2 & Heq & Hin). destruct l1 as [| x l1]; cbn in Heq.
    + injection Heq as <- <-. auto.
    + injection Heq as <- ->. right. eauto.
  - intros [[-> Hin] | (l1 & l2 & -> & Hin)].
    + exists [], l. auto.
    + exists (a0 :: l1), l2. auto.
Qed.

Lemma bruteForceOuter_spec (es : list Entity)
    (st : list Collision * Engine) (c : Collision) :
  In c (fst (PhysicsEngine.bruteForceOuter es st)) <->
  In c (fst st) \/
  exists a b, before es a b /\
              PhysicsEngine.checkCircleCollision a b = true /\
              c = collisionRecord a b.
Proof.
  revert st. induction es as [| a0 es IH]; intros st; cbn.
  - split; [auto | intros [Hc | (a & b & (l1 & l2 & Heq & _) & _)]].
    + exact Hc.
    + destruct l1; discriminate.
  - rewrite IH, bruteForceInner_spec. split.
    + intros [[Hc | (b & Hin & Hchk & ->)] | (a & b & Hbef & Hchk & ->)].
      * auto.
      * right. exists a0, b. rewrite before_cons. auto.
      * right. exists a, b. rewrite before_cons. auto.
    + intros [Hc | (a & b & Hbef & Hchk & ->)]; [auto |].
      apply before_cons in Hbef. destruct Hbef as [[-> Hin] | Hbef]; eauto 8.
Qed.

(** Every record of the brute-force strategy is the record of a
    colliding pair of the array, the first of the two first. *)
Lemma detectCollisionsBruteForce_spec (e : Engine) (es : list Entity)
    (c : Collision) :
  In c (fst (PhysicsEngine.detectCollisionsBruteForce e es)) <->
  exists a b, before es a b /\
              PhysicsEngine.checkCircleCollision a b = true /\
              c = collisionRecord a b.
Proof.
  unfold PhysicsEngine.detectCollisionsBruteForce.
  rewrite bruteForceOuter_spec. cbn. split; [intros [[] | Hc] | ]; auto.
Qed.


(** *** The spatial grid *)

Lemma cellOf_ext (e e' : Engine) (x : Entity) :
  PhysicsEngine.gridCellSize e' = PhysicsEngine.gridCellSize e ->
  PhysicsEngine.cellOf e' x = PhysicsEngine.cellOf e x.
Proof. intros Hcs. unfold PhysicsEngine.cellOf. rewrite Hcs. reflexivity. Qed.

(** After [populateSpatialGrid], a cell holds what it held before followed
    by the entities of the array that fall in it, in array order. *)
Lemma populateSpatialGrid_spec (es : list Entity) (e : Engine) :
  PhysicsEngine.gridCellSize (PhysicsEngine.populateSpatialGrid e es)
    = PhysicsEngine.gridCellSize e /\
  forall key : Z * Z,
    default [] (PhysicsEngine.spatialGrid
                  (PhysicsEngine.populateSpatialGrid e es) !! key)
    = default [] (PhysicsEngine.spatialGrid e !! key)
      ++ List.filter (fun x => bool_decide (PhysicsEngine.cellOf e x = key)) es.
Proof.
  unfold PhysicsEngine.populateSpatialGrid.
  revert e. induction es as [| x es IH]; intros e.
  - cbn. split; [reflexivity | intros key; rewrite app_nil_r; reflexivity].
  - cbn [fold_left].
    match goal with
    | |- context [fold_left ?f es ?e1] => set (e1' := e1)
    end.
    assert (Hcs : PhysicsEngine.gridCellSize e1' = PhysicsEngine.gridCellSize e)
      by reflexivity.
    destruct (IH e1') as [IHcs IHgrid]. split; [congruence |].
    intros key. rewrite IHgrid.
    erewrite (filter_ext (fun x0 => bool_decide (PhysicsEngine.cellOf e1' x0 = key)))
      by (intros x0; rewrite (cellOf_ext e e1' x0 Hcs); reflexivity).
    cbn [List.filter].
    assert (Hstep :
      default [] (PhysicsEngine.spatialGrid e1' !! key)
      = default [] (PhysicsEngine.spatialGrid e !! key)
        ++ (if bool_decide (PhysicsEngine.cellOf e x = key) then [x] else [])).
    { subst e1'. cbn [PhysicsEngine.spatialGrid PhysicsEngine.set_spatialGrid].
      set (k := PhysicsEngine.cellOf e x).
      set (grid := PhysicsEngine.spatialGrid e).
      destruct (decide (k = key)) as [-> | Hne].
      - rewrite bool_decide_eq_true_2 by reflexivity.
        rewrite lookup_insert_eq. cbn [default].
        destruct (grid !! key) as [cell |] eqn:Hcell.
        + rewrite Hcell. reflexivity.
        + rewrite lookup_insert_eq. reflexivity.
      - rewrite bool_decide_eq_false_2 by exact Hne.
        rewrite lookup_insert_ne by exact Hne. rewrite app_nil_r.
        destruct (grid !! k) as [cell |] eqn:Hcell; [reflexivity |].
        rewrite lookup_insert_ne by exact Hne. reflexivity. }
    rewrite Hstep.
    destruct (bool_decide (PhysicsEngine.cellOf e x = key));
      rewrite <- app_assoc; reflexivity.
Qed.


Lemma getNearbyEntities_ext (e e' : Engine) (a : Entity) :
  PhysicsEngine.spatialGrid e' = PhysicsEngine.spatialGrid e ->
  PhysicsEngine.gridCellSize e' = PhysicsEngine.gridCellSize e ->
  PhysicsEngine.getNearbyEntities e' a = PhysicsEngine.getNearbyEntities e a.
Proof.
  intros Hgrid Hcs. unfold PhysicsEngine.getNearbyEntities.
  rewrite (cellOf_ext e e' a Hcs), Hgrid. reflexivity.
Qed.

Lemma getNearbyEntities_In (e : Engine) (a b : Entity) :
  In b (PhysicsEngine.getNearbyEntities e a) <->
  exists key, adjacent (PhysicsEngine.cellOf e a) key /\
              In b (default [] (PhysicsEngine.spatialGrid e !! key)).
Proof.
  unfold PhysicsEngine.getNearbyEntities, adjacent.
  destruct (PhysicsEngine.cellOf e a) as [gx gy]. cbn [fst snd].
  rewrite in_flat_map. split.
  - intros (dx & Hdx & Hin). rewrite in_flat_map in Hin.
    destruct Hin as (dy & Hdy & Hin).
    exists ((gx + dx)%Z, (gy + dy)%Z). cbn [fst snd]. split.
    + cbn in Hdx, Hdy. lia.
    + destruct (PhysicsEngine.spatialGrid e !! _); [exact Hin | destruct Hin].
  - intros ([kx ky] & [Hx Hy] & Hin). cbn [fst snd] in *.
    exists (kx - gx)%Z. split; [cbn; lia |].
    rewrite in_flat_map. exists (ky - gy)%Z. split; [cbn; lia |].
    replace (gx + (kx - gx))%Z with kx by lia.
    replace (gy + (ky - gy))%Z with ky by lia.
    destruct (PhysicsEngine.spatialGrid e !! _); [exact Hin | destruct Hin].
Qed.

(** The candidates of [a] in the freshly populated grid are the entities of
    the array whose cell is [a]'s or a neighbour of it. *)
Lemma nearby_populated (e : Engine) (es : list Entity) (a b : Entity) :
  let base := PhysicsEngine.populateSpatialGrid (PhysicsEngine.clearSpatialGrid e) es in
  In b (PhysicsEngine.getNearbyEntities base a) <->
  In b es /\ adjacent (PhysicsEngine.cellOf e a) (PhysicsEngine.cellOf e b).
Proof.
  intros base.
  destruct (populateSpatialGrid_spec es (PhysicsEngine.clearSpatialGrid e))
    as [Hcs Hgrid]. fold base in Hcs, Hgrid.
  assert (Hcs' : PhysicsEngine.gridCellSize base = PhysicsEngine.gridCellSize e)
    by (rewrite Hcs; reflexivity).
  rewrite getNearbyEntities_In, (cellOf_ext e base a Hcs').
  split.
  - intros (key & Hadj & Hin). rewrite Hgrid in Hin.
    cbn [PhysicsEngine.clearSpatialGrid PhysicsEngine.spatialGrid
         PhysicsEngine.set_spatialGrid] in Hin.
    rewrite lookup_empty in Hin. cbn [default app] in Hin.
    apply filter_In in Hin. destruct Hin as [Hin Hkey].
    apply bool_decide_eq_true_1 in Hkey.
    rewrite (cellOf_ext e _ b) in Hkey by reflexivity.
    subst key. auto.
  - intros [Hin Hadj]. exists (PhysicsEngine.cellOf e b). split; [exact Hadj |].
    rewrite Hgrid.
    cbn [PhysicsEngine.clearSpatialGrid PhysicsEngine.spatialGrid
         PhysicsEngine.set_spatialGrid].
    rewrite lookup_empty. cbn [default app].
    apply filter_In. split; [exact Hin |].
    apply bool_decide_eq_true_2, cellOf_ext. reflexivity.
Qed.

(** *** The loops of the spatial strategy *)

Lemma spatialStep_invariant (es : list Entity) (base : Engine) (a b : Entity)
    (st : gset (option nat * option nat) * (list Collision * Engine)) :
  spatialInvariant es base st ->
  In a es -> In b es -> In b (PhysicsEngine.getNearbyEntities base a) ->
  let st' := PhysicsEngine.spatialStep a b st in
  spatialInvariant es base st' /\
  fst st ⊆ fst st' /\
  (PhysicsEngine.ref a <> PhysicsEngine.ref b ->
   PhysicsEngine.pairId a b ∈ fst st').
Proof.
  destruct st as [ck [cs e]].
  intros (Hgrid & Hcs & Hrec & Hkey) Ha Hb Hnear.
  unfold PhysicsEngine.spatialStep.
  destruct (decide (PhysicsEngine.ref a = PhysicsEngine.ref b)) as [Heq | Hne].
  { cbn zeta. split; [| split]; [repeat split; assumption | set_solver | ].
    intros Hc; contradiction. }
  destruct (decide (PhysicsEngine.pairId a b ∈ ck)) as [Hseen | Hnew].
  { cbn zeta. split; [| split]; [repeat split; assumption | set_solver | ].
    intros _; exact Hseen. }
  destruct (testPair_spec a b cs e) as (e' & Htest & Hgrid' & Hcs').
  rewrite Htest. cbn zeta. cbn [fst snd] in *.
  split; [| split; [set_solver | intros _; set_solver]].
  unfold spatialInvariant; cbn [fst snd].
  split; [congruence | split; [congruence | split]].
  - intros c Hc.
    destruct (PhysicsEngine.checkCircleCollision a b) eqn:Hchk.
    + apply in_app_iff in Hc. destruct Hc as [Hc | [<- | []]].
      * exact (Hrec c Hc).
      * exists a, b. auto.
    + exact (Hrec c Hc).
  - intros key Hin.
    apply elem_of_union in Hin. destruct Hin as [Hin | Hin].
    + apply elem_of_singleton in Hin. subst key.
      exists a, b. repeat split; try assumption.
      intros Hchk. rewrite Hchk. apply in_app_iff. right. left. reflexivity.
    + destruct (Hkey key Hin) as (x & y & Hx & Hy & Hxy & -> & Hpushed).
      exists x, y. repeat split; try assumption.
      intros Hchk. specialize (Hpushed Hchk).
      destruct (PhysicsEngine.checkCircleCollision a b);
        [apply in_app_iff; left |]; exact Hpushed.
Qed.

Lemma spatialInner_invariant (es : list Entity) (base : Engine) (a : Entity)
    (candidates : list Entity)
    (st : gset (option nat * option nat) * (list Collision * Engine)) :
  spatialInvariant es base st ->
  In a es ->
  (forall b, In b candidates ->
     In b es /\ In b (PhysicsEngine.getNearbyEntities base a)) ->
  let st' :=
    fold_left (fun st candidate => PhysicsEngine.spatialStep a candidate st)
      candidates st in
  spatialInvariant es base st' /\
  fst st ⊆ fst st' /\
  (forall b, In b candidates ->
     PhysicsEngine.ref a <> PhysicsEngine.ref b ->
     PhysicsEngine.pairId a b ∈ fst st').
Proof.
  revert st. induction candidates as [| b0 candidates IH]; intros st Hinv Ha Hcand.
  - cbn. split; [exact Hinv | split; [set_solver | intros b []]].
  - cbn [fold_left].
    destruct (Hcand b0 (or_introl eq_refl)) as [Hb0 Hnear0].
    destruct (spatialStep_invariant es base a b0 st Hinv Ha Hb0 Hnear0)
      as (Hinv1 & Hsub1 & Hkey1).
    destruct (IH (PhysicsEngine.spatialStep a b0 st) Hinv1 Ha
                (fun b Hb => Hcand b (or_intror Hb)))
      as (Hinv2 & Hsub2 & Hkey2).
    cbn zeta in *. split; [exact Hinv2 | split; [set_solver |]].
    intros b [<- | Hb] Hne; [apply Hsub2, Hkey1, Hne | apply Hkey2; assumption].
Qed.

Lemma spatialLoop_invariant (es : list Entity) (base : Engine)
    (l : list Entity)
    (st : gset (option nat * option nat) * (list Collision * Engine)) :
  spatialInvariant es base st ->
  (forall a, In a l -> In a es) ->
  (forall a b, In b (PhysicsEngine.getNearbyEntities base a) -> In b es) ->
  let st' := PhysicsEngine.spatialLoop l st in
  spatialInvariant es base st' /\
  fst st ⊆ fst st' /\
  (forall a b, In a l -> In b (PhysicsEngine.getNearbyEntities base a) ->
     PhysicsEngine.ref a <> PhysicsEngine.ref b ->
     PhysicsEngine.pairId a b ∈ fst st').
Proof.
  unfold PhysicsEngine.spatialLoop.
  revert st. induction l as [| a0 l IH]; intros st Hinv Hl Hnear.
  - cbn. split; [exact Hinv | split; [set_solver | intros a b []]].
  - cbn [fold_left].
    assert (Hbase : PhysicsEngine.getNearbyEntities (snd (snd st)) a0
                    = PhysicsEngine.getNearbyEntities base a0).
    { destruct Hinv as (Hgrid & Hcs & _). apply getNearbyEntities_ext; assumption. }
    rewrite Hbase.
    destruct (spatialInner_invariant es base a0
                (PhysicsEngine.getNearbyEntities base a0) st Hinv
                (Hl a0 (or_introl eq_refl))
                (fun b Hb => conj (Hnear a0 b Hb) Hb))
      as (Hinv1 & Hsub1 & Hkey1).
    cbn zeta in Hinv1, Hsub1, Hkey1.
    match goal with
    | |- context [fold_left _ l ?s1] =>
        destruct (IH s1 Hinv1 (fun a Ha => Hl a (or_intror Ha)) Hnear)
          as (Hinv2 & Hsub2 & Hkey2)
    end.
    cbn zeta in *. split; [exact Hinv2 | split; [set_solver |]].
    intros a b [<- | Ha] Hb Hne; [apply Hsub2, Hkey1; assumption |].
    apply Hkey2; assumption.
Qed.


(** Every record of the spatial strategy is the record of a colliding pair
    of distinct objects of the array in the same or neighbouring cells. *)
Lemma detectCollisionsSpatial_sound (e : Engine) (es : list Entity)
    (c : Collision) :
  In c (fst (PhysicsEngine.detectCollisionsSpatial e es)) ->
  exists a b, c = collisionRecord a b /\ collides es a b /\
              adjacent (PhysicsEngine.cellOf e a) (PhysicsEngine.cellOf e b).
Proof.
  unfold PhysicsEngine.detectCollisionsSpatial.
  set (base := PhysicsEngine.populateSpatialGrid
                 (PhysicsEngine.clearSpatialGrid e) es).
  assert (Hinit : spatialInvariant es base (∅, ([], base))).
  { repeat split; cbn; intros; [contradiction | set_solver]. }
  destruct (spatialLoop_invariant es base es _ Hinit (fun a Ha => Ha)
              (fun a b Hb => proj1 (proj1 (nearby_populated e es a b) Hb)))
    as ((_ & _ & Hrec & _) & _ & _).
  cbn zeta in Hrec. intros Hc.
  destruct (Hrec c Hc) as (a & b & -> & Ha & Hnear & Hne & Hchk).
  apply nearby_populated in Hnear. destruct Hnear as [Hb Hadj].
  exists a, b. unfold collides. auto 8.
Qed.

Lemma pairId_inj (x y a b : Entity) :
  PhysicsEngine.pairId x y = PhysicsEngine.pairId a b ->
  (PhysicsEngine.id x = PhysicsEngine.id a /\
   PhysicsEngine.id y = PhysicsEngine.id b) \/
  (PhysicsEngine.id x = PhysicsEngine.id b /\
   PhysicsEngine.id y = PhysicsEngine.id a).
Proof.
  unfold PhysicsEngine.pairId.
  destruct (PhysicsEngine.idLess _ _); destruct (PhysicsEngine.idLess _ _);
    intros Heq; injection Heq as H1 H2; auto.
Qed.

Lemma NoDup_map_injective {A B : Type} (f : A -> B) (l : list A) (x y : A) :
  List.NoDup (map f l) -> In x l -> In y l -> f x = f y -> x = y.
Proof.
  induction l as [| z l IH]; cbn; intros Hnd Hx Hy Hf; [contradiction |].
  apply NoDup_cons_iff in Hnd. destruct Hnd as [Hz Hnd].
  destruct Hx as [-> | Hx]; destruct Hy as [-> | Hy].
  - reflexivity.
  - exfalso. apply Hz. rewrite Hf. apply in_map, Hy.
  - exfalso. apply Hz. rewrite <- Hf. apply in_map, Hx.
  - apply IH; assumption.
Qed.

(** When the ids of the array are pairwise distinct, the spatial strategy
    reports every colliding pair whose cells are the same or neighbours. *)
Lemma detectCollisionsSpatial_complete (e : Engine) (es : list Entity)
    (a b : Entity) :
  List.NoDup (map PhysicsEngine.id es) ->
  collides es a b ->
  adjacent (PhysicsEngine.cellOf e a) (PhysicsEngine.cellOf e b) ->
  PhysicsEngine.reports (fst (PhysicsEngine.detectCollisionsSpatial e es)) a b.
Proof.
  intros Hids (Ha & Hb & Hne & Hchk) Hadj.
  unfold PhysicsEngine.detectCollisionsSpatial.
  set (base := PhysicsEngine.populateSpatialGrid
                 (PhysicsEngine.clearSpatialGrid e) es).
  assert (Hinit : spatialInvariant es base (∅, ([], base))).
  { repeat split; cbn; intros; [contradiction | set_solver]. }
  destruct (spatialLoop_invariant es base es _ Hinit (fun a Ha => Ha)
              (fun a b Hb => proj1 (proj1 (nearby_populated e es a b) Hb)))
    as ((_ & _ & _ & Hkeys) & _ & Hall).
  cbn zeta in Hkeys, Hall.
  assert (Hnear : In b (PhysicsEngine.getNearbyEntities base a))
    by (apply nearby_populated; auto).
  destruct (Hkeys _ (Hall a b Ha Hnear Hne))
    as (x & y & Hx & Hy & Hxy & Hkey & Hpushed).
  symmetry in Hkey. apply pairId_inj in Hkey.
  destruct Hkey as [[Hi1 Hi2] | [Hi1 Hi2]].
  - apply (NoDup_map_injective _ es x a Hids Hx Ha) in Hi1.
    apply (NoDup_map_injective _ es y b Hids Hy Hb) in Hi2. subst x y.
    exists (collisionRecord a b). split; [exact (Hpushed Hchk) |]. left. auto.
  - apply (NoDup_map_injective _ es x b Hids Hx Hb) in Hi1.
    apply (NoDup_map_injective _ es y a Hids Hy Ha) in Hi2. subst x y.
    rewrite checkCircleCollision_sym in Hchk.
    exists (collisionRecord b a). split; [exact (Hpushed Hchk) |]. right. auto.
Qed.

Lemma before_distinct {B : Type} (f : Entity -> B) (es : list Entity)
    (a b : Entity) :
  List.NoDup (map f es) -> before es a b -> f a <> f b.
Proof.
  intros Hnd (l1 & l2 & -> & Hb) Heq.
  rewrite map_app in Hnd. apply NoDup_remove_2 in Hnd.
  apply Hnd, in_or_app. right. rewrite Heq. apply in_map, Hb.
Qed.

Lemma before_In (es : list Entity) (a b : Entity) :
  before es a b -> In a es /\ In b es.
Proof.
  intros (l1 & l2 & -> & Hb). split; apply in_or_app; right; cbn; auto.
Qed.

Lemma In_before (es : list Entity) (a b : Entity) :
  In a es -> In b es -> a <> b -> before es a b \/ before es b a.
Proof.
  induction es as [| x es IH]; cbn; intros Ha Hb Hne; [contradiction |].
  rewrite !before_cons.
  destruct Ha as [-> | Ha]; destruct Hb as [-> | Hb]; auto.
  - contradiction.
  - destruct (IH Ha Hb Hne); auto.
Qed.

(** The brute-force strategy reports exactly the colliding pairs. *)
Lemma detectCollisionsBruteForce_reports (e : Engine) (es : list Entity)
    (a b : Entity) :
  List.NoDup (map PhysicsEngine.ref es) ->
  PhysicsEngine.reports (fst (PhysicsEngine.detectCollisionsBruteForce e es)) a b
  <-> collides es a b.
Proof.
  intros Hrefs. unfold PhysicsEngine.reports, collides. split.
  - intros (c & Hc & Hab). apply detectCollisionsBruteForce_spec in Hc.
    destruct Hc as (x & y & Hbef & Hchk & ->). cbn in Hab.
    pose proof (before_distinct _ es x y Hrefs Hbef) as Hne.
    destruct (before_In es x y Hbef) as [Hx Hy].
    destruct Hab as [[<- <-] | [<- <-]]; repeat split; auto.
    rewrite checkCircleCollision_sym. exact Hchk.
  - intros (Ha & Hb & Hne & Hchk).
    assert (Hab : a <> b) by (intros ->; apply Hne; reflexivity).
    destruct (In_before es a b Ha Hb Hab) as [Hbef | Hbef].
    + exists (collisionRecord a b). split; [| left; auto].
      apply detectCollisionsBruteForce_spec. eauto.
    + exists (collisionRecord b a). split; [| right; auto].
      apply detectCollisionsBruteForce_spec. exists b, a.
      rewrite checkCircleCollision_sym. auto.
Qed.

Lemma Zfloor_close (u v : R) :
  Rabs (u - v) < 1 -> (Z.abs (Zfloor u - Zfloor v) <= 1)%Z.
Proof.
  intros Hclose.
  pose proof (Zfloor_bound u) as Hu. pose proof (Zfloor_bound v) as Hv.
  apply Rabs_def2 in Hclose.
  apply Z.abs_le. split.
  - apply Znot_gt_le. intros Hgt.
    assert (IZR (Zfloor u) + 2 <= IZR (Zfloor v))
      by (rewrite <- plus_IZR; apply IZR_le; lia).
    lra.
  - apply Znot_gt_le. intros Hgt.
    assert (IZR (Zfloor v) + 2 <= IZR (Zfloor u))
      by (rewrite <- plus_IZR; apply IZR_le; lia).
    lra.
Qed.

(** With cells of 100 units, two overlapping circles of radius at most 50
    have their centres in the same or in neighbouring cells. *)
Lemma colliding_cells_adjacent (e : Engine) (a b : Entity) :
  PhysicsEngine.gridCellSize e = 100 ->
  0 <= radiusOf a <= 50 -> 0 <= radiusOf b <= 50 ->
  PhysicsEngine.checkCircleCollision a b = true ->
  adjacent (PhysicsEngine.cellOf e a) (PhysicsEngine.cellOf e b).
Proof.
  intros Hcs Hra Hrb Hchk. apply checkCircleCollision_iff in Hchk.
  unfold distanceSquared, centre, radiusOf in *. cbn in Hchk.
  unfold adjacent, PhysicsEngine.cellOf, Js.floor. rewrite Hcs. cbn [fst snd].
  set (xa := Bounds.x (PhysicsEngine.getBounds a)) in *.
  set (ya := Bounds.y (PhysicsEngine.getBounds a)) in *.
  set (xb := Bounds.x (PhysicsEngine.getBounds b)) in *.
  set (yb := Bounds.y (PhysicsEngine.getBounds b)) in *.
  set (ra := Bounds.radius (PhysicsEngine.getBounds a)) in *.
  set (rb := Bounds.radius (PhysicsEngine.getBounds b)) in *.
  clearbody xa ya xb yb ra rb.
  destruct Hra as [Hra0 Hra50]. destruct Hrb as [Hrb0 Hrb50].
  assert (Hsum : (ra + rb) * (ra + rb) <= 100 * 100).
  { assert (H0 : 0 <= ra + rb) by lra. assert (H1 : ra + rb <= 100) by lra.
    nra. }
  assert (Hdx : (xb - xa) * (xb - xa) < 100 * 100)
    by (pose proof (Rle_0_sqr (yb - ya)) as Hsq; unfold Rsqr in Hsq; lra).
  assert (Hdy : (yb - ya) * (yb - ya) < 100 * 100)
    by (pose proof (Rle_0_sqr (xb - xa)) as Hsq; unfold Rsqr in Hsq; lra).
  assert (Hx : -100 < xb - xa < 100) by (split; nra).
  assert (Hy : -100 < yb - ya < 100) by (split; nra).
  split; apply Zfloor_close, Rabs_def1; lra.
Qed.

End EngineFacts.

(** ** The collision test and its records *)

Lemma detectCollisions_records {Ref : Type} `{EqDecision Ref}
    (e : PhysicsEngine.t Ref) (entities : list (PhysicsEngine.Entity Ref))
    (c : PhysicsEngine.Collision Ref) :
  In c (fst (PhysicsEngine.detectCollisions e entities)) ->
  exists a b, c = collisionRecord a b /\
    In a (List.filter PhysicsEngine.notInactive entities) /\
    In b (List.filter PhysicsEngine.notInactive entities) /\
    PhysicsEngine.checkCircleCollision a b = true.
Proof.
  unfold PhysicsEngine.detectCollisions.
  destruct (_ && _).
  - intros Hc. apply detectCollisionsSpatial_sound in Hc.
    destruct Hc as (a & b & -> & (Ha & Hb & _ & Hchk) & _). eauto 8.
  - intros Hc. apply detectCollisionsBruteForce_spec in Hc.
    destruct Hc as (a & b & Hbef & Hchk & ->).
    destruct (before_In _ a b Hbef) as [Ha Hb]. eauto 8.
Qed.





(** ** The two detection strategies *)

(** C1, as the code has it. When the active entities are distinct objects
    with pairwise distinct ids (so at most one has none) and radii between 0
    and 50, half the 100-unit cell, the brute-force and the spatial-grid
    strategy report the same unordered colliding pairs of the active
    entities, and [detectCollisions] reports these same pairs whichever
    strategy its count test selects. *)
Theorem detection_strategies_agree :
  forall (Ref : Type) (dec : EqDecision Ref) (e : PhysicsEngine.t Ref)
         (entities : list (PhysicsEngine.Entity Ref)),
    let active := List.filter PhysicsEngine.notInactive entities in
    PhysicsEngine.gridCellSize e = 100 ->
    List.NoDup (map PhysicsEngine.ref active) ->
    List.NoDup (map PhysicsEngine.id active) ->
    (forall x, In x active -> 0 <= radiusOf x <= 50) ->
    forall a b : PhysicsEngine.Entity Ref,
      (PhysicsEngine.reports
         (fst (PhysicsEngine.detectCollisionsBruteForce e active)) a b <->
       collides active a b) /\
      (PhysicsEngine.reports
         (fst (PhysicsEngine.detectCollisionsSpatial e active)) a b <->
       collides active a b) /\
      (PhysicsEngine.reports
         (fst (PhysicsEngine.detectCollisions e entities)) a b <->
       collides active a b).
Proof.
  intros Ref dec e entities active Hcs Hrefs Hids Hradii a b.
  assert (Hspatial : forall e' : PhysicsEngine.t Ref,
             PhysicsEngine.gridCellSize e' = 100 ->
             PhysicsEngine.reports
               (fst (PhysicsEngine.detectCollisionsSpatial e' active)) a b <->
             collides active a b).
  { intros e' Hcs'. split.
    - intros (c & Hc & Hab). apply detectCollisionsSpatial_sound in Hc.
      destruct Hc as (x & y & -> & (Hx & Hy & Hne & Hchk) & _). cbn in Hab.
      destruct Hab as [[<- <-] | [<- <-]]; repeat split; auto.
      rewrite checkCircleCollision_sym. exact Hchk.
    - intros Hcol. apply detectCollisionsSpatial_complete; try assumption.
      destruct Hcol as (Ha & Hb & _ & Hchk).
      apply colliding_cells_adjacent; auto. }
  split; [apply detectCollisionsBruteForce_reports; exact Hrefs |].
  split; [apply Hspatial; exact Hcs |].
  unfold PhysicsEngine.detectCollisions. fold active.
  destruct (_ && _).
  - apply Hspatial. exact Hcs.
  - apply detectCollisionsBruteForce_reports. exact Hrefs.
Qed.

Lemma Zfloor_of (z : Z) (x : R) : IZR z <= x < IZR z + 1 -> Js.floor x = z.
Proof. apply Zfloor_eq. Qed.

(** C1, as stated, fails: a circle of radius 200 centred at (50, 50) and a
    circle of radius 10 centred at (250, 50) overlap, the brute-force
    strategy reports the pair, and the spatial-grid strategy does not, the
    two centres lying two cells apart. *)
Lemma grid_misses_wide_entity :
  let e := PhysicsEngine.new 800 600 in
  PhysicsEngine.reports
    (fst (PhysicsEngine.detectCollisionsBruteForce e [wideEntity; farEntity]))
    wideEntity farEntity /\
  ~ PhysicsEngine.reports
      (fst (PhysicsEngine.detectCollisionsSpatial e [wideEntity; farEntity]))
      wideEntity farEntity.
Proof.
  intros e.
  assert (Hwide : PhysicsEngine.cellOf e wideEntity = (0%Z, 0%Z)).
  { unfold PhysicsEngine.cellOf; cbn. f_equal; apply Zfloor_of; lra. }
  assert (Hfar : PhysicsEngine.cellOf e farEntity = (2%Z, 0%Z)).
  { unfold PhysicsEngine.cellOf; cbn. f_equal; apply Zfloor_of; lra. }
  split.
  - apply detectCollisionsBruteForce_reports.
    + cbn. repeat constructor; cbn; intuition discriminate.
    + repeat split; cbn; auto; try discriminate.
      apply checkCircleCollision_iff.
      unfold distanceSquared, centre, radiusOf; cbn. lra.
  - intros (c & Hc & Hab). apply detectCollisionsSpatial_sound in Hc.
    destruct Hc as (x & y & -> & _ & Hadj). cbn in Hab.
    destruct Hab as [[-> ->] | [-> ->]];
      rewrite Hwide, Hfar in Hadj; destruct Hadj as [Hx _]; cbn in Hx; lia.
Qed.

Lemma detection_strategies_agree_witness :
  let e := PhysicsEngine.new 800 600 in
  let entities := [leftEntity; rightEntity] in
  PhysicsEngine.reports
    (fst (PhysicsEngine.detectCollisionsSpatial e entities))
    leftEntity rightEntity <->
  collides entities leftEntity rightEntity.
Proof.
  intros e entities.
  assert (Hcs : PhysicsEngine.gridCellSize e = 100) by reflexivity.
  assert (Hrefs : List.NoDup
            (map PhysicsEngine.ref (List.filter PhysicsEngine.notInactive entities))).
  { cbn. repeat constructor; cbn; intuition discriminate. }
  assert (Hids : List.NoDup
            (map PhysicsEngine.id (List.filter PhysicsEngine.notInactive entities))).
  { cbn. repeat constructor; cbn; intuition discriminate. }
  assert (Hradii : forall x,
            In x (List.filter PhysicsEngine.notInactive entities) ->
            0 <= radiusOf x <= 50).
  { cbn. intros x [<- | [<- | []]]; unfold radiusOf; cbn; lra. }
  exact (proj1 (proj2 (detection_strategies_agree nat _ e entities
                         Hcs Hrefs Hids Hradii leftEntity rightEntity))).
Defined.

(** ** Ship against asteroid *)

Lemma isShip_some (gm : Game.t) (s : Ship.t) (x : Game.Entity) :
  Game.ship gm = Some s ->
  Game.isShip gm x = bool_decide (PhysicsEngine.ref x = shipRef).
Proof. intros Hs. unfold Game.isShip. rewrite Hs. reflexivity. Qed.

(** A ship-asteroid record is handled by the ship branch with an entity
    tagged as an asteroid. *)
Lemma handleCollision_ship (gm : Game.t) (s : Ship.t) (c : Game.Collision)
    (now : R) (g : Js.RandomSource) :
  Game.ship gm = Some s ->
  shipMeetsAsteroid c ->
  exists asteroid : Game.Entity,
    PhysicsEngine.type asteroid = Some asteroidType /\
    Game.handleCollision gm c now g = Game.shipHitsAsteroid gm asteroid now g.
Proof.
  intros Hs Hmeet. unfold Game.handleCollision.
  rewrite !(isShip_some gm s) by exact Hs. unfold Game.hasType.
  destruct Hmeet as [[HA HB] | (HB & HnA & HA)].
  - rewrite (bool_decide_eq_true_2 _ HA), (bool_decide_eq_true_2 _ HB).
    cbn. eauto.
  - rewrite (bool_decide_eq_true_2 _ HB), (bool_decide_eq_true_2 _ HA).
    rewrite (bool_decide_eq_false_2 _ HnA). cbn. eauto.
Qed.

(** C8. Handling a ship-asteroid collision while the ship is not
    invulnerable decrements [lives] by exactly one and respawns the ship at
    the centre of its screen, with zero velocity, facing up, invulnerable
    for 2000 ms (the duration every ship is constructed with); handling one
    while the ship is invulnerable is ignored: it leaves the whole game, so
    [lives] and the ship's position and velocity, as it was. *)
Theorem ship_asteroid_collision :
  forall (gm : Game.t) (s : Ship.t) (c : Game.Collision) (now : R)
         (g : Js.RandomSource),
    Game.ship gm = Some s ->
    Ship.invulnerabilityDuration s = 2000 ->
    shipMeetsAsteroid c ->
    let gm' := fst (Game.handleCollision gm c now g) in
    (Ship.isInvulnerable s = false ->
       GameState.lives (Game.gameState gm')
         = (GameState.lives (Game.gameState gm) - 1)%Z /\
       exists s', Game.ship gm' = Some s' /\
         Ship.position s'
           = Vector2D.mk (Ship.screenWidth s / 2) (Ship.screenHeight s / 2) /\
         Ship.velocity s' = Vector2D.mk 0 0 /\
         Ship.rotation s' = - PI / 2 /\
         Ship.isInvulnerable s' = true /\
         Ship.invulnerabilityTimer s' = 2000) /\
    (Ship.isInvulnerable s = true ->
       Game.handleCollision gm c now g = (gm, g)).
Proof.
  intros gm s c now g Hs Hdur Hmeet gm'.
  destruct (handleCollision_ship gm s c now g Hs Hmeet) as (asteroid & Htype & Heq).
  subst gm'. rewrite Heq. unfold Game.shipHitsAsteroid.
  rewrite Hs, Htype. unfold Ship.onCollision. split.
  - intros Hvul. rewrite Hvul.
    destruct (decide (Some asteroidType = Some asteroidType)) as [_ | Hn];
      [| congruence].
    destruct (GameState.loseLife _ now) as [over gs] eqn:Hlose.
    destruct (EntityManager.createParticleEffect _ _ g) as [[ps m] g'].
    cbn [fst Game.gameState Game.set_entityManager Game.set_gameState
         Game.set_ship Game.ship].
    split.
    + unfold GameState.loseLife in Hlose. cbn in Hlose.
      destruct (_ <=? 0)%Z; injection Hlose as _ <-; reflexivity.
    + eexists. split; [reflexivity |].
      unfold Ship.destroy, Ship.respawn. cbn. rewrite Hdur. repeat split.
  - intros Hinv. rewrite Hinv. destruct gm; cbn in *. subst. reflexivity.
Qed.

Lemma ship_asteroid_collision_witness :
  Game.ship sampleGame = Some (Ship.new defaultShipOptions) /\
  shipMeetsAsteroid sampleShipCollision /\
  GameState.lives
    (Game.gameState (fst (Game.handleCollision sampleGame sampleShipCollision 0 halves)))
  = 2%Z.
Proof.
  assert (Hs : Game.ship sampleGame = Some (Ship.new defaultShipOptions))
    by reflexivity.
  assert (Hdur : Ship.invulnerabilityDuration (Ship.new defaultShipOptions) = 2000)
    by reflexivity.
  assert (Hmeet : shipMeetsAsteroid sampleShipCollision)
    by (left; split; reflexivity).
  split; [exact Hs | split; [exact Hmeet |]].
  exact (proj1 (proj1 (ship_asteroid_collision sampleGame _ sampleShipCollision
                         0 halves Hs Hdur Hmeet) eq_refl)).
Defined.

(** ** The projectile pool *)

Lemma registerParticles_fold_frame (new : list Particle.t)
    (st : list Particle.t * EntityManager.t) :
  let m := snd st in
  let m' := snd (fold_left EntityManager.registerParticle new st) in
  EntityManager.projectilePool m' = EntityManager.projectilePool m /\
  EntityManager.maxPoolSize m' = EntityManager.maxPoolSize m /\
  EntityManager.projectiles m' = EntityManager.projectiles m /\
  EntityManager.asteroids m' = EntityManager.asteroids m /\
  EntityManager.screenWidth m' = EntityManager.screenWidth m /\
  EntityManager.screenHeight m' = EntityManager.screenHeight m.
Proof.
  revert st. induction new as [| p new IH]; intros [registered m];
    cbn [fold_left].
  - cbn. repeat split.
  - destruct (IH (EntityManager.registerParticle (registered, m) p))
      as (H1 & H2 & H3 & H4 & H5 & H6).
    cbn zeta in *. rewrite H1, H2, H3, H4, H5, H6. repeat split.
Qed.

Lemma registerParticles_frame (new : list Particle.t) (m : EntityManager.t) :
  let m' := snd (EntityManager.registerParticles m new) in
  EntityManager.projectilePool m' = EntityManager.projectilePool m /\
  EntityManager.maxPoolSize m' = EntityManager.maxPoolSize m /\
  EntityManager.projectiles m' = EntityManager.projectiles m /\
  EntityManager.asteroids m' = EntityManager.asteroids m /\
  EntityManager.screenWidth m' = EntityManager.screenWidth m /\
  EntityManager.screenHeight m' = EntityManager.screenHeight m.
Proof. apply (registerParticles_fold_frame new ([], m)). Qed.

Lemma createParticleEffect_frame (m : EntityManager.t)
    (e : EntityManager.effect) (g : Js.RandomSource) :
  let m' := snd (fst (EntityManager.createParticleEffect m e g)) in
  EntityManager.projectilePool m' = EntityManager.projectilePool m /\
  EntityManager.maxPoolSize m' = EntityManager.maxPoolSize m /\
  EntityManager.projectiles m' = EntityManager.projectiles m /\
  EntityManager.asteroids m' = EntityManager.asteroids m /\
  EntityManager.screenWidth m' = EntityManager.screenWidth m /\
  EntityManager.screenHeight m' = EntityManager.screenHeight m.
Proof.
  destruct e as [position color count speed | position velocity color count
                | position direction color count | type]; cbn.
  - unfold EntityManager.createExplosionParticles.
    destruct (Particle.createExplosion _ _ _ _ _) as [ps g'].
    pose proof (registerParticles_frame ps m) as Hf.
    destruct (EntityManager.registerParticles m ps) as [ps' m']. exact Hf.
  - unfold EntityManager.createDebrisParticles.
    destruct (Particle.createDebris _ _ _ _ _) as [ps g'].
    pose proof (registerParticles_frame ps m) as Hf.
    destruct (EntityManager.registerParticles m ps) as [ps' m']. exact Hf.
  - unfold EntityManager.createSparkParticles.
    destruct (Particle.createSparks _ _ _ _ _) as [ps g'].
    pose proof (registerParticles_frame ps m) as Hf.
    destruct (EntityManager.registerParticles m ps) as [ps' m']. exact Hf.
  - repeat split.
Qed.

(** [destroyProjectile] deactivates an active projectile and leaves the
    arrays of projectiles, the pool and its capacity as they were. *)
Lemma destroyProjectile_frame (m : EntityManager.t) (p : Projectile.t)
    (g : Js.RandomSource) :
  let r := EntityManager.destroyProjectile m p g in
  fst (fst r) = Projectile.set_isActive false p /\
  EntityManager.projectilePool (snd (fst r)) = EntityManager.projectilePool m /\
  EntityManager.maxPoolSize (snd (fst r)) = EntityManager.maxPoolSize m /\
  EntityManager.projectiles (snd (fst r)) = EntityManager.projectiles m /\
  EntityManager.asteroids (snd (fst r)) = EntityManager.asteroids m /\
  EntityManager.screenWidth (snd (fst r)) = EntityManager.screenWidth m /\
  EntityManager.screenHeight (snd (fst r)) = EntityManager.screenHeight m.
Proof.
  unfold EntityManager.destroyProjectile.
  destruct (Projectile.isActive p) eqn:Hact; cbn [negb].
  - match goal with
    | |- context [EntityManager.createParticleEffect m ?e g] =>
        pose proof (createParticleEffect_frame m e g) as Hf;
        destruct (EntityManager.createParticleEffect m e g) as [[ps m'] g']
    end.
    cbn in *. destruct Hf as (H1 & H2 & H3 & H4 & H5 & H6). auto 10.
  - cbn. repeat split. destruct p; cbn in *. subst. reflexivity.
Qed.

(** The projectile half of [cleanupInactiveEntities] never lets the pool
    grow past the capacity. *)
Lemma cleanupProjectile_bound (max : nat) (l kept pool : list Projectile.t) :
  (length pool <= max)%nat ->
  (length (snd (fold_left (EntityManager.cleanupProjectile max) l (kept, pool)))
   <= max)%nat.
Proof.
  revert kept pool. induction l as [| p l IH]; intros kept pool Hle;
    cbn [fold_left]; [exact Hle |].
  unfold EntityManager.cleanupProjectile at 2.
  destruct (negb (Projectile.isActive p)); [| apply IH; exact Hle].
  destruct (Nat.ltb_spec (length pool) max); apply IH; [| exact Hle].
  rewrite length_app. cbn. lia.
Qed.

Lemma cleanupInactiveEntities_pool (m : EntityManager.t) :
  (length (EntityManager.projectilePool m) <= EntityManager.maxPoolSize m)%nat ->
  let m' := EntityManager.cleanupInactiveEntities m in
  EntityManager.maxPoolSize m' = EntityManager.maxPoolSize m /\
  (length (EntityManager.projectilePool m') <= EntityManager.maxPoolSize m)%nat.
Proof.
  intros Hle. unfold EntityManager.cleanupInactiveEntities.
  cbn [EntityManager.maxPoolSize EntityManager.set_asteroids
       EntityManager.projectiles EntityManager.projectilePool].
  pose proof (cleanupProjectile_bound (EntityManager.maxPoolSize m)
                (EntityManager.projectiles m) [] _ Hle) as Hb.
  destruct (fold_left (EntityManager.cleanupProjectile _) _ _) as [kept pool].
  cbn [EntityManager.maxPoolSize EntityManager.set_projectiles
       EntityManager.set_projectilePool EntityManager.particles
       EntityManager.particlePool].
  destruct (fold_left (EntityManager.cleanupParticle _) _ _) as [kept' pool'].
  cbn. split; [reflexivity | exact Hb].
Qed.

Lemma pop_app {A : Type} (l : list A) (x : A) :
  EntityManager.pop (l ++ [x]) = Some (x, l).
Proof.
  unfold EntityManager.pop. rewrite rev_app_distr. cbn.
  rewrite rev_involutive. reflexivity.
Qed.

Lemma pop_length {A : Type} (l front : list A) (x : A) :
  EntityManager.pop l = Some (x, front) -> length l = S (length front).
Proof.
  unfold EntityManager.pop. destruct (rev l) as [| y r] eqn:Hrev; [discriminate |].
  intros Heq. injection Heq as <- <-.
  rewrite <- (rev_involutive l), Hrev. cbn.
  rewrite length_app, !length_rev. cbn. lia.
Qed.

Lemma createProjectile_pool (m : EntityManager.t)
    (o : EntityManager.projectileOptions) :
  let m' := snd (EntityManager.createProjectile m o) in
  EntityManager.maxPoolSize m' = EntityManager.maxPoolSize m /\
  (length (EntityManager.projectilePool m')
   <= length (EntityManager.projectilePool m))%nat.
Proof.
  unfold EntityManager.createProjectile.
  destruct (EntityManager.pop (EntityManager.projectilePool m))
    as [[q pool] |] eqn:Hpop; cbn.
  - split; [reflexivity |]. apply pop_length in Hpop. lia.
  - split; [reflexivity | lia].
Qed.

Lemma step_pool (st : EntityManager.t * Js.RandomSource) (o : Scenario.op) :
  EntityManager.maxPoolSize (fst st) = 50%nat ->
  (length (EntityManager.projectilePool (fst st)) <= 50)%nat ->
  EntityManager.maxPoolSize (fst (Scenario.step st o)) = 50%nat /\
  (length (EntityManager.projectilePool (fst (Scenario.step st o))) <= 50)%nat.
Proof.
  destruct st as [m g]; cbn [fst]. intros Hmax Hle.
  destruct o as [opts | i | i | deltaTime |]; cbn [Scenario.step fst].
  - destruct (createProjectile_pool m opts) as [H1 H2]. cbn zeta in *.
    split; [congruence | lia].
  - unfold Scenario.destroyActive.
    destruct (EntityManager.projectiles m !! i) as [p |]; [| auto].
    pose proof (destroyProjectile_frame m p g) as Hf.
    destruct (EntityManager.destroyProjectile m p g) as [[p' m'] g'].
    cbn in *. destruct Hf as (_ & H1 & H2 & _). rewrite H1, H2. auto.
  - unfold Scenario.destroyPooled.
    destruct (EntityManager.projectilePool m !! i) as [p |]; [| auto].
    pose proof (destroyProjectile_frame m p g) as Hf.
    destruct (EntityManager.destroyProjectile m p g) as [[p' m'] g'].
    cbn in *. destruct Hf as (_ & H1 & H2 & _).
    rewrite H2, length_insert, H1. auto.
  - unfold EntityManager.update.
    match goal with
    | |- context [EntityManager.cleanupInactiveEntities ?m1] => set (u := m1)
    end.
    assert (Hu1 : EntityManager.maxPoolSize u = EntityManager.maxPoolSize m)
      by reflexivity.
    assert (Hu2 : EntityManager.projectilePool u = EntityManager.projectilePool m)
      by reflexivity.
    destruct (cleanupInactiveEntities_pool u) as [H1 H2];
      [rewrite Hu1, Hu2; lia |].
    cbn zeta in *. split; [congruence | lia].
  - destruct (cleanupInactiveEntities_pool m) as [H1 H2]; [lia |].
    cbn zeta in *. split; [congruence | lia].
Qed.

Lemma run_pool (ops : list Scenario.op)
    (st : EntityManager.t * Js.RandomSource) :
  EntityManager.maxPoolSize (fst st) = 50%nat ->
  (length (EntityManager.projectilePool (fst st)) <= 50)%nat ->
  EntityManager.maxPoolSize (fst (Scenario.run ops st)) = 50%nat /\
  (length (EntityManager.projectilePool (fst (Scenario.run ops st))) <= 50)%nat.
Proof.
  unfold Scenario.run. revert st.
  induction ops as [| o ops IH]; intros st Hmax Hle; cbn [fold_left]; [auto |].
  destruct (step_pool st o Hmax Hle) as [H1 H2]. apply IH; assumption.
Qed.

(** C5. After any sequence of [createProjectile], [destroyProjectile],
    [update] and [cleanupInactiveEntities] calls on a new [EntityManager],
    the projectile pool holds at most [maxPoolSize] = 50 projectiles; and
    whenever the pool is not empty, [createProjectile] pops its last
    projectile and returns that same object (same id) with [age] reset to 0,
    [isActive] set to true and the requested position and velocity, pushed
    onto the active array. *)
Theorem projectile_pool_bounded :
  forall (screenWidth screenHeight : R) (ops : list Scenario.op)
         (g : Js.RandomSource),
    let m := fst (Scenario.run ops
                    (EntityManager.new screenWidth screenHeight, g)) in
    EntityManager.maxPoolSize m = 50%nat /\
    (length (EntityManager.projectilePool m) <= 50)%nat /\
    (forall (o : EntityManager.projectileOptions) (q : Projectile.t)
            (pool : list Projectile.t),
        EntityManager.projectilePool m = pool ++ [q] ->
        let p := fst (EntityManager.createProjectile m o) in
        let m' := snd (EntityManager.createProjectile m o) in
        Projectile.age p = 0 /\
        Projectile.isActive p = true /\
        Projectile.id p = Projectile.id q /\
        Projectile.position p = EntityManager.p_position o /\
        Projectile.velocity p = EntityManager.p_velocity o /\
        EntityManager.projectilePool m' = pool /\
        EntityManager.projectiles m' = EntityManager.projectiles m ++ [p]).
Proof.
  intros screenWidth screenHeight ops g m.
  destruct (run_pool ops (EntityManager.new screenWidth screenHeight, g))
    as [Hmax Hle]; [reflexivity | cbn; lia |].
  split; [exact Hmax | split; [exact Hle |]].
  intros o q pool Hpool. unfold EntityManager.createProjectile.
  rewrite Hpool, pop_app. cbn.
  destruct (EntityManager.p_position o), (EntityManager.p_velocity o).
  repeat split.
Qed.

(** ** Recycled projectiles *)

Lemma orNumber_same (v : R) : Js.orNumber (Some v) v = v.
Proof. unfold Js.orNumber. destruct (Req_dec_T v 0); reflexivity. Qed.

Lemma orNumber_nonzero (v d : R) : v <> 0 -> Js.orNumber (Some v) d = v.
Proof.
  intros Hv. unfold Js.orNumber. destruct (Req_dec_T v 0); [contradiction |].
  reflexivity.
Qed.

(** How each call of a scenario acts on the projectiles. *)
Lemma createProjectile_new_view (m : EntityManager.t)
    (o : EntityManager.projectileOptions) :
  EntityManager.projectilePool m = [] ->
  EntityManager.p_screenWidth o = None ->
  EntityManager.p_screenHeight o = None ->
  exists p,
    projectileView (snd (EntityManager.createProjectile m o))
    = (EntityManager.projectiles m ++ [p], [], EntityManager.maxPoolSize m,
       EntityManager.screenWidth m, EntityManager.screenHeight m) /\
    Projectile.position p = EntityManager.p_position o /\
    Projectile.velocity p = EntityManager.p_velocity o /\
    Projectile.startPosition p = EntityManager.p_position o /\
    Projectile.age p = 0 /\
    Projectile.isActive p = true /\
    Projectile.lifespan p = Js.orNumber (EntityManager.p_lifespan o) 2000 /\
    Projectile.maxDistance p = Js.orNumber (EntityManager.p_maxDistance o) 1000 /\
    Projectile.screenWidth p
      = Js.orNumber (Some (EntityManager.screenWidth m)) 800 /\
    Projectile.screenHeight p
      = Js.orNumber (Some (EntityManager.screenHeight m)) 600.
Proof.
  intros Hpool Hw Hh. unfold EntityManager.createProjectile, projectileView.
  rewrite Hpool. cbn -[Js.orNumber]. rewrite Hw, Hh, Hpool. cbn -[Js.orNumber].
  eexists. split; [reflexivity |].
  cbn -[Js.orNumber].
  destruct (EntityManager.p_position o). repeat split.
Qed.

Lemma createProjectile_pooled_view (m : EntityManager.t)
    (o : EntityManager.projectileOptions) (q : Projectile.t)
    (pool : list Projectile.t) :
  EntityManager.projectilePool m = pool ++ [q] ->
  exists p,
    projectileView (snd (EntityManager.createProjectile m o))
    = (EntityManager.projectiles m ++ [p], pool, EntityManager.maxPoolSize m,
       EntityManager.screenWidth m, EntityManager.screenHeight m) /\
    Projectile.position p = EntityManager.p_position o /\
    Projectile.velocity p = EntityManager.p_velocity o /\
    Projectile.startPosition p = Projectile.startPosition q /\
    Projectile.age p = 0 /\
    Projectile.isActive p = true /\
    Projectile.lifespan p = Projectile.lifespan q /\
    Projectile.maxDistance p = Projectile.maxDistance q /\
    Projectile.screenWidth p = Projectile.screenWidth q /\
    Projectile.screenHeight p = Projectile.screenHeight q.
Proof.
  intros Hpool. unfold EntityManager.createProjectile, projectileView.
  rewrite Hpool, pop_app. cbn.
  eexists. split; [reflexivity |].
  destruct (EntityManager.p_position o), (EntityManager.p_velocity o).
  repeat split.
Qed.

Lemma destroyActive_view (m : EntityManager.t) (i : nat) (p : Projectile.t)
    (g : Js.RandomSource) :
  EntityManager.projectiles m !! i = Some p ->
  projectileView (fst (Scenario.destroyActive m i g))
  = (<[i := Projectile.set_isActive false p]> (EntityManager.projectiles m),
     EntityManager.projectilePool m, EntityManager.maxPoolSize m,
     EntityManager.screenWidth m, EntityManager.screenHeight m).
Proof.
  intros Hp. unfold Scenario.destroyActive, projectileView. rewrite Hp.
  pose proof (destroyProjectile_frame m p g) as Hf.
  destruct (EntityManager.destroyProjectile m p g) as [[p' m'] g'].
  cbn in *. destruct Hf as (-> & -> & -> & -> & _ & -> & ->). reflexivity.
Qed.

Lemma cleanupInactiveEntities_view (m : EntityManager.t) :
  projectileView (EntityManager.cleanupInactiveEntities m)
  = (fold_left (EntityManager.cleanupProjectile (EntityManager.maxPoolSize m))
       (EntityManager.projectiles m) ([], EntityManager.projectilePool m),
     EntityManager.maxPoolSize m, EntityManager.screenWidth m,
     EntityManager.screenHeight m).
Proof.
  unfold EntityManager.cleanupInactiveEntities, projectileView.
  cbn [EntityManager.maxPoolSize EntityManager.set_asteroids
       EntityManager.projectiles EntityManager.projectilePool].
  destruct (fold_left (EntityManager.cleanupProjectile _) _ _) as [kept pool].
  cbn [EntityManager.maxPoolSize EntityManager.set_projectiles
       EntityManager.set_projectilePool EntityManager.particles
       EntityManager.particlePool].
  destruct (fold_left (EntityManager.cleanupParticle _) _ _) as [kept' pool'].
  reflexivity.
Qed.

Lemma update_view (m : EntityManager.t) (deltaTime : R) :
  projectileView (EntityManager.update m deltaTime)
  = (fold_left (EntityManager.cleanupProjectile (EntityManager.maxPoolSize m))
       (map (updateProjectile deltaTime) (EntityManager.projectiles m))
       ([], EntityManager.projectilePool m),
     EntityManager.maxPoolSize m, EntityManager.screenWidth m,
     EntityManager.screenHeight m).
Proof.
  unfold EntityManager.update. rewrite cleanupInactiveEntities_view. reflexivity.
Qed.

(** A projectile whose travel from [startPosition] reaches [maxDistance]
    is deactivated by [update]; one that is young, near its start and inside
    the screen margin stays active. *)
Lemma update_out_of_range (p : Projectile.t) (deltaTime : R) :
  Projectile.isActive p = true ->
  Projectile.age p + deltaTime < Projectile.lifespan p ->
  Projectile.maxDistance p
    <= Vector2D.distanceTo
         (Vector2D.add (Projectile.position p)
            (Vector2D.multiply (Projectile.velocity p) (deltaTime / 1000)))
         (Projectile.startPosition p) ->
  Projectile.isActive (Projectile.update p deltaTime) = false.
Proof.
  intros Hact Hage Hfar. unfold Projectile.update. rewrite Hact. cbn [negb].
  cbn -[Vector2D.distanceTo Vector2D.add Vector2D.multiply].
  destruct (Rge_dec _ _) as [Hold | _]; [reflexivity |].
  destruct (Rge_dec _ _) as [_ | Hnear]; [reflexivity |].
  exfalso. apply Hnear. unfold Vector2D.clone. destruct (Projectile.velocity p).
  apply Rle_ge. exact Hfar.
Qed.

Lemma update_in_range (p : Projectile.t) (deltaTime : R) :
  Projectile.isActive p = true ->
  Projectile.age p + deltaTime < Projectile.lifespan p ->
  let position :=
    Vector2D.add (Projectile.position p)
      (Vector2D.multiply (Projectile.velocity p) (deltaTime / 1000)) in
  Vector2D.distanceTo position (Projectile.startPosition p)
    < Projectile.maxDistance p ->
  -50 <= Vector2D.x position <= Projectile.screenWidth p + 50 ->
  -50 <= Vector2D.y position <= Projectile.screenHeight p + 50 ->
  Projectile.isActive (Projectile.update p deltaTime) = true.
Proof.
  intros Hact Hage position Hnear Hx Hy. unfold Projectile.update.
  rewrite Hact. cbn [negb].
  cbn -[Vector2D.distanceTo Vector2D.add Vector2D.multiply].
  replace (Vector2D.clone (Projectile.velocity p)) with (Projectile.velocity p)
    by (destruct (Projectile.velocity p); reflexivity).
  fold position.
  destruct (Rge_dec _ _) as [Hold | _]; [lra |].
  destruct (Rge_dec _ _) as [Hfar | _]; [lra |].
  repeat (destruct (Rlt_dec _ _) as [Hc | _]; [lra |];
          destruct (Rgt_dec _ _) as [Hc | _]; [lra |]).
  cbn. exact Hact.
Qed.

Lemma update_moves (p : Projectile.t) (deltaTime : R) :
  Projectile.isActive p = true ->
  Projectile.position (Projectile.update p deltaTime)
  = Vector2D.add (Projectile.position p)
      (Vector2D.multiply (Projectile.velocity p) (deltaTime / 1000)) /\
  Projectile.startPosition (Projectile.update p deltaTime)
  = Projectile.startPosition p.
Proof.
  intros Hact. unfold Projectile.update. rewrite Hact. cbn [negb].
  replace (Vector2D.clone (Projectile.velocity p)) with (Projectile.velocity p)
    by (destruct (Projectile.velocity p); reflexivity).
  cbn -[Vector2D.distanceTo Vector2D.add Vector2D.multiply].
  repeat match goal with
         | |- context [if ?c then _ else _] => destruct c
         end; split; reflexivity.
Qed.

(** An inactive projectile is collected into a pool with room. *)
Lemma cleanup_single_inactive (p : Projectile.t) :
  Projectile.isActive p = false ->
  fold_left (EntityManager.cleanupProjectile 50) [p] ([], []) = ([], [p]).
Proof. intros Hp. cbn. rewrite Hp. reflexivity. Qed.

Lemma cleanup_single_active (p : Projectile.t) :
  Projectile.isActive p = true ->
  fold_left (EntityManager.cleanupProjectile 50) [p] ([], []) = ([p], []).
Proof. intros Hp. cbn. rewrite Hp. reflexivity. Qed.

Lemma far_corner_distance :
  1000 <= Vector2D.distanceTo
            (Vector2D.add (Vector2D.mk 810 600)
               (Vector2D.multiply (Vector2D.mk 400 0) (16 / 1000)))
            (Vector2D.mk 0 0).
Proof.
  unfold Vector2D.distanceTo; cbn.
  apply Rle_trans with (sqrt (1000 * 1000)).
  - rewrite sqrt_square; lra.
  - apply sqrt_le_1_alt. lra.
Qed.

Lemma near_start_distance :
  Vector2D.distanceTo
    (Vector2D.add (Vector2D.mk 810 600)
       (Vector2D.multiply (Vector2D.mk 400 0) (16 / 1000)))
    (Vector2D.mk 810 600) < 1000.
Proof.
  unfold Vector2D.distanceTo; cbn.
  apply Rlt_le_trans with (sqrt (1000 * 1000)).
  - apply sqrt_lt_1_alt. split; [apply sum_squares_nonneg | lra].
  - rewrite sqrt_square; lra.
Qed.

(** The view of the manager after the recycled shot and its first
    update. *)
Lemma recycledShot_view (g : Js.RandomSource) :
  exists pooled,
    projectileView
      (fst (Scenario.run recycledShot (EntityManager.new 800 600, g)))
    = ([], [pooled], 50%nat, 800, 600) /\
    Projectile.position pooled
    = Vector2D.add (Vector2D.mk 810 600)
        (Vector2D.multiply (Vector2D.mk 400 0) (16 / 1000)) /\
    Projectile.startPosition pooled = Vector2D.mk 0 0.
Proof.
  unfold Scenario.run, recycledShot. cbn [fold_left].
  set (m0 := EntityManager.new 800 600).
  destruct (createProjectile_new_view m0 firstShot eq_refl eq_refl eq_refl)
    as (p1 & Hv1 & _ & _ & Hstart1 & _ & _ & Hlife1 & Hmax1 & Hw1 & Hh1).
  cbn [Scenario.step].
  set (m1 := snd (EntityManager.createProjectile m0 firstShot)) in *.
  clearbody m1. cbn in Hv1, Hstart1, Hlife1, Hmax1.
  unfold projectileView in Hv1. injection Hv1 as Hv1a Hv1b Hv1c Hv1d Hv1e.
  assert (Hp1 : EntityManager.projectiles m1 !! 0%nat = Some p1)
    by (rewrite Hv1a; reflexivity).
  pose proof (destroyActive_view m1 0 p1 g Hp1) as Hv2.
  destruct (Scenario.destroyActive m1 0 g) as [m2 g2]. cbn [fst] in Hv2.
  rewrite Hv1a, Hv1b, Hv1c, Hv1d, Hv1e in Hv2. cbn in Hv2.
  set (q := Projectile.set_isActive false p1) in *.
  cbn [Scenario.step].
  pose proof (cleanupInactiveEntities_view m2) as Hv3.
  unfold projectileView in Hv2. injection Hv2 as Hv2a Hv2b Hv2c Hv2d Hv2e.
  rewrite Hv2a, Hv2b, Hv2c, Hv2d, Hv2e in Hv3.
  rewrite (cleanup_single_inactive q eq_refl) in Hv3.
  set (m3 := EntityManager.cleanupInactiveEntities m2) in *.
  unfold projectileView in Hv3. injection Hv3 as Hv3a Hv3b Hv3c Hv3d Hv3e.
  destruct (createProjectile_pooled_view m3 secondShot q [] Hv3b)
    as (p2 & Hv4 & Hpos2 & Hvel2 & Hstart2 & Hage2 & Hact2 & Hlife2 & Hmax2 & _).
  set (m4 := snd (EntityManager.createProjectile m3 secondShot)) in *.
  rewrite Hv3a, Hv3c, Hv3d, Hv3e in Hv4. cbn [app] in Hv4.
  cbn [fst].
  pose proof (update_view m4 16) as Hv5.
  unfold projectileView in Hv4. injection Hv4 as Hv4a Hv4b Hv4c Hv4d Hv4e.
  rewrite Hv4a, Hv4b, Hv4c, Hv4d, Hv4e in Hv5. cbn [map] in Hv5.
  unfold updateProjectile in Hv5. rewrite Hact2 in Hv5.
  cbn in Hpos2, Hvel2, Hstart2, Hlife2, Hmax2.
  destruct (update_moves p2 16 Hact2) as [Hmoved Hkept].
  rewrite Hpos2, Hvel2 in Hmoved.
  assert (Hout : Projectile.isActive (Projectile.update p2 16) = false).
  { apply update_out_of_range; [exact Hact2 | |].
    - rewrite Hage2, Hlife2, Hlife1. lra.
    - rewrite Hmax2, Hmax1, Hpos2, Hvel2, Hstart2, Hstart1.
      apply far_corner_distance. }
  rewrite (cleanup_single_inactive _ Hout) in Hv5.
  exists (Projectile.update p2 16). split; [exact Hv5 |].
  split; [exact Hmoved | congruence].
Qed.

(** The view of the manager after the same shot from a newly constructed
    projectile and its first update. *)
Lemma freshShot_view (g : Js.RandomSource) :
  exists p,
    projectileView
      (fst (Scenario.run freshShot (EntityManager.new 800 600, g)))
    = ([p], [], 50%nat, 800, 600) /\
    Projectile.isActive p = true /\
    Projectile.startPosition p = Vector2D.mk 810 600.
Proof.
  unfold Scenario.run, freshShot. cbn [fold_left].
  set (m0 := EntityManager.new 800 600).
  destruct (createProjectile_new_view m0 secondShot eq_refl eq_refl eq_refl)
    as (p1 & Hv1 & Hpos1 & Hvel1 & Hstart1 & Hage1 & Hact1 & Hlife1 & Hmax1
        & Hw1 & Hh1).
  cbn [Scenario.step fst].
  set (m1 := snd (EntityManager.createProjectile m0 secondShot)) in *.
  clearbody m1.
  cbn -[Js.orNumber] in Hv1, Hpos1, Hvel1, Hstart1, Hlife1, Hmax1, Hw1, Hh1.
  rewrite orNumber_same in Hw1, Hh1.
  unfold projectileView in Hv1. injection Hv1 as Hv1a Hv1b Hv1c Hv1d Hv1e.
  pose proof (update_view m1 16) as Hv2.
  rewrite Hv1a, Hv1b, Hv1c, Hv1d, Hv1e in Hv2. cbn [map] in Hv2.
  unfold updateProjectile in Hv2. rewrite Hact1 in Hv2.
  destruct (update_moves p1 16 Hact1) as [_ Hkept].
  assert (Hin : Projectile.isActive (Projectile.update p1 16) = true).
  { apply update_in_range.
    - exact Hact1.
    - rewrite Hage1, Hlife1. cbn. lra.
    - rewrite Hmax1, Hpos1, Hvel1, Hstart1. apply near_start_distance.
    - rewrite Hpos1, Hvel1, Hw1. cbn. lra.
    - rewrite Hpos1, Hvel1, Hh1. cbn. lra. }
  rewrite (cleanup_single_active _ Hin) in Hv2.
  exists (Projectile.update p1 16). split; [exact Hv2 |].
  split; [exact Hin | congruence].
Qed.

(** C6 fails on the code. A projectile first fired from (0, 0), destroyed
    and pooled, then recycled for a shot from (810, 600), is deactivated by
    its first 16 ms update, its travel being measured from (0, 0); the same
    shot from a newly constructed projectile stays active. *)
Theorem recycled_projectile_measures_from_stale_start :
  forall g : Js.RandomSource,
    let recycled :=
      fst (Scenario.run recycledShot (EntityManager.new 800 600, g)) in
    let fresh :=
      fst (Scenario.run freshShot (EntityManager.new 800 600, g)) in
    EntityManager.projectiles recycled = [] /\
    (exists pooled,
        EntityManager.projectilePool recycled = [pooled] /\
        Projectile.position pooled = Vector2D.mk (810 + 400 * (16 / 1000)) 600 /\
        Projectile.startPosition pooled = Vector2D.mk 0 0) /\
    (exists p,
        EntityManager.projectiles fresh = [p] /\
        Projectile.isActive p = true /\
        Projectile.startPosition p = Vector2D.mk 810 600).
Proof.
  intros g recycled fresh.
  destruct (recycledShot_view g) as (pooled & Hview & Hpos & Hstart).
  destruct (freshShot_view g) as (p & Hview' & Hact & Hstart').
  fold recycled in Hview. fold fresh in Hview'. clearbody recycled fresh.
  unfold projectileView in Hview, Hview'.
  injection Hview as Hprojectiles Hpool _ _ _.
  injection Hview' as Hprojectiles' _ _ _ _.
  split; [exact Hprojectiles | split].
  - exists pooled. rewrite Hpos. split; [exact Hpool |].
    split; [| exact Hstart].
    unfold Vector2D.add, Vector2D.multiply. cbn [Vector2D.x Vector2D.y].
    f_equal; lra.
  - exists p. auto.
Qed.

(** ** Random draws *)

Lemma random_spec (g : Js.RandomSource) :
  Js.uniform g ->
  0 <= fst (Js.random g) < 1 /\
  Js.draws (snd (Js.random g)) = Js.draws g.
Proof. intros Hu. cbn. split; [apply Hu | reflexivity]. Qed.

Lemma uniform_draws (g g' : Js.RandomSource) :
  Js.draws g' = Js.draws g -> Js.uniform g -> Js.uniform g'.
Proof. unfold Js.uniform. intros -> Hu. exact Hu. Qed.

Lemma floor_of_unit_times_two (r : R) :
  0 <= r < 1 -> Js.floor (r * 2) = 0%Z \/ Js.floor (r * 2) = 1%Z.
Proof.
  intros Hr. unfold Js.floor.
  pose proof (Zfloor_bound (r * 2)) as Hb.
  assert (H1 : (Zfloor (r * 2) < 2)%Z) by (apply lt_IZR; lra).
  assert (H2 : (-1 < Zfloor (r * 2))%Z) by (apply lt_IZR; lra).
  lia.
Qed.

(** ** The asteroid constructor *)

Lemma setupSizeProperties_spec (s : Asteroid.Size) (g : Js.RandomSource) :
  Js.uniform g ->
  let r := Asteroid.setupSizeProperties s g in
  Js.draws (snd r) = Js.draws g /\
  match s with
  | Asteroid.large =>
      40 <= fst (fst (fst r)) < 50 /\
      (snd (fst r) = 2%Z \/ snd (fst r) = 3%Z)
  | Asteroid.medium =>
      25 <= fst (fst (fst r)) < 33 /\
      (snd (fst r) = 2%Z \/ snd (fst r) = 3%Z)
  | Asteroid.small =>
      12 <= fst (fst (fst r)) < 17 /\ snd (fst r) = 0%Z
  end.
Proof.
  intros Hu. destruct s; cbn; (split; [reflexivity |]).
  - pose proof (Hu (Js.cursor g)) as H1.
    destruct (floor_of_unit_times_two _ (Hu (S (Js.cursor g)))) as [-> | ->];
      split; try lra; auto.
  - pose proof (Hu (Js.cursor g)) as H1.
    destruct (floor_of_unit_times_two _ (Hu (S (Js.cursor g)))) as [-> | ->];
      split; try lra; auto.
  - pose proof (Hu (Js.cursor g)) as H1. split; [lra | reflexivity].
Qed.

Lemma generateShapeLoop_draws (radius : R) (vertexCount : Z) (n : nat)
    (i : Z) (g : Js.RandomSource) (vertices : list Vector2D.t) :
  Js.draws (snd (Asteroid.generateShapeLoop radius vertexCount n i g vertices))
  = Js.draws g.
Proof.
  revert i g vertices. induction n as [| n IH]; intros i g vertices; cbn.
  - reflexivity.
  - rewrite IH. reflexivity.
Qed.

Lemma generateShape_draws (radius : R) (g : Js.RandomSource) :
  Js.draws (snd (Asteroid.generateShape radius g)) = Js.draws g.
Proof.
  unfold Asteroid.generateShape. cbn. rewrite generateShapeLoop_draws.
  reflexivity.
Qed.

Lemma generateColor_draws (g : Js.RandomSource) :
  Js.draws (snd (Asteroid.generateColor g)) = Js.draws g.
Proof. reflexivity. Qed.

(** The constructor keeps the options it is given, draws the rest, and
    leaves the sequence of draws as it was. *)
Lemma new_spec (o : Asteroid.options) (g : Js.RandomSource) :
  Js.uniform g ->
  let a := fst (Asteroid.new o g) in
  Js.draws (snd (Asteroid.new o g)) = Js.draws g /\
  sized a /\
  Asteroid.size a = Js.orObject (Asteroid.o_size o) Asteroid.large /\
  Asteroid.position a = Js.orObject (Asteroid.o_position o) (Vector2D.mk 0 0) /\
  Asteroid.velocity a = Js.orObject (Asteroid.o_velocity o) (Vector2D.mk 0 0) /\
  Asteroid.isActive a = true /\
  Asteroid.id a = None.
Proof.
  intros Hu. unfold Asteroid.new.
  set (av := match Asteroid.o_angularVelocity o with
             | Some v => _
             | None => _
             end).
  assert (Hav : Js.draws (snd av) = Js.draws g).
  { subst av. destruct (Asteroid.o_angularVelocity o) as [v |]; cbn;
      [destruct (Req_dec_T v 0) |]; reflexivity. }
  destruct av as [angularVelocity g1]. cbn [snd] in Hav.
  pose proof (setupSizeProperties_spec
                (Js.orObject (Asteroid.o_size o) Asteroid.large) g1
                (uniform_draws g g1 Hav Hu)) as Hsetup.
  destruct (Asteroid.setupSizeProperties _ g1)
    as [[[radius pointValue] splitCount] g2].
  cbn [fst snd] in Hsetup. destruct Hsetup as [Hd2 Hsized].
  set (vs := match Asteroid.o_vertices o with
             | Some v => _
             | None => _
             end).
  assert (Hvs : Js.draws (snd vs) = Js.draws g2).
  { subst vs. destruct (Asteroid.o_vertices o); cbn [snd];
      [reflexivity | apply generateShape_draws]. }
  destruct vs as [vertices g3]. cbn [snd] in Hvs.
  set (cl := match Asteroid.o_color o with
             | Some c => _
             | None => _
             end).
  assert (Hcl : Js.draws (snd cl) = Js.draws g3).
  { subst cl. destruct (Asteroid.o_color o) as [[[| ? ?] | ? ? ?] |];
      reflexivity. }
  destruct cl as [color g4]. cbn [snd] in Hcl.
  cbn [fst snd]. unfold sized. cbn.
  split; [congruence |]. split; [exact Hsized |]. repeat split.
Qed.

(** ** Splitting *)

Lemma clone_eq (v : Vector2D.t) : Vector2D.clone v = v.
Proof. destruct v; reflexivity. Qed.

Lemma distanceTo_offset (p : Vector2D.t) (angle d : R) :
  0 <= d ->
  Vector2D.distanceTo p (Vector2D.add p (Vector2D.fromAngle angle d)) = d.
Proof.
  intros Hd. rewrite <- (fromAngle_magnitude angle d Hd) at 2.
  unfold Vector2D.distanceTo, Vector2D.magnitude; cbn. f_equal. ring.
Qed.

Lemma splitLoop_spec (a : Asteroid.t) (n : nat) (i : Z)
    (g : Js.RandomSource) (fragments : list Asteroid.t) :
  Js.uniform g ->
  0 <= Asteroid.radius a ->
  Forall (fragmentOf a) fragments ->
  let r := Asteroid.splitLoop a (nextSmaller (Asteroid.size a)) n i g fragments in
  Forall (fragmentOf a) (fst r) /\
  length (fst r) = (length fragments + n)%nat /\
  Js.draws (snd r) = Js.draws g.
Proof.
  intros Hu Hradius. revert i g fragments Hu.
  induction n as [| n IH]; intros i g fragments Hu Hall.
  - cbn. split; [exact Hall | split; [lia | reflexivity]].
  - cbn [Asteroid.splitLoop]. unfold Js.random. cbn [fst snd Js.draws Js.cursor].
    set (r1 := Js.draws g (Js.cursor g)).
    set (r2 := Js.draws g (S (Js.cursor g))).
    set (r3 := Js.draws g (S (S (Js.cursor g)))).
    set (angle := IZR i / IZR (Asteroid.splitCount a) * PI * 2 + r1 * 0.5).
    set (g3 := {| Js.draws := Js.draws g; Js.cursor := S (S (S (Js.cursor g))) |}).
    match goal with
    | |- context [Asteroid.new ?o g3] =>
        pose proof (new_spec o g3 (uniform_draws g g3 eq_refl Hu)) as Hnew;
        destruct (Asteroid.new o g3) as [fragment g4]
    end.
    cbn [fst snd Asteroid.o_size Asteroid.o_position Asteroid.o_velocity
         Js.orObject] in Hnew.
    destruct Hnew as (Hd4 & Hsized & Hsize & Hpos & Hvel & Hact & _).
    assert (Hfrag : fragmentOf a fragment).
    { unfold fragmentOf. repeat split; try assumption.
      exists angle, (50 + r2 * 100).
      assert (Hr2 : 0 <= r2 < 1) by apply Hu.
      split; [lra |]. split; [apply fromAngle_magnitude; lra |].
      rewrite Hvel, Hpos, !clone_eq. split; [reflexivity |].
      split; [reflexivity |]. apply distanceTo_offset. lra. }
    destruct (IH (i + 1)%Z g4 (fragments ++ [fragment])
                (uniform_draws g g4 Hd4 Hu)) as (Hall' & Hlen & Hd).
    { apply Forall_app. split; [exact Hall | constructor; [exact Hfrag | constructor]]. }
    cbn zeta in *. split; [exact Hall' |]. split.
    + rewrite Hlen, length_app. cbn. lia.
    + rewrite Hd. exact Hd4.
Qed.

Lemma sized_radius (a : Asteroid.t) : sized a -> 0 <= Asteroid.radius a.
Proof. unfold sized. destruct (Asteroid.size a); intros [Hr _]; lra. Qed.

(** C2, as the code has it. For a large or medium asteroid, [split()]
    produces [splitCount] fragments, 2 or 3 of them, of the next-smaller
    size, each with velocity a vector of magnitude in [50, 150) plus 30% of
    the parent's velocity and position 30% of the parent's radius away from
    the parent's centre, and sets the parent's [isActive] to false; for a
    small asteroid it returns the empty list and leaves the asteroid as it
    was (its deactivation is left to [EntityManager.destroyAsteroid]). *)
Theorem split_fragments :
  forall (a : Asteroid.t) (g : Js.RandomSource),
    Js.uniform g ->
    sized a ->
    let fragments := fst (fst (Asteroid.split a g)) in
    let a' := snd (fst (Asteroid.split a g)) in
    match Asteroid.size a with
    | Asteroid.small => fragments = [] /\ a' = a
    | _ =>
        (Asteroid.splitCount a = 2%Z \/ Asteroid.splitCount a = 3%Z) /\
        Z.of_nat (length fragments) = Asteroid.splitCount a /\
        Forall (fragmentOf a) fragments /\
        a' = Asteroid.set_isActive false a /\
        Asteroid.isActive a' = false
    end.
Proof.
  intros a g Hu Hsized. pose proof (sized_radius a Hsized) as Hradius.
  unfold Asteroid.split.
  replace (if decide (Asteroid.size a = Asteroid.large)
           then Asteroid.medium else Asteroid.small)
    with (nextSmaller (Asteroid.size a))
    by (destruct (Asteroid.size a); reflexivity).
  pose proof (splitLoop_spec a (Z.to_nat (Asteroid.splitCount a)) 0 g []
                Hu Hradius (List.Forall_nil _)) as Hloop.
  destruct (Asteroid.splitLoop _ _ _ _ _ _) as [fragments g'].
  cbn [fst snd] in Hloop. destruct Hloop as (Hall & Hlen & _).
  unfold sized in Hsized.
  destruct (Asteroid.size a); destruct Hsized as [_ Hcount].
  - assert (Hnz : (Asteroid.splitCount a =? 0)%Z = false)
      by (apply Z.eqb_neq; lia).
    rewrite Hnz. cbn [fst snd]. repeat split; auto.
    rewrite Hlen. cbn. lia.
  - assert (Hnz : (Asteroid.splitCount a =? 0)%Z = false)
      by (apply Z.eqb_neq; lia).
    rewrite Hnz. cbn [fst snd]. repeat split; auto.
    rewrite Hlen. cbn. lia.
  - rewrite Hcount. cbn. auto.
Qed.

Lemma halves_uniform : Js.uniform halves.
Proof. intros n. cbn. lra. Qed.

Lemma largeAsteroid_sized : sized largeAsteroid.
Proof. unfold sized; cbn. split; [lra | auto]. Qed.

Lemma split_fragments_witness :
  Js.uniform halves /\ sized largeAsteroid /\
  Z.of_nat (length (fst (fst (Asteroid.split largeAsteroid halves)))) = 2%Z /\
  Asteroid.isActive (snd (fst (Asteroid.split largeAsteroid halves))) = false.
Proof.
  pose proof (split_fragments largeAsteroid halves halves_uniform
                largeAsteroid_sized) as H.
  cbn zeta in H. cbn [largeAsteroid Asteroid.size] in H.
  destruct H as (_ & Hlen & _ & _ & Hact).
  exact (conj halves_uniform (conj largeAsteroid_sized (conj Hlen Hact))).
Defined.

(** C2, as stated, fails for a small asteroid: [split()] returns the empty
    list and the asteroid is still active. *)
Lemma split_leaves_small_asteroid_active :
  sized smallAsteroid /\
  fst (fst (Asteroid.split smallAsteroid halves)) = [] /\
  Asteroid.isActive (snd (fst (Asteroid.split smallAsteroid halves))) = true.
Proof.
  split; [| split; reflexivity].
  unfold sized; cbn. split; [lra | reflexivity].
Qed.

(** ** Spawning an asteroid field *)

Lemma attempt_shift (g : Js.RandomSource) (screenWidth screenHeight : R)
    (start k : nat) :
  attempt g screenWidth screenHeight (S (S start)) k
  = attempt g screenWidth screenHeight start (S k).
Proof.
  unfold attempt. f_equal; f_equal; f_equal; lia.
Qed.

(** The placement loop returns a position at the safe distance, or, every
    attempt having fallen short, the last attempt. *)
Lemma createRandomLoop_spec (playerPosition : Vector2D.t)
    (screenWidth screenHeight safeDistance : R) (left : nat)
    (g : Js.RandomSource) :
  let r := Asteroid.createRandomLoop playerPosition screenWidth screenHeight
             safeDistance left g in
  Js.draws (snd r) = Js.draws g /\
  (safeDistance <= Vector2D.distanceTo (fst r) playerPosition \/
   ((forall k : nat, (k <= left)%nat ->
       Vector2D.distanceTo
         (attempt g screenWidth screenHeight (Js.cursor g) k) playerPosition
       < safeDistance) /\
    fst r = attempt g screenWidth screenHeight (Js.cursor g) left)).
Proof.
  revert g. induction left as [| left IH]; intros g;
    cbn [Asteroid.createRandomLoop]; unfold Js.random;
    cbn [fst snd Js.draws Js.cursor].
  - split; [reflexivity |].
    set (p := Vector2D.mk _ _).
    assert (Hp : p = attempt g screenWidth screenHeight (Js.cursor g) 0).
    { unfold attempt, p. f_equal; f_equal; f_equal; lia. }
    destruct (Rlt_dec (Vector2D.distanceTo p playerPosition) safeDistance)
      as [Hlt | Hge]; [right | left; lra].
    split; [| exact Hp]. intros k Hk. replace k with 0%nat by lia.
    rewrite <- Hp. exact Hlt.
  - set (p := Vector2D.mk _ _).
    assert (Hp : p = attempt g screenWidth screenHeight (Js.cursor g) 0).
    { unfold attempt, p. f_equal; f_equal; f_equal; lia. }
    destruct (Rlt_dec (Vector2D.distanceTo p playerPosition) safeDistance)
      as [Hlt | Hge]; [| cbn; split; [reflexivity | left; lra]].
    set (g2 := {| Js.draws := Js.draws g; Js.cursor := S (S (Js.cursor g)) |}).
    destruct (IH g2) as [Hd Hr]. cbn zeta in *.
    split; [exact Hd |].
    destruct Hr as [Hsafe | [Hall Hlast]]; [left; exact Hsafe | right].
    cbn [Js.cursor Js.draws g2] in Hall, Hlast.
    assert (Hshift : forall k,
               attempt g2 screenWidth screenHeight (S (S (Js.cursor g))) k
               = attempt g screenWidth screenHeight (Js.cursor g) (S k))
      by (intros k;
          exact (attempt_shift g screenWidth screenHeight (Js.cursor g) k)).
    split.
    + intros [| k] Hk; [rewrite <- Hp; exact Hlt |].
      rewrite <- Hshift. apply Hall. lia.
    + rewrite Hlast. apply Hshift.
Qed.

(** [createRandom] builds an active asteroid of the requested size at the
    position its placement loop returns. *)
Lemma createRandom_spec (playerPosition : Vector2D.t) (size : Asteroid.Size)
    (screenWidth screenHeight safeDistance : R) (g : Js.RandomSource) :
  Js.uniform g ->
  let r := Asteroid.createRandom playerPosition size screenWidth screenHeight
             safeDistance g in
  Js.draws (snd r) = Js.draws g /\
  Asteroid.isActive (fst r) = true /\
  Asteroid.size (fst r) = size /\
  sized (fst r) /\
  placement g screenWidth screenHeight playerPosition safeDistance
    (Asteroid.position (fst r)).
Proof.
  intros Hu. unfold Asteroid.createRandom.
  pose proof (createRandomLoop_spec playerPosition screenWidth screenHeight
                safeDistance (Asteroid.maxAttempts - 1) g) as Hloop.
  destruct (Asteroid.createRandomLoop _ _ _ _ _ g) as [position g1].
  cbn [fst snd] in Hloop. destruct Hloop as [Hd1 Hplace].
  unfold Js.random. cbn [fst snd Js.draws Js.cursor].
  match goal with
  | |- context [Asteroid.new ?o ?g2] =>
      assert (Hd2 : Js.draws g2 = Js.draws g) by exact Hd1;
      pose proof (new_spec o g2 (uniform_draws g g2 Hd2 Hu)) as Hnew;
      destruct (Asteroid.new o g2) as [a g3]
  end.
  cbn [fst snd Asteroid.o_size Asteroid.o_position Asteroid.o_velocity
       Js.orObject] in *.
  destruct Hnew as (Hd3 & Hsized & Hsize & Hpos & _ & Hact & _).
  split; [congruence |]. repeat split; try assumption.
  rewrite Hpos. unfold placement.
  destruct Hplace as [Hsafe | [Hall Hlast]]; [left; exact Hsafe | right].
  exists (Js.cursor g). split; [| exact Hlast].
  intros k Hk. apply Hall. unfold Asteroid.maxAttempts. lia.
Qed.

(** What [createField] and the manager's registration keep of each new
    asteroid. *)
Lemma createFieldLoop_spec (P : Asteroid.t -> Prop)
    (playerPosition : Vector2D.t) (sizes : list Asteroid.Size)
    (screenWidth screenHeight : R) (g0 : Js.RandomSource) :
  (forall size g, Js.draws g = Js.draws g0 ->
     P (fst (Asteroid.createRandom playerPosition size screenWidth
               screenHeight 120 g))) ->
  Js.uniform g0 ->
  forall (n i : nat) (g : Js.RandomSource) (asteroids : list Asteroid.t),
    Js.draws g = Js.draws g0 ->
    Forall P asteroids ->
    let r := Asteroid.createFieldLoop playerPosition sizes screenWidth
               screenHeight n i g asteroids in
    Forall P (fst r) /\
    length (fst r) = (length asteroids + n)%nat /\
    Js.draws (snd r) = Js.draws g0.
Proof.
  intros HP Hu. induction n as [| n IH]; intros i g asteroids Hd Hall.
  - cbn. split; [exact Hall | split; [lia | exact Hd]].
  - cbn [Asteroid.createFieldLoop].
    pose proof (HP (nth (i mod length sizes) sizes Asteroid.large) g Hd) as Hone.
    pose proof (createRandom_spec playerPosition
                  (nth (i mod length sizes) sizes Asteroid.large)
                  screenWidth screenHeight 120 g
                  (uniform_draws g0 g Hd Hu)) as (Hd' & _).
    destruct (Asteroid.createRandom _ _ _ _ _ g) as [asteroid g'].
    cbn [fst snd] in *.
    destruct (IH (S i) g' (asteroids ++ [asteroid])) as (Hall' & Hlen & Hdraws).
    + congruence.
    + apply Forall_app. split; [exact Hall | constructor; [exact Hone | constructor]].
    + cbn zeta in *. split; [exact Hall' |]. split; [| exact Hdraws].
      rewrite Hlen, length_app. cbn. lia.
Qed.

Lemma registerAsteroids_fold_spec (new : list Asteroid.t)
    (st : list Asteroid.t * EntityManager.t) :
  let r := fold_left EntityManager.registerAsteroid new st in
  exists registered : list Asteroid.t,
    fst r = fst st ++ registered /\
    EntityManager.asteroids (snd r)
    = EntityManager.asteroids (snd st) ++ registered /\
    Forall2 (fun a b => exists i, b = Asteroid.set_id i a) new registered /\
    EntityManager.screenWidth (snd r) = EntityManager.screenWidth (snd st) /\
    EntityManager.screenHeight (snd r) = EntityManager.screenHeight (snd st).
Proof.
  revert st. induction new as [| a new IH]; intros [acc m]; cbn [fold_left].
  - exists []. cbn. rewrite !app_nil_r. repeat split. constructor.
  - destruct (IH (EntityManager.registerAsteroid (acc, m) a))
      as (registered & Hfst & Hast & Hall & Hw & Hh).
    cbn zeta in *. cbn [EntityManager.registerAsteroid fst snd] in *.
    exists (Asteroid.set_id (Some (EntityManager.nextEntityId m)) a :: registered).
    rewrite Hfst, Hast, Hw, Hh. cbn. rewrite <- !app_assoc. cbn.
    repeat split. constructor; [eauto | exact Hall].
Qed.

Lemma Forall2_set_id (P : Asteroid.t -> Prop)
    (new registered : list Asteroid.t) :
  (forall a i, P a -> P (Asteroid.set_id i a)) ->
  Forall2 (fun a b => exists i, b = Asteroid.set_id i a) new registered ->
  Forall P new -> Forall P registered.
Proof.
  intros Hset H2. induction H2 as [| a b new registered (i & ->) _ IH];
    intros Hall; [constructor |].
  apply Forall_cons_iff in Hall. destruct Hall as [Ha Hall].
  constructor; [apply Hset, Ha | apply IH, Hall].
Qed.

(** [createAsteroidField] appends [count] new active asteroids, each
    placed by [createRandom] with the safe distance 120. *)
Lemma createAsteroidField_spec (m : EntityManager.t) (count : Z)
    (playerPosition : Vector2D.t) (difficulty : Difficulty.t)
    (g : Js.RandomSource) :
  Js.uniform g ->
  let r := EntityManager.createAsteroidField m count playerPosition
             difficulty g in
  exists field : list Asteroid.t,
    EntityManager.asteroids (snd (fst r)) = EntityManager.asteroids m ++ field /\
    length field = Z.to_nat count /\
    Forall (fun a =>
              Asteroid.isActive a = true /\
              placement g (EntityManager.screenWidth m)
                (EntityManager.screenHeight m) playerPosition 120
                (Asteroid.position a)) field.
Proof.
  intros Hu. unfold EntityManager.createAsteroidField, Asteroid.createField.
  set (P := fun a : Asteroid.t =>
              Asteroid.isActive a = true /\
              placement g (EntityManager.screenWidth m)
                (EntityManager.screenHeight m) playerPosition 120
                (Asteroid.position a)).
  assert (HP : forall size g', Js.draws g' = Js.draws g ->
             P (fst (Asteroid.createRandom playerPosition size
                       (EntityManager.screenWidth m)
                       (EntityManager.screenHeight m) 120 g'))).
  { intros size g' Hd.
    destruct (createRandom_spec playerPosition size
                (EntityManager.screenWidth m) (EntityManager.screenHeight m)
                120 g' (uniform_draws g g' Hd Hu))
      as (_ & Hact & _ & _ & Hplace).
    split; [exact Hact |]. unfold placement in *. unfold attempt in *.
    rewrite Hd in Hplace. exact Hplace. }
  destruct (createFieldLoop_spec P playerPosition
              (Asteroid.sizeDistribution difficulty)
              (EntityManager.screenWidth m) (EntityManager.screenHeight m)
              g HP Hu (Z.to_nat count) 0%nat g [] eq_refl (List.Forall_nil _))
    as (Hall & Hlen & _).
  destruct (Asteroid.createFieldLoop _ _ _ _ _ _ _ _) as [new g'].
  cbn [fst snd] in Hall, Hlen.
  unfold EntityManager.registerAsteroids.
  destruct (registerAsteroids_fold_spec new ([], m))
    as (registered & Hfst & Hast & H2 & _).
  destruct (fold_left EntityManager.registerAsteroid new ([], m)) as [reg m'].
  cbn [fst snd] in *. exists registered. split; [exact Hast |]. split.
  - assert (Hl := H2). apply Forall2_length in Hl. rewrite <- Hl. exact Hlen.
  - apply (Forall2_set_id P new registered); [| exact H2 | exact Hall].
    intros a i Ha. exact Ha.
Qed.

(** ** Completing a level *)

Lemma completeLevel_spec (s : GameState.t) (now : R) :
  let s' := snd (GameState.completeLevel s now) in
  GameState.score s' = GameState.score s + 500 /\
  GameState.level s' = (GameState.level s + 1)%Z /\
  GameState.difficulty s' = GameState.difficulty s /\
  GameState.gamePhase s' = GameState.gamePhase s.
Proof.
  unfold GameState.completeLevel, GameState.awardLevelBonus.
  destruct (addScore_fields s GameState.levelBonus "level-bonus")
    as (Hscore & Hlevel & Hdiff & Hphase & _).
  destruct (GameState.addScore s GameState.levelBonus "level-bonus") as [r s1].
  cbn in *. rewrite Hscore, Hlevel, Hdiff, Hphase.
  unfold GameState.levelBonus. repeat split.
Qed.

Lemma count_zero_inactive {A : Type} (f : A -> bool) (l : list A) :
  length (List.filter f l) = 0%nat -> Forall (fun x => f x = false) l.
Proof.
  induction l as [| x l IH]; cbn; intros Hlen; [constructor |].
  destruct (f x) eqn:Hx; [discriminate |]. constructor; auto.
Qed.

Lemma filter_all_true {A : Type} (f : A -> bool) (l : list A) :
  Forall (fun x => f x = true) l -> List.filter f l = l.
Proof.
  induction 1 as [| x l Hx _ IH]; cbn; [reflexivity |].
  rewrite Hx, IH. reflexivity.
Qed.

Lemma filter_all_false {A : Type} (f : A -> bool) (l : list A) :
  Forall (fun x => f x = false) l -> List.filter f l = [].
Proof.
  induction 1 as [| x l Hx _ IH]; cbn; [reflexivity |].
  rewrite Hx, IH. reflexivity.
Qed.

(** [handleLevelComplete] with a ship: 500 points, one level up, and a
    field of [baseAsteroidCount + floor((level - 1) / 3)] new active
    asteroids for the new level, appended to the manager's array and placed
    by [createRandom] around the ship. *)
Lemma handleLevelComplete_spec (gm : Game.t) (s : Ship.t) (now : R)
    (g : Js.RandomSource) :
  Js.uniform g ->
  Game.ship gm = Some s ->
  exists (gm' : Game.t) (g' : Js.RandomSource) (field : list Asteroid.t),
    Game.handleLevelComplete gm now g = Some (gm', g') /\
    Game.ship gm' = Some s /\
    GameState.score (Game.gameState gm')
    = GameState.score (Game.gameState gm) + 500 /\
    GameState.level (Game.gameState gm')
    = (GameState.level (Game.gameState gm) + 1)%Z /\
    EntityManager.asteroids (Game.entityManager gm')
    = EntityManager.asteroids (Game.entityManager gm) ++ field /\
    length field
    = Z.to_nat
        (GameState.baseAsteroidCount
           (GameState.difficultySettings
              (GameState.difficulty (Game.gameState gm)))
         + (GameState.level (Game.gameState gm') - 1) / 3) /\
    Forall (fun a =>
              Asteroid.isActive a = true /\
              placement g (EntityManager.screenWidth (Game.entityManager gm))
                (EntityManager.screenHeight (Game.entityManager gm))
                (Ship.position s) 120 (Asteroid.position a)) field.
Proof.
  intros Hu Hs. unfold Game.handleLevelComplete.
  destruct (completeLevel_spec (Game.gameState gm) now)
    as (Hscore & Hlevel & Hdiff & _).
  destruct (GameState.completeLevel (Game.gameState gm) now) as [r gs].
  cbn [snd] in *.
  cbn [Game.ship Game.set_gameState Game.gameState Game.entityManager
       Game.selectedDifficulty].
  rewrite Hs.
  destruct (createAsteroidField_spec (Game.entityManager gm)
              (GameState.getAsteroidCountForLevel gs) (Ship.position s)
              (Game.selectedDifficulty gm) g Hu)
    as (field & Hast & Hlen & Hall).
  destruct (EntityManager.createAsteroidField _ _ _ _ g) as [[created m] g'].
  cbn [fst snd] in *.
  eexists _, g', field. split; [reflexivity |].
  cbn [Game.ship Game.set_gameState Game.set_entityManager Game.gameState
       Game.entityManager].
  repeat split; try assumption.
  rewrite Hlen. unfold GameState.getAsteroidCountForLevel.
  rewrite Hdiff. reflexivity.
Qed.

(** ** One update of the orchestrator *)

Lemma quiet_app (l1 l2 : list string) : quiet l1 -> quiet l2 -> quiet (l1 ++ l2).
Proof. unfold quiet. intros H1 H2. apply Forall_app. auto. Qed.

Lemma quiet_single (a : string) :
  a <> "toggle-pause" -> a <> "escape" -> quiet [a].
Proof. intros H1 H2. repeat constructor; assumption. Qed.

(** Without a fresh press of the pause or the escape key, [processInput]
    returns a quiet list of actions and keeps the ship a ship. *)
Lemma processInput_quiet (im : InputManager.t) (s : Ship.t)
    (gs : GameState.t) (deltaTime currentTime : R) :
  InputManager.wasJustPressed im InputManager.pause = false ->
  InputManager.wasJustPressed im InputManager.escape = false ->
  let r := InputManager.processInput im (Some s) gs deltaTime currentTime in
  quiet (InputManager.actions (fst (fst r))) /\
  exists s1, snd r = Some s1.
Proof.
  intros Hpause Hescape. unfold InputManager.processInput.
  rewrite Hpause, Hescape, !andb_false_r.
  destruct (GameState.isPaused gs); [cbn; split; [constructor | eauto] |].
  destruct (InputManager.isPressed im InputManager.rotateLeft);
    destruct (InputManager.isPressed im InputManager.rotateRight);
    destruct (InputManager.isPressed im InputManager.thrust);
    cbn [app];
    match goal with
    | |- context [InputManager.autoFireEnabled im && Ship.canFire ?x currentTime] =>
        destruct (InputManager.autoFireEnabled im && Ship.canFire x currentTime);
        [destruct (Ship.createProjectile x currentTime) as [[d |] s2] |]
    end;
    cbn; (split; [| eauto]);
    repeat (constructor; [split; discriminate |]); constructor.
Qed.

Lemma handleInputActions_quiet (gm : Game.t) (actions : list string) :
  quiet actions -> Game.handleInputActions gm actions = gm.
Proof.
  unfold Game.handleInputActions, quiet.
  induction 1 as [| a actions [Hp He] _ IH]; cbn [fold_left]; [reflexivity |].
  apply String.eqb_neq in Hp, He. rewrite Hp, He. exact IH.
Qed.

(** What [createProjectile], the manager's [update] and the engine's
    [updateEntities] leave alone. *)
Lemma createProjectile_asteroids (m : EntityManager.t)
    (o : EntityManager.projectileOptions) :
  let m' := snd (EntityManager.createProjectile m o) in
  EntityManager.asteroids m' = EntityManager.asteroids m /\
  EntityManager.screenWidth m' = EntityManager.screenWidth m /\
  EntityManager.screenHeight m' = EntityManager.screenHeight m.
Proof.
  unfold EntityManager.createProjectile.
  destruct (EntityManager.pop (EntityManager.projectilePool m)) as [[q pool] |];
    cbn; repeat split.
Qed.

Lemma cleanupInactiveEntities_asteroids (m : EntityManager.t) :
  let m' := EntityManager.cleanupInactiveEntities m in
  EntityManager.asteroids m'
  = List.filter Asteroid.isActive (EntityManager.asteroids m) /\
  EntityManager.screenWidth m' = EntityManager.screenWidth m /\
  EntityManager.screenHeight m' = EntityManager.screenHeight m.
Proof.
  unfold EntityManager.cleanupInactiveEntities.
  cbn [EntityManager.maxPoolSize EntityManager.set_asteroids
       EntityManager.projectiles EntityManager.projectilePool].
  destruct (fold_left (EntityManager.cleanupProjectile _) _ _) as [kept pool].
  cbn [EntityManager.maxPoolSize EntityManager.set_projectiles
       EntityManager.set_projectilePool EntityManager.particles
       EntityManager.particlePool].
  destruct (fold_left (EntityManager.cleanupParticle _) _ _) as [kept' pool'].
  cbn. repeat split.
Qed.

(** With no active asteroid, the manager's [update] leaves no asteroid. *)
Lemma update_clears_asteroids (m : EntityManager.t) (deltaTime : R) :
  EntityManager.countAsteroids (EntityManager.getEntityCounts m) = 0%nat ->
  let m' := EntityManager.update m deltaTime in
  EntityManager.asteroids m' = [] /\
  EntityManager.screenWidth m' = EntityManager.screenWidth m /\
  EntityManager.screenHeight m' = EntityManager.screenHeight m.
Proof.
  intros Hcount. cbn in Hcount. apply count_zero_inactive in Hcount.
  unfold EntityManager.update.
  match goal with
  | |- context [EntityManager.cleanupInactiveEntities ?m1] =>
      destruct (cleanupInactiveEntities_asteroids m1) as (Hast & Hw & Hh)
  end.
  cbn zeta in *. rewrite Hast, Hw, Hh. cbn. split; [| split; reflexivity].
  apply filter_all_false.
  clear Hast Hw Hh. rewrite List.Forall_forall in Hcount.
  apply List.Forall_forall. intros a Hin. apply in_map_iff in Hin.
  destruct Hin as (a0 & <- & Hin). rewrite (Hcount a0 Hin). exact (Hcount a0 Hin).
Qed.

Lemma getAllActiveEntities_no_asteroid (m : EntityManager.t) :
  EntityManager.asteroids m = [] ->
  Forall notAsteroidRef (EntityManager.getAllActiveEntities m).
Proof.
  intros Hnone. unfold EntityManager.getAllActiveEntities. rewrite Hnone. cbn.
  apply List.Forall_forall. intros h Hin. apply in_map_iff in Hin.
  destruct Hin as (i & <- & _). exact I.
Qed.

Lemma updateAt_frame (gm : Game.t) (h : Handle) (deltaTime : R) :
  notAsteroidRef h ->
  let gm' := Game.updateAt gm h deltaTime in
  Game.gameState gm' = Game.gameState gm /\
  Game.selectedDifficulty gm' = Game.selectedDifficulty gm /\
  Game.physicsEngine gm' = Game.physicsEngine gm /\
  EntityManager.asteroids (Game.entityManager gm')
  = EntityManager.asteroids (Game.entityManager gm) /\
  EntityManager.screenWidth (Game.entityManager gm')
  = EntityManager.screenWidth (Game.entityManager gm) /\
  EntityManager.screenHeight (Game.entityManager gm')
  = EntityManager.screenHeight (Game.entityManager gm) /\
  (is_Some (Game.ship gm) -> is_Some (Game.ship gm')).
Proof.
  destruct h as [| i | i]; cbn; intros Hh; [| contradiction |];
    repeat split; try reflexivity.
  - intros [s ->]. cbn. eauto.
  - auto.
Qed.

Lemma updateEntity_frame (e : PhysicsEngine.t Handle) (deltaTime : R)
    (st : nat * nat * Game.t) (h : Handle) :
  notAsteroidRef h ->
  let gm := snd st in
  let gm' := snd (PhysicsEngine.updateEntity e deltaTime st h) in
  Game.gameState gm' = Game.gameState gm /\
  Game.selectedDifficulty gm' = Game.selectedDifficulty gm /\
  Game.physicsEngine gm' = Game.physicsEngine gm /\
  EntityManager.asteroids (Game.entityManager gm')
  = EntityManager.asteroids (Game.entityManager gm) /\
  EntityManager.screenWidth (Game.entityManager gm')
  = EntityManager.screenWidth (Game.entityManager gm) /\
  EntityManager.screenHeight (Game.entityManager gm')
  = EntityManager.screenHeight (Game.entityManager gm) /\
  (is_Some (Game.ship gm) -> is_Some (Game.ship gm')).
Proof.
  intros Hh. destruct st as [[n w] gm]. unfold PhysicsEngine.updateEntity.
  cbn [snd PhysicsEngine.entityAt PhysicsEngine.updateAt Game.store].
  destruct (Game.entityAt gm h) as [entity |]; [| cbn [snd]; auto 10].
  destruct (negb (PhysicsEngine.notInactive entity)); [cbn [snd]; auto 10 |].
  pose proof (updateAt_frame gm h deltaTime Hh) as Hframe. cbn zeta in Hframe.
  match goal with
  | |- context [if ?b then _ else _] => destruct b
  end; cbn [snd]; exact Hframe.
Qed.

Lemma updateEntities_frame (e : PhysicsEngine.t Handle) (deltaTime : R)
    (handles : list Handle) (st : nat * nat * Game.t) :
  Forall notAsteroidRef handles ->
  let gm := snd st in
  let gm' := snd (fold_left (PhysicsEngine.updateEntity e deltaTime) handles st) in
  Game.gameState gm' = Game.gameState gm /\
  Game.selectedDifficulty gm' = Game.selectedDifficulty gm /\
  Game.physicsEngine gm' = Game.physicsEngine gm /\
  EntityManager.asteroids (Game.entityManager gm')
  = EntityManager.asteroids (Game.entityManager gm) /\
  EntityManager.screenWidth (Game.entityManager gm')
  = EntityManager.screenWidth (Game.entityManager gm) /\
  EntityManager.screenHeight (Game.entityManager gm')
  = EntityManager.screenHeight (Game.entityManager gm) /\
  (is_Some (Game.ship gm) -> is_Some (Game.ship gm')).
Proof.
  intros Hall. revert st.
  induction Hall as [| h handles Hh _ IH]; intros st; cbn [fold_left].
  - cbn zeta. auto 10.
  - destruct (IH (PhysicsEngine.updateEntity e deltaTime st h))
      as (H1 & H2 & H3 & H4 & H5 & H6 & H7).
    destruct (updateEntity_frame e deltaTime st h Hh)
      as (F1 & F2 & F3 & F4 & F5 & F6 & F7).
    cbn zeta. rewrite H1, H2, H3, H4, H5, H6, F1, F2, F3, F4, F5, F6.
    auto 10.
Qed.

Lemma entityAt_type (gm : Game.t) (h : Handle) (entity : Game.Entity) :
  notAsteroidRef h ->
  Game.entityAt gm h = Some entity ->
  PhysicsEngine.type entity <> Some asteroidType.
Proof.
  destruct h as [| i | i]; cbn; intros Hh Hat; [| contradiction |].
  - destruct (Game.ship gm); [| discriminate]. injection Hat as <-. discriminate.
  - destruct (_ !! i); [| discriminate]. injection Hat as <-. discriminate.
Qed.

(** A record that involves no entity tagged as an asteroid is left alone
    by [handleCollisions]. *)
Lemma handleCollision_no_asteroid (gm : Game.t) (c : Game.Collision) (now : R)
    (g : Js.RandomSource) :
  PhysicsEngine.type (PhysicsEngine.entityA c) <> Some asteroidType ->
  PhysicsEngine.type (PhysicsEngine.entityB c) <> Some asteroidType ->
  Game.handleCollision gm c now g = (gm, g).
Proof.
  intros HA HB. unfold Game.handleCollision, Game.hasType.
  rewrite (bool_decide_eq_false_2 _ HA), (bool_decide_eq_false_2 _ HB).
  rewrite !andb_false_r. reflexivity.
Qed.

Lemma handleCollisions_no_asteroid (gm : Game.t)
    (collisions : list Game.Collision) (now : R) (g : Js.RandomSource) :
  Forall (fun c =>
            PhysicsEngine.type (PhysicsEngine.entityA c) <> Some asteroidType /\
            PhysicsEngine.type (PhysicsEngine.entityB c) <> Some asteroidType)
    collisions ->
  Game.handleCollisions gm collisions now g = (gm, g).
Proof.
  unfold Game.handleCollisions.
  induction 1 as [| c collisions [HA HB] _ IH]; cbn [fold_left]; [reflexivity |].
  rewrite (handleCollision_no_asteroid gm c now g HA HB). exact IH.
Qed.

Lemma gameState_update_fields (s : GameState.t) (deltaTime : R) :
  let s' := GameState.update s deltaTime in
  GameState.score s' = GameState.score s /\
  GameState.level s' = GameState.level s /\
  GameState.difficulty s' = GameState.difficulty s /\
  GameState.gamePhase s' = GameState.gamePhase s /\
  GameState.isPaused s' = GameState.isPaused s /\
  GameState.isGameOver s' = GameState.isGameOver s.
Proof.
  unfold GameState.update. destruct (decide _); cbn; repeat split.
Qed.

(** The state in which an update that started without active asteroids
    reaches its level-completion step: the score, level and difficulty it
    started with, a ship, and no asteroid left in the manager. *)
Lemma update_reaches_level_complete (gm : Game.t) (s : Ship.t)
    (deltaTime currentTime now : R) (g : Js.RandomSource) :
  Game.ship gm = Some s ->
  GameState.gamePhase (Game.gameState gm) = GameState.playing ->
  GameState.isPaused (Game.gameState gm) = false ->
  GameState.isGameOver (Game.gameState gm) = false ->
  InputManager.wasJustPressed (Game.inputManager gm) InputManager.pause = false ->
  InputManager.wasJustPressed (Game.inputManager gm) InputManager.escape = false ->
  EntityManager.countAsteroids
    (EntityManager.getEntityCounts (Game.entityManager gm)) = 0%nat ->
  exists (gm1 : Game.t) (s1 : Ship.t),
    Game.update gm deltaTime currentTime now g
    = Game.handleLevelComplete gm1 now g /\
    Game.ship gm1 = Some s1 /\
    GameState.score (Game.gameState gm1) = GameState.score (Game.gameState gm) /\
    GameState.level (Game.gameState gm1) = GameState.level (Game.gameState gm) /\
    GameState.difficulty (Game.gameState gm1)
    = GameState.difficulty (Game.gameState gm) /\
    EntityManager.asteroids (Game.entityManager gm1) = [] /\
    EntityManager.screenWidth (Game.entityManager gm1)
    = EntityManager.screenWidth (Game.entityManager gm) /\
    EntityManager.screenHeight (Game.entityManager gm1)
    = EntityManager.screenHeight (Game.entityManager gm).
Proof.
  intros Hs Hphase Hpaused Hover Hpause Hescape Hcount.
  unfold Game.update. rewrite Hcount. cbn [Nat.eqb].
  destruct (gameState_update_fields (Game.gameState gm) deltaTime)
    as (Uscore & Ulevel & Udiff & Uphase & Upaused & Uover).
  cbn zeta in *.
  set (gs0 := GameState.update (Game.gameState gm) deltaTime) in *.
  cbn [Game.inputManager Game.ship Game.gameState Game.set_gameState].
  rewrite Hs.
  destruct (processInput_quiet (Game.inputManager gm) s gs0 deltaTime
              currentTime Hpause Hescape) as (Hquiet & s1 & Hship).
  destruct (InputManager.processInput _ _ _ _ _) as [[inputResult im] so].
  cbn [fst snd] in Hquiet, Hship. subst so.
  rewrite (handleInputActions_quiet _ _ Hquiet).
  cbn [Game.gameState Game.set_ship Game.set_inputManager Game.set_gameState].
  rewrite Upaused, Uover, Uphase, Hpaused, Hover, Hphase.
  cbn [orb bool_decide decide_rel].
  rewrite bool_decide_eq_false_2 by discriminate.
  set (gmA := Game.set_ship (Some s1) _).
  set (gmB := match InputManager.newProjectile inputResult with
              | Some d => _
              | None => gmA
              end).
  assert (HB : Game.ship gmB = Some s1 /\
               GameState.score (Game.gameState gmB) = GameState.score gs0 /\
               GameState.level (Game.gameState gmB) = GameState.level gs0 /\
               GameState.difficulty (Game.gameState gmB) = GameState.difficulty gs0 /\
               EntityManager.asteroids (Game.entityManager gmB)
               = EntityManager.asteroids (Game.entityManager gm) /\
               EntityManager.screenWidth (Game.entityManager gmB)
               = EntityManager.screenWidth (Game.entityManager gm) /\
               EntityManager.screenHeight (Game.entityManager gmB)
               = EntityManager.screenHeight (Game.entityManager gm)).
  { subst gmB. destruct (InputManager.newProjectile inputResult) as [d |].
    - destruct (createProjectile_asteroids (Game.entityManager gmA)
                  (Game.projectileOptionsOf d)) as (H1 & H2 & H3).
      destruct (EntityManager.createProjectile _ _) as [p m]. cbn in *.
      auto 10.
    - cbn. auto 10. }
  clearbody gmB. destruct HB as (B1 & B2 & B3 & B4 & B5 & B6 & B7).
  assert (HcountB : EntityManager.countAsteroids
                      (EntityManager.getEntityCounts (Game.entityManager gmB))
                    = 0%nat).
  { cbn. rewrite B5. exact Hcount. }
  destruct (update_clears_asteroids (Game.entityManager gmB) deltaTime HcountB)
    as (C1 & C2 & C3).
  cbn zeta in *.
  cbn [Game.ship Game.set_ship Game.entityManager Game.set_entityManager
       Game.physicsEngine].
  rewrite B1. cbn [fmap option_fmap option_map].
  set (mC := EntityManager.update (Game.entityManager gmB) deltaTime) in *.
  set (gmC := Game.set_entityManager mC _).
  set (handles := EntityManager.getAllActiveEntities mC ++ [shipRef]).
  assert (Hhandles : Forall notAsteroidRef handles).
  { apply Forall_app. split; [apply getAllActiveEntities_no_asteroid, C1 |].
    repeat constructor. }
  unfold PhysicsEngine.updateEntities.
  destruct (updateEntities_frame (Game.physicsEngine gmB) deltaTime handles
              (0%nat, 0%nat, gmC) Hhandles)
    as (D1 & D2 & D3 & D4 & D5 & D6 & D7).
  cbn zeta in *. cbn [snd] in *.
  destruct (fold_left _ handles _) as [counts gmD].
  cbn [snd] in *.
  destruct (D7 (ex_intro _ _ eq_refl)) as [s2 Hs2].
  pose proof (detectCollisions_records (Game.physicsEngine gmD)
                (omap (Game.entityAt gmD) handles)) as Hrec.
  destruct (PhysicsEngine.detectCollisions _ _) as [collisions engine].
  cbn [fst] in Hrec.
  rewrite handleCollisions_no_asteroid.
  - eexists _, s2. split; [reflexivity |].
    cbn [Game.ship Game.set_physicsEngine Game.gameState Game.entityManager].
    rewrite Hs2, D1, D4, D5, D6.
    subst gmC. cbn. rewrite B2, B3, B4, C1, C2, C3, B6, B7.
    auto 10.
  - apply List.Forall_forall. intros c Hc.
    destruct (Hrec c Hc) as (a & b & -> & Ha & Hb & _). cbn.
    apply filter_In in Ha, Hb. destruct Ha as [Ha _]. destruct Hb as [Hb _].
    apply list_elem_of_In, list_elem_of_omap in Ha, Hb.
    destruct Ha as (ha & Hha & Hata). destruct Hb as (hb & Hhb & Hatb).
    rewrite Forall_forall in Hhandles.
    split; [apply (entityAt_type gmD ha) | apply (entityAt_type gmD hb)]; auto.
Qed.
(** * Further properties of the code *)

(** ** Vector2D.js: comparison within a tolerance *)

Lemma vector_eta (v : Vector2D.t) : Vector2D.mk (Vector2D.x v) (Vector2D.y v) = v.
Proof. destruct v; reflexivity. Qed.

(** X31. [equals] is symmetric, and a vector equals itself exactly when
    the tolerance is positive: with a tolerance of zero (or less) no
    vector equals any vector, itself included. *)
Theorem equals_tolerance :
  forall (v vector : Vector2D.t) (tolerance : R),
    Vector2D.equals v vector tolerance = Vector2D.equals vector v tolerance /\
    (Vector2D.equals v v tolerance = true <-> 0 < tolerance) /\
    (tolerance <= 0 -> Vector2D.equals v vector tolerance = false).
Proof.
  intros [a b] [c d] tol. unfold Vector2D.equals; cbn.
  rewrite (Rabs_minus_sym a c), (Rabs_minus_sym b d).
  split; [reflexivity |].
  replace (a - a) with 0 by ring. replace (b - b) with 0 by ring.
  rewrite Rabs_R0.
  pose proof (Rabs_pos (c - a)) as Hx.
  split.
  - destruct (Rlt_dec 0 tol) as [Hpos | Hneg]; cbn; split; intros H;
      (reflexivity || assumption || discriminate || lra).
  - intros Htol. destruct (Rlt_dec (Rabs (c - a)) tol) as [Hlt | _]; [lra |].
    reflexivity.
Qed.

(** ** GameState: lives, saved games and level scaling *)

Lemma orNumber_zero (v : R) : Js.orNumber (Some v) 0 = v.
Proof.
  unfold Js.orNumber. destruct (Req_dec_T v 0) as [-> | _]; reflexivity.
Qed.

Lemma orCount_zero (n : nat) : Js.orCount (Some n) 0 = n.
Proof. destruct n; reflexivity. Qed.

Lemma orInteger_nonzero (v d : Z) : v <> 0%Z -> Js.orInteger (Some v) d = v.
Proof.
  intros Hv. unfold Js.orInteger. destruct (Z.eqb_spec v 0); [contradiction |].
  reflexivity.
Qed.

(** X5. A saved game survives a round trip: when neither [lives] nor
    [level] is zero, [setConfig] applied (on any state) to the object
    [getConfig] returned yields a state whose own [getConfig] is that
    object again, with the two transient flags [isPaused] and [isGameOver]
    cleared. *)
Theorem config_round_trip :
  forall s other : GameState.t,
    GameState.lives s <> 0%Z ->
    GameState.level s <> 0%Z ->
    let restored := GameState.setConfig other (GameState.getConfig s) in
    GameState.getConfig restored = GameState.getConfig s /\
    GameState.isPaused restored = false /\
    GameState.isGameOver restored = false.
Proof.
  intros s other Hlives Hlevel restored. subst restored.
  unfold GameState.setConfig, GameState.getConfig;
    cbn -[Js.orNumber Js.orInteger Js.orCount].
  rewrite !orNumber_zero, !orCount_zero,
    (orInteger_nonzero _ 3 Hlives), (orInteger_nonzero _ 1 Hlevel).
  repeat split.
Qed.

Lemma config_round_trip_witness :
  GameState.getConfig
    (GameState.setConfig GameState.new (GameState.getConfig GameState.new))
  = GameState.getConfig GameState.new /\
  GameState.isPaused
    (GameState.setConfig GameState.new (GameState.getConfig GameState.new))
  = false /\
  GameState.isGameOver
    (GameState.setConfig GameState.new (GameState.getConfig GameState.new))
  = false.
Proof.
  apply (config_round_trip GameState.new GameState.new); cbn; lia.
Defined.

(** What [loseLife] does to each field. *)
Lemma loseLife_fields (s : GameState.t) (now : R) :
  let over := fst (GameState.loseLife s now) in
  let s' := snd (GameState.loseLife s now) in
  GameState.lives s' = (GameState.lives s - 1)%Z /\
  over = (GameState.lives s - 1 <=? 0)%Z /\
  GameState.score s' = GameState.score s /\
  GameState.level s' = GameState.level s /\
  GameState.difficulty s' = GameState.difficulty s /\
  GameState.isGameOver s' = (over || GameState.isGameOver s) /\
  GameState.gamePhase s'
  = (if over then GameState.gameOver else GameState.gamePhase s) /\
  GameState.totalGameTime s'
  = (if over then now - GameState.gameStartTime s
     else GameState.totalGameTime s).
Proof.
  unfold GameState.loseLife; cbn [GameState.lives GameState.set_lives].
  destruct (_ <=? 0)%Z; cbn; repeat split.
Qed.

(** X6. [loseLife] takes exactly one life; the game is over exactly when
    no life is left, and then the phase is [gameOver], [isGameOver] is set
    and the total game time is the time since the game started; otherwise
    the phase, the flag and the clock are untouched.  Score and level are
    never changed. *)
Theorem loseLife_ends_game_at_zero :
  forall (s : GameState.t) (now : R),
    let over := fst (GameState.loseLife s now) in
    let s' := snd (GameState.loseLife s now) in
    GameState.lives s' = (GameState.lives s - 1)%Z /\
    (over = true <-> (GameState.lives s' <= 0)%Z) /\
    (over = true ->
       GameState.gamePhase s' = GameState.gameOver /\
       GameState.isGameOver s' = true /\
       GameState.totalGameTime s' = now - GameState.gameStartTime s) /\
    (over = false ->
       GameState.gamePhase s' = GameState.gamePhase s /\
       GameState.isGameOver s' = GameState.isGameOver s /\
       GameState.totalGameTime s' = GameState.totalGameTime s) /\
    GameState.score s' = GameState.score s /\
    GameState.level s' = GameState.level s.
Proof.
  intros s now over s'.
  destruct (loseLife_fields s now)
    as (Hlives & Hover & Hscore & Hlevel & _ & Hflag & Hphase & Htime).
  fold over s' in Hlives, Hover, Hscore, Hlevel, Hflag, Hphase, Htime.
  split; [exact Hlives |]. split.
  - rewrite Hlives, Hover. apply Z.leb_le.
  - split; [| split; [| split; assumption]].
    + intros Ht. rewrite Ht in *. auto.
    + intros Hf. rewrite Hf in *. auto.
Qed.

(** X7. A game that ended on its last life does not stay ended across a
    save and a load: [getConfig] saves [lives = 0], which [setConfig] reads
    through [|| 3], so the loaded state has three lives and a cleared
    [isGameOver] while its phase is still [gameOver]. *)
Theorem finished_game_reloads_with_three_lives :
  forall (s other : GameState.t) (now : R),
    GameState.lives s = 1%Z ->
    let ended := snd (GameState.loseLife s now) in
    let loaded := GameState.setConfig other (GameState.getConfig ended) in
    GameState.lives ended = 0%Z /\
    GameState.isGameOver ended = true /\
    GameState.lives loaded = 3%Z /\
    GameState.isGameOver loaded = false /\
    GameState.gamePhase loaded = GameState.gameOver.
Proof.
  intros s other now Hone ended loaded.
  destruct (loseLife_fields s now)
    as (Hlives & Hover & _ & _ & _ & Hflag & Hphase & _).
  fold ended in Hlives, Hflag, Hphase.
  assert (Hended : fst (GameState.loseLife s now) = true)
    by (rewrite Hover, Hone; reflexivity).
  rewrite Hone in Hlives. rewrite Hended in Hflag, Hphase.
  change (1 - 1)%Z with 0%Z in Hlives. cbn [orb] in Hflag.
  subst loaded. clearbody ended.
  unfold GameState.setConfig, GameState.getConfig; cbn.
  rewrite Hlives, Hphase. cbn. auto.
Qed.

Lemma finished_game_reloads_with_three_lives_witness :
  let s := GameState.startNewGame GameState.new Difficulty.hard 0 in
  GameState.lives s = 1%Z /\
  GameState.lives
    (GameState.setConfig GameState.new
       (GameState.getConfig (snd (GameState.loseLife s 5000)))) = 3%Z.
Proof.
  split; [reflexivity |].
  apply (finished_game_reloads_with_three_lives
           (GameState.startNewGame GameState.new Difficulty.hard 0)
           GameState.new 5000).
  reflexivity.
Defined.

(** X8. From level 1 on, the asteroid speed multiplier lies between the
    base multiplier of the difficulty and one and a half times it, and
    from level 11 on it is exactly one and a half times the base. *)
Theorem speed_multiplier_bounds :
  forall s : GameState.t,
    (1 <= GameState.level s)%Z ->
    let base :=
      GameState.asteroidSpeedMultiplier
        (GameState.difficultySettings (GameState.difficulty s)) in
    base <= GameState.getAsteroidSpeedMultiplier s <= base * 1.5 /\
    ((11 <= GameState.level s)%Z ->
     GameState.getAsteroidSpeedMultiplier s = base * 1.5).
Proof.
  intros s Hlevel base. unfold GameState.getAsteroidSpeedMultiplier.
  fold base.
  assert (Hbase : 0 < base) by (subst base; destruct (GameState.difficulty s); cbn; lra).
  assert (Hnn : 0 <= IZR (GameState.level s - 1) * 0.05).
  { apply Rmult_le_pos; [apply IZR_le; lia | lra]. }
  split.
  - unfold Rmin. destruct (Rle_dec _ _); nra.
  - intros Hhigh.
    assert (Hten : 10 <= IZR (GameState.level s - 1)) by (apply IZR_le; lia).
    unfold Rmin. destruct (Rle_dec _ _) as [_ | Hn]; [lra | exfalso; lra].
Qed.

Lemma speed_multiplier_bounds_witness :
  1.0 <= GameState.getAsteroidSpeedMultiplier GameState.new <= 1.0 * 1.5.
Proof.
  apply (speed_multiplier_bounds GameState.new). cbn. lia.
Defined.

(** X32. The number of asteroids of a level starts at the base count of
    the difficulty on level 1, grows by exactly one every three levels,
    and never shrinks as the level rises. *)
Theorem asteroid_count_grows_every_three_levels :
  forall (s : GameState.t) (level level' : Z),
    let count l := GameState.getAsteroidCountForLevel (GameState.set_level l s) in
    count 1%Z
    = GameState.baseAsteroidCount
        (GameState.difficultySettings (GameState.difficulty s)) /\
    count (level + 3)%Z = (count level + 1)%Z /\
    ((level <= level')%Z -> (count level <= count level')%Z).
Proof.
  intros s level level' count. subst count.
  unfold GameState.getAsteroidCountForLevel; cbn. repeat split.
  - change ((1 - 1) / 3)%Z with 0%Z. apply Z.add_0_r.
  - replace (level + 3 - 1)%Z with (level - 1 + 1 * 3)%Z by lia.
    rewrite Z.div_add by lia. lia.
  - intros Hle.
    assert ((level - 1) / 3 <= (level' - 1) / 3)%Z
      by (apply Z.div_le_mono; lia).
    lia.
Qed.

Lemma recordAsteroidDestroyed_fields (s : GameState.t) (size : Asteroid.Size) :
  let s' := snd (GameState.recordAsteroidDestroyed s size) in
  GameState.score s' = GameState.score s + pointsFor size /\
  (GameState.lives s <= GameState.lives s')%Z.
Proof.
  unfold GameState.recordAsteroidDestroyed, pointsFor.
  destruct size;
    unfold GameState.asteroidLarge, GameState.asteroidMedium,
      GameState.asteroidSmall;
    (destruct (Rgt_dec _ 0) as [_ | Hn]; [| lra]);
    unfold GameState.addScore; cbn;
    destruct (_ <? _)%Z; cbn; split; (reflexivity || lia).
Qed.

(** X9. On a running, unpaused game [pause()] and then [resume()] both
    succeed and give back the state the game was in. *)
Theorem pause_resume_round_trip :
  forall s : GameState.t,
    GameState.gamePhase s = GameState.playing ->
    GameState.isPaused s = false ->
    fst (GameState.pause s) = true /\
    GameState.isPaused (snd (GameState.pause s)) = true /\
    GameState.resume (snd (GameState.pause s)) = (true, s).
Proof.
  intros [] Hphase Hpaused. cbn in Hphase, Hpaused. subst.
  unfold GameState.pause, GameState.resume; cbn. auto.
Qed.

Lemma pause_resume_round_trip_witness :
  let s := GameState.startNewGame GameState.new Difficulty.medium 0 in
  GameState.resume (snd (GameState.pause s)) = (true, s).
Proof.
  cbv zeta.
  apply (pause_resume_round_trip
           (GameState.startNewGame GameState.new Difficulty.medium 0));
    reflexivity.
Defined.

(** ** Particles *)

Lemma unit_fraction (a l : R) : 0 <= a < l -> 0 <= a / l < 1.
Proof.
  intros [H0 H1]. assert (Hl : 0 < l) by lra. split.
  - apply Rmult_le_pos; [exact H0 |]. left. apply Rinv_0_lt_compat, Hl.
  - apply (Rmult_lt_reg_r l); [exact Hl |].
    replace (a / l * l) with a by (field; lra). lra.
Qed.

(** X10. While a particle is younger than its lifespan, [update] keeps it
    active, ages it by the elapsed time and moves it by its velocity; a
    fading particle's alpha is its initial alpha scaled by the remaining
    share of its life, so it stays between 0 and the initial alpha, and a
    shrinking particle's size stays between half its initial size and its
    initial size. *)
Theorem particle_fades_and_shrinks :
  forall (p : Particle.t) (deltaTime : R),
    Particle.isActive p = true ->
    0 <= Particle.age p + deltaTime < Particle.lifespan p ->
    0 <= Particle.initialAlpha p ->
    0 <= Particle.initialSize p ->
    let p' := Particle.update p deltaTime in
    Particle.isActive p' = true /\
    Particle.age p' = Particle.age p + deltaTime /\
    Particle.position p'
    = Vector2D.add (Particle.position p)
        (Vector2D.multiply (Particle.velocity p) (deltaTime / 1000)) /\
    (Particle.fadeOut p = true ->
     Particle.alpha p'
     = Particle.initialAlpha p
       * (1 - (Particle.age p + deltaTime) / Particle.lifespan p) /\
     0 <= Particle.alpha p' <= Particle.initialAlpha p) /\
    (Particle.shrink p = true ->
     Particle.initialSize p / 2 <= Particle.size p' <= Particle.initialSize p).
Proof.
  intros p deltaTime Hactive Hage Halpha Hsize p'. subst p'.
  unfold Particle.update. rewrite Hactive. cbn [negb].
  destruct (Rge_dec _ _) as [Hold | _]; [lra |].
  pose proof (unit_fraction _ _ Hage) as Hprogress.
  set (progress := (Particle.age p + deltaTime) / Particle.lifespan p) in *.
  cbn. clearbody progress.
  repeat split; try assumption;
    match goal with
    | H : _ = true |- _ => rewrite H
    end; try reflexivity; nra.
Qed.

Lemma particle_fades_and_shrinks_witness :
  let p := Particle.new (Particle.mkOptions None None None None None None
                           None None None None) in
  Particle.isActive (Particle.update p 250) = true /\
  Particle.age (Particle.update p 250) = 0 + 250.
Proof.
  cbv zeta.
  set (p := Particle.new _).
  destruct (particle_fades_and_shrinks p 250) as (Hactive & Hage & _).
  - reflexivity.
  - cbn. lra.
  - cbn. lra.
  - cbn. lra.
  - exact (conj Hactive Hage).
Defined.

(** X11. A particle whose age reaches its lifespan is deactivated by
    [update] where it stands, with its velocity, alpha and size as they
    were; it then counts as expired, and further updates leave it alone. *)
Theorem particle_expires_in_place :
  forall (p : Particle.t) (deltaTime later : R),
    Particle.isActive p = true ->
    Particle.lifespan p <= Particle.age p + deltaTime ->
    let p' := Particle.update p deltaTime in
    Particle.isActive p' = false /\
    Particle.isExpired p' = true /\
    Particle.position p' = Particle.position p /\
    Particle.velocity p' = Particle.velocity p /\
    Particle.alpha p' = Particle.alpha p /\
    Particle.size p' = Particle.size p /\
    Particle.update p' later = p'.
Proof.
  intros p deltaTime later Hactive Hage p'. subst p'.
  unfold Particle.update at 1 2 3 4 5 6. rewrite Hactive. cbn [negb].
  destruct (Rge_dec _ _) as [_ | Hyoung]; [| lra].
  cbn. repeat split.
  unfold Particle.update. rewrite Hactive. cbn [negb].
  destruct (Rge_dec _ _) as [_ | Hyoung]; [| lra]. reflexivity.
Qed.

Lemma particle_expires_in_place_witness :
  let p := Particle.new (Particle.mkOptions None None None None None None
                           None None None None) in
  Particle.isActive (Particle.update p 1000) = false.
Proof.
  cbv zeta. set (p := Particle.new _).
  destruct (particle_expires_in_place p 1000 16) as (Hinactive & _).
  - reflexivity.
  - cbn. lra.
  - exact Hinactive.
Defined.

(** ** Projectiles *)

Lemma projectile_update_inactive (q : Projectile.t) (deltaTime : R) :
  Projectile.isActive q = false -> Projectile.update q deltaTime = q.
Proof. intros H. unfold Projectile.update. rewrite H. reflexivity. Qed.

(** One [update] of an active projectile ages it by the elapsed time,
    keeps its lifespan, and deactivates it when the age reaches the
    lifespan. *)
Lemma projectile_update_ages (q : Projectile.t) (deltaTime : R) :
  Projectile.isActive q = true ->
  let q' := Projectile.update q deltaTime in
  Projectile.age q' = Projectile.age q + deltaTime /\
  Projectile.lifespan q' = Projectile.lifespan q /\
  (Projectile.lifespan q <= Projectile.age q + deltaTime ->
   Projectile.isActive q' = false).
Proof.
  intros Hactive. unfold Projectile.update. rewrite Hactive.
  cbn [negb Projectile.age Projectile.lifespan Projectile.set_age
       Projectile.set_position].
  destruct (Rge_dec _ _) as [Hold | Hyoung].
  - cbn. auto.
  - repeat match goal with
           | |- context [if ?c then _ else _] => destruct c
           end; cbn; repeat split; intros; lra.
Qed.

(** X12. On every update an active projectile moves by its velocity and
    ages by the elapsed time, also on the update that deactivates it.  It
    is deactivated, and then counts as expired, when its age reaches its
    lifespan; a projectile that is still active after the update is
    younger than its lifespan, has travelled less than [maxDistance] from
    its start position and lies within 50 pixels of the screen; and once
    it is inactive, further updates leave it as it is. *)
Theorem projectile_expires :
  forall (q : Projectile.t) (deltaTime later : R),
    Projectile.isActive q = true ->
    let q' := Projectile.update q deltaTime in
    Projectile.age q' = Projectile.age q + deltaTime /\
    Projectile.position q'
    = Vector2D.add (Projectile.position q)
        (Vector2D.multiply (Projectile.velocity q) (deltaTime / 1000)) /\
    (Projectile.lifespan q <= Projectile.age q + deltaTime ->
     Projectile.isActive q' = false /\ Projectile.isExpired q' = true) /\
    (Projectile.isActive q' = true ->
     Projectile.age q' < Projectile.lifespan q /\
     Vector2D.distanceTo (Projectile.position q') (Projectile.startPosition q)
       < Projectile.maxDistance q /\
     - 50 <= Vector2D.x (Projectile.position q')
       <= Projectile.screenWidth q + 50 /\
     - 50 <= Vector2D.y (Projectile.position q')
       <= Projectile.screenHeight q + 50) /\
    (Projectile.isActive q' = false -> Projectile.update q' later = q').
Proof.
  intros q deltaTime later Hactive q'.
  split; [apply (projectile_update_ages q deltaTime Hactive) |].
  split; [| split; [| split]].
  - subst q'. unfold Projectile.update. rewrite Hactive. cbn [negb].
    rewrite clone_eq.
    repeat match goal with
           | |- context [if ?c then _ else _] => destruct c
           end; reflexivity.
  - intros Hold.
    assert (Hoff : Projectile.isActive q' = false)
      by (apply (projectile_update_ages q deltaTime Hactive), Hold).
    split; [exact Hoff |].
    unfold Projectile.isExpired. rewrite Hoff. reflexivity.
  - subst q'. unfold Projectile.update. rewrite Hactive. cbn [negb].
    rewrite clone_eq.
    cbn [Projectile.age Projectile.lifespan Projectile.position
         Projectile.startPosition Projectile.maxDistance
         Projectile.screenWidth Projectile.screenHeight
         Projectile.set_age Projectile.set_position].
    repeat match goal with
           | |- context [if ?c then _ else _] => destruct c
           end; cbn; intros Hon; try discriminate; cbn in *; repeat split; lra.
  - intros Hoff. apply projectile_update_inactive, Hoff.
Qed.

Lemma projectile_expires_witness :
  let q := Projectile.new (Projectile.mkOptions None None None None None None
                             None None None None) in
  Projectile.isActive (Projectile.update q 2000) = false.
Proof.
  cbv zeta. set (q := Projectile.new _).
  destruct (projectile_expires q 2000 0 eq_refl) as (_ & _ & Hold & _).
  apply Hold. cbn. lra.
Defined.

(** ** The ship *)

Lemma ship_wrap_on_screen (s : Ship.t) :
  0 <= Ship.screenWidth s ->
  0 <= Ship.screenHeight s ->
  let p := Ship.position (Ship.wrapScreenEdges s) in
  0 <= Vector2D.x p <= Ship.screenWidth s /\
  0 <= Vector2D.y p <= Ship.screenHeight s.
Proof.
  intros Hw Hh. unfold Ship.wrapScreenEdges; cbn.
  repeat match goal with
         | |- context [Rlt_dec ?a ?b] => destruct (Rlt_dec a b)
         | |- context [Rgt_dec ?a ?b] => destruct (Rgt_dec a b)
         end; lra.
Qed.

(** X13. After every [update] the ship is on the screen: its position
    lies within [0, screenWidth] by [0, screenHeight], however far the
    step carried it. *)
Theorem ship_stays_on_screen :
  forall (s : Ship.t) (deltaTime : R),
    0 <= Ship.screenWidth s ->
    0 <= Ship.screenHeight s ->
    let p := Ship.position (Ship.update s deltaTime) in
    0 <= Vector2D.x p <= Ship.screenWidth s /\
    0 <= Vector2D.y p <= Ship.screenHeight s.
Proof.
  intros s deltaTime Hw Hh. unfold Ship.update.
  set (moved := Ship.set_velocity _ (Ship.set_velocity _ (Ship.set_position _ _))).
  assert (Hdims : Ship.screenWidth moved = Ship.screenWidth s /\
                  Ship.screenHeight moved = Ship.screenHeight s)
    by (subst moved; destruct (Ship.isThrusting s); split; reflexivity).
  destruct Hdims as [Hw' Hh'].
  pose proof (ship_wrap_on_screen moved) as Hwrap.
  rewrite Hw', Hh' in Hwrap. specialize (Hwrap Hw Hh).
  cbn zeta in *.
  destruct (Ship.isInvulnerable (Ship.wrapScreenEdges moved));
    [destruct (Rle_dec _ _) |]; exact Hwrap.
Qed.

Lemma ship_stays_on_screen_witness :
  let p := Ship.position (Ship.update fastShip 16) in
  0 <= Vector2D.x p <= 800 /\ 0 <= Vector2D.y p <= 600.
Proof.
  cbv zeta.
  pose proof (ship_stays_on_screen fastShip 16) as H.
  cbn [fastShip Ship.screenWidth Ship.screenHeight Ship.set_velocity
       Ship.thrust Ship.set_isThrusting Ship.new defaultShipOptions
       Ship.o_screenWidth Ship.o_screenHeight Js.orNumber] in H.
  apply H; lra.
Defined.

(** X14. A shot leaves from the nose of the ship: when the ship can
    fire, [createProjectile] returns a projectile placed at the ship's
    position plus [fromAngle(rotation, radius + 5)], moving with the
    ship's velocity plus [fromAngle(rotation, projectileSpeed)] and turned
    as the ship is; the ship itself is neither moved nor slowed, only its
    [lastFireTime] is set.  It can then fire again exactly when the time
    elapsed since the shot is at least [fireRate]; so with a positive
    [fireRate] a second call at the same instant returns [null]. *)
Theorem shot_leaves_from_the_nose :
  forall (s : Ship.t) (currentTime : R),
    Ship.canFire s currentTime = true ->
    exists (d : Ship.projectileData) (s' : Ship.t),
      Ship.createProjectile s currentTime = (Some d, s') /\
      Ship.d_position d
      = Vector2D.add (Ship.position s)
          (Vector2D.fromAngle (Ship.rotation s) (Ship.radius s + 5)) /\
      Ship.d_velocity d
      = Vector2D.add (Ship.velocity s)
          (Vector2D.fromAngle (Ship.rotation s) (Ship.projectileSpeed s)) /\
      Ship.d_rotation d = Ship.rotation s /\
      s' = Ship.set_lastFireTime currentTime s /\
      (forall later : R,
         Ship.canFire s' later = true
         <-> Ship.fireRate s <= later - currentTime) /\
      (0 < Ship.fireRate s ->
       Ship.createProjectile s' currentTime = (None, s')).
Proof.
  intros s currentTime Hfire.
  unfold Ship.createProjectile at 1. rewrite Hfire. cbn [negb].
  eexists _, _. split; [reflexivity |].
  cbn [Ship.d_position Ship.d_velocity Ship.d_rotation Ship.position
       Ship.velocity Ship.rotation Ship.radius Ship.projectileSpeed
       Ship.set_lastFireTime].
  rewrite !clone_eq.
  split; [reflexivity |]. split; [reflexivity |]. split; [reflexivity |].
  split; [reflexivity |].
  assert (Hagain : forall later : R,
             Ship.canFire (Ship.set_lastFireTime currentTime s) later = true
             <-> Ship.fireRate s <= later - currentTime).
  { intros later. unfold Ship.canFire; cbn.
    destruct (Rge_dec _ _); split; intros; try lra; try reflexivity;
      try discriminate. }
  split; [exact Hagain |].
  intros Hrate. unfold Ship.createProjectile.
  destruct (Ship.canFire (Ship.set_lastFireTime currentTime s) currentTime)
    eqn:Hnow; [| reflexivity].
  apply Hagain in Hnow. lra.
Qed.

Lemma shot_leaves_from_the_nose_witness :
  exists (d : Ship.projectileData) (s' : Ship.t),
    Ship.createProjectile (Ship.new defaultShipOptions) 250 = (Some d, s') /\
    Ship.createProjectile s' 250 = (None, s').
Proof.
  destruct (shot_leaves_from_the_nose (Ship.new defaultShipOptions) 250)
    as (d & s' & Hcreate & _ & _ & _ & _ & _ & Hnone).
  - unfold Ship.canFire; cbn. destruct (Rge_dec _ _); [reflexivity | lra].
  - exists d, s'. split; [exact Hcreate |]. apply Hnone. cbn. lra.
Defined.

Lemma orColor_same (c : Color) : orColor (Some c) c = c.
Proof. destruct c as [[| ? ?] | ? ? ?]; reflexivity. Qed.

(** X15. A ship's saved configuration restores it: [setConfig] with the
    object [getConfig] returned leaves the ship as it was, and applied to
    another ship it copies position, velocity, heading and
    invulnerability and nothing else. *)
Theorem ship_config_round_trip :
  forall s other : Ship.t,
    Ship.setConfig s (Ship.getConfig s) = s /\
    let restored := Ship.setConfig other (Ship.getConfig s) in
    Ship.position restored = Ship.position s /\
    Ship.velocity restored = Ship.velocity s /\
    Ship.rotation restored = Ship.rotation s /\
    Ship.isInvulnerable restored = Ship.isInvulnerable s /\
    Ship.invulnerabilityTimer restored = Ship.invulnerabilityTimer s /\
    Ship.lastFireTime restored = Ship.lastFireTime other /\
    Ship.maxVelocity restored = Ship.maxVelocity other /\
    Ship.screenWidth restored = Ship.screenWidth other /\
    Ship.screenHeight restored = Ship.screenHeight other.
Proof.
  intros s other. unfold Ship.setConfig, Ship.getConfig.
  cbn -[Js.orNumber orColor]. rewrite orNumber_zero, !vector_eta.
  split.
  - rewrite orColor_same. destruct s; reflexivity.
  - repeat split.
Qed.

(** ** Asteroids *)

Lemma asteroid_wrap_in_buffer (a : Asteroid.t) :
  0 <= Asteroid.radius a ->
  0 <= Asteroid.screenWidth a ->
  0 <= Asteroid.screenHeight a ->
  let p := Asteroid.position (Asteroid.wrapScreenEdges a) in
  - Asteroid.radius a <= Vector2D.x p <= Asteroid.screenWidth a + Asteroid.radius a /\
  - Asteroid.radius a <= Vector2D.y p <= Asteroid.screenHeight a + Asteroid.radius a.
Proof.
  intros Hr Hw Hh. unfold Asteroid.wrapScreenEdges; cbn.
  repeat match goal with
         | |- context [Rlt_dec ?a ?b] => destruct (Rlt_dec a b)
         | |- context [Rgt_dec ?a ?b] => destruct (Rgt_dec a b)
         end; lra.
Qed.

(** X16. After every [update] an active asteroid is within its own
    radius of the screen: its centre lies in the screen rectangle widened
    by the radius on every side, and its heading has advanced by its
    angular velocity; an inactive asteroid is not touched. *)
Theorem asteroid_stays_near_screen :
  forall (a : Asteroid.t) (deltaTime : R),
    0 <= Asteroid.radius a ->
    0 <= Asteroid.screenWidth a ->
    0 <= Asteroid.screenHeight a ->
    let a' := Asteroid.update a deltaTime in
    (Asteroid.isActive a = true ->
     - Asteroid.radius a <= Vector2D.x (Asteroid.position a')
       <= Asteroid.screenWidth a + Asteroid.radius a /\
     - Asteroid.radius a <= Vector2D.y (Asteroid.position a')
       <= Asteroid.screenHeight a + Asteroid.radius a /\
     Asteroid.rotation a'
     = Asteroid.rotation a + Asteroid.angularVelocity a * (deltaTime / 1000)) /\
    (Asteroid.isActive a = false -> a' = a).
Proof.
  intros a deltaTime Hr Hw Hh a'. subst a'. unfold Asteroid.update.
  split; intros ->; cbn [negb]; [| reflexivity].
  set (moved := Asteroid.set_rotation _ _).
  pose proof (asteroid_wrap_in_buffer moved Hr Hw Hh) as (Hx & Hy).
  split; [exact Hx | split; [exact Hy | reflexivity]].
Qed.

Lemma asteroid_stays_near_screen_witness :
  - 45 <= Vector2D.x (Asteroid.position (Asteroid.update largeAsteroid 16))
  <= 800 + 45.
Proof.
  destruct (asteroid_stays_near_screen largeAsteroid 16) as [Hactive _].
  - cbn. lra.
  - cbn. lra.
  - cbn. lra.
  - destruct (Hactive eq_refl) as (Hx & _). exact Hx.
Defined.



(** ** The physics engine: counters and separation *)

Section EngineCounters.

Context {Ref : Type} `{EqDecision Ref}.

#[local] Abbreviation Entity := (PhysicsEngine.Entity Ref).
#[local] Abbreviation Collision := (PhysicsEngine.Collision Ref).
#[local] Abbreviation Engine := (PhysicsEngine.t Ref).

Lemma testPair_counters (a b : Entity) (st : list Collision * Engine) :
  let st' := PhysicsEngine.testPair a b st in
  PhysicsEngine.collisionChecks (snd st')
  = S (PhysicsEngine.collisionChecks (snd st)) /\
  (tallied st -> tallied st').
Proof.
  destruct st as [cs e]. unfold PhysicsEngine.testPair, tallied.
  destruct (PhysicsEngine.checkCircleCollision a b); cbn;
    (split; [reflexivity |]); intros [Hactual Hle].
  - rewrite length_app. cbn. lia.
  - lia.
Qed.

Lemma bruteForceInner_counters (a : Entity) (rest : list Entity)
    (st : list Collision * Engine) :
  let st' := PhysicsEngine.bruteForceInner a rest st in
  PhysicsEngine.collisionChecks (snd st')
  = (PhysicsEngine.collisionChecks (snd st) + length rest)%nat /\
  (tallied st -> tallied st').
Proof.
  unfold PhysicsEngine.bruteForceInner. revert st.
  induction rest as [| b rest IH]; intros st; cbn [fold_left length].
  - split; [lia | auto].
  - destruct (IH (PhysicsEngine.testPair a b st)) as [Hchecks Htally].
    destruct (testPair_counters a b st) as [Hone Hkeep].
    cbn zeta in *. rewrite Hchecks, Hone. split; [lia | auto].
Qed.

Lemma bruteForceOuter_counters (entities : list Entity)
    (st : list Collision * Engine) :
  let st' := PhysicsEngine.bruteForceOuter entities st in
  (2 * PhysicsEngine.collisionChecks (snd st')
   = 2 * PhysicsEngine.collisionChecks (snd st)
     + length entities * (length entities - 1))%nat /\
  (tallied st -> tallied st').
Proof.
  revert st. induction entities as [| a rest IH]; intros st;
    cbn [PhysicsEngine.bruteForceOuter length].
  - split; [lia | auto].
  - destruct (IH (PhysicsEngine.bruteForceInner a rest st)) as [Hchecks Htally].
    destruct (bruteForceInner_counters a rest st) as [Hinner Hkeep].
    cbn zeta in *. rewrite Hinner in Hchecks. split; [| auto].
    rewrite Hchecks. generalize (length rest). intros r.
    replace (S r - 1)%nat with r by lia.
    destruct r as [| r]; [lia |].
    replace (S r - 1)%nat with r by lia. nia.
Qed.

Lemma spatialStep_tallied (entity candidate : Entity)
    (st : gset (option nat * option nat) * (list Collision * Engine)) :
  tallied (snd st) ->
  tallied (snd (PhysicsEngine.spatialStep entity candidate st)).
Proof.
  destruct st as [checkedPairs cs]. unfold PhysicsEngine.spatialStep.
  destruct (decide _); [auto |]. destruct (decide _); [auto |].
  cbn [snd]. apply testPair_counters.
Qed.

Lemma spatialLoop_tallied (entities : list Entity)
    (st : gset (option nat * option nat) * (list Collision * Engine)) :
  tallied (snd st) ->
  tallied (snd (PhysicsEngine.spatialLoop entities st)).
Proof.
  unfold PhysicsEngine.spatialLoop. revert st.
  induction entities as [| entity entities IH]; intros st Htally;
    cbn [fold_left]; [exact Htally |].
  apply IH.
  generalize (PhysicsEngine.getNearbyEntities (snd (snd st)) entity).
  intros candidates. revert st Htally.
  induction candidates as [| candidate candidates IHc]; intros st Htally;
    cbn [fold_left]; [exact Htally |].
  apply IHc, spatialStep_tallied, Htally.
Qed.

Lemma populateSpatialGrid_counters (e : Engine) (entities : list Entity) :
  PhysicsEngine.collisionChecks (PhysicsEngine.populateSpatialGrid e entities)
  = PhysicsEngine.collisionChecks e /\
  PhysicsEngine.actualCollisions (PhysicsEngine.populateSpatialGrid e entities)
  = PhysicsEngine.actualCollisions e.
Proof.
  unfold PhysicsEngine.populateSpatialGrid. revert e.
  induction entities as [| a rest IH]; intros e; cbn [fold_left]; [auto |].
  match goal with
  | |- context [fold_left _ rest ?e1] => destruct (IH e1) as [-> ->]
  end.
  split; reflexivity.
Qed.

(** X18. The counters of a detection run tell the truth: after
    [detectCollisions], [actualCollisions] is the number of records
    returned and is at most [collisionChecks]; and when the brute-force
    strategy ran (at most 10 active entities, or the grid switched off),
    every unordered pair of the [n] active entities was checked exactly
    once, [n (n - 1) / 2] checks in all. *)
Theorem collision_counters :
  forall (e : Engine) (entities : list Entity),
    let result := PhysicsEngine.detectCollisions e entities in
    let n := length (List.filter PhysicsEngine.notInactive entities) in
    PhysicsEngine.actualCollisions (snd result) = length (fst result) /\
    (PhysicsEngine.actualCollisions (snd result)
     <= PhysicsEngine.collisionChecks (snd result))%nat /\
    ((n <= 10)%nat \/ PhysicsEngine.useSpacialGrid e = false ->
     (2 * PhysicsEngine.collisionChecks (snd result) = n * (n - 1))%nat).
Proof.
  intros e entities result n. subst result n.
  unfold PhysicsEngine.detectCollisions.
  set (active := List.filter PhysicsEngine.notInactive entities).
  set (e0 := PhysicsEngine.set_counters 0 0 e).
  assert (Hbrute :
            let r := PhysicsEngine.detectCollisionsBruteForce e0 active in
            tallied r /\
            (2 * PhysicsEngine.collisionChecks (snd r)
             = length active * (length active - 1))%nat).
  { destruct (bruteForceOuter_counters active ([], e0)) as [Hchecks Htally].
    split; [apply Htally; split; cbn; lia | exact Hchecks]. }
  cbn zeta in Hbrute. destruct Hbrute as [[Hactual Hle] Hchecks].
  cbn [PhysicsEngine.useSpacialGrid PhysicsEngine.set_counters e0].
  destruct (PhysicsEngine.useSpacialGrid e) eqn:Hgrid; cbn [andb].
  - destruct (Nat.ltb_spec 10 (length active)) as [Hmany | Hfew].
    + assert (Hspatial :
                tallied (PhysicsEngine.detectCollisionsSpatial e0 active)).
      { unfold PhysicsEngine.detectCollisionsSpatial.
        apply spatialLoop_tallied. cbn [snd].
        destruct (populateSpatialGrid_counters
                    (PhysicsEngine.clearSpatialGrid e0) active) as [Hc Ha].
        unfold tallied. cbn [fst snd length]. rewrite Hc, Ha. cbn. lia. }
      destruct Hspatial as [Hactual' Hle'].
      split; [exact Hactual' | split; [exact Hle' |]].
      intros [Hn | Hoff]; [lia | discriminate].
    + split; [exact Hactual | split; [exact Hle |]]. intros _. exact Hchecks.
  - split; [exact Hactual | split; [exact Hle |]]. intros _. exact Hchecks.
Qed.

End EngineCounters.

(** ** Updating through the engine *)

Section UpdateCounters.

Context {Ref : Type} `{EqDecision Ref} {Store : Type}
  `{!PhysicsEngine.EntityStore (Ref := Ref) Store}.

Lemma updateEntity_counts (e : PhysicsEngine.t Ref) (deltaTime : R)
    (st : nat * nat * Store) (r : Ref) :
  let st' := PhysicsEngine.updateEntity e deltaTime st r in
  (fst (fst st) <= fst (fst st') <= S (fst (fst st)))%nat /\
  (snd (fst st) <= snd (fst st'))%nat /\
  (snd (fst st') + fst (fst st) <= snd (fst st) + fst (fst st'))%nat.
Proof.
  destruct st as [[updated wraps] store]. unfold PhysicsEngine.updateEntity.
  destruct (PhysicsEngine.entityAt store r) as [entity |]; [| cbn; lia].
  destruct (negb (PhysicsEngine.notInactive entity)); [cbn; lia |].
  match goal with
  | |- context [if ?c then _ else _] => destruct c
  end; cbn; lia.
Qed.

(** X20. [updateEntities] reports honest counts: it updates each entity
    at most once, so [entitiesUpdated] is at most the number of entities
    handed in, and it counts at most one screen wrap per updated entity. *)
Theorem updateEntities_counts :
  forall (e : PhysicsEngine.t Ref) (store : Store) (entities : list Ref)
         (deltaTime : R),
    let result := PhysicsEngine.updateEntities e store entities deltaTime in
    let entitiesUpdated := fst (fst result) in
    let screenWraps := snd (fst result) in
    (screenWraps <= entitiesUpdated <= length entities)%nat.
Proof.
  intros e store entities deltaTime. cbv zeta.
  unfold PhysicsEngine.updateEntities.
  assert (Hfold : forall st,
             let st' := fold_left (PhysicsEngine.updateEntity e deltaTime)
                          entities st in
             (fst (fst st') <= fst (fst st) + length entities)%nat /\
             (snd (fst st') + fst (fst st) <= snd (fst st) + fst (fst st'))%nat).
  { induction entities as [| r entities IH]; intros st; cbn [fold_left length].
    - lia.
    - destruct (IH (PhysicsEngine.updateEntity e deltaTime st r)) as [Hu Hw].
      destruct (updateEntity_counts e deltaTime st r) as (H1 & H2 & H3).
      cbn zeta in *. lia. }
  destruct (Hfold (0%nat, 0%nat, store)) as [Hu Hw]. cbn zeta in *.
  cbn [fst snd] in Hu, Hw. lia.
Qed.

End UpdateCounters.

(** ** The entity manager: identifiers *)

Lemma submseteq_NoDup {A : Type} (l k : list A) :
  l ⊆+ k -> List.NoDup k -> List.NoDup l.
Proof.
  intros Hsub Hk. apply submseteq_Permutation in Hsub as [k' Hperm].
  apply (Permutation_NoDup Hperm) in Hk. apply (NoDup_app_remove_r _ _ Hk).
Qed.

Lemma freshIds_In (from to : nat) (i : option nat) :
  In i (freshIds from to) <->
  exists n, i = Some n /\ (from <= n < to)%nat.
Proof.
  unfold freshIds. rewrite in_map_iff. split.
  - intros (n & <- & Hin). apply in_seq in Hin. exists n. split; [reflexivity | lia].
  - intros (n & -> & Hn). exists n. split; [reflexivity |]. apply in_seq. lia.
Qed.

Lemma freshIds_NoDup (from to : nat) : List.NoDup (freshIds from to).
Proof.
  unfold freshIds. generalize (to - from)%nat. intros k. revert from.
  induction k as [| k IH]; intros from; cbn; constructor; [| apply IH].
  rewrite in_map_iff. intros (n & Heq & Hin). injection Heq as ->.
  apply in_seq in Hin. lia.
Qed.

Lemma freshIds_app (a b c : nat) :
  (a <= b)%nat -> (b <= c)%nat ->
  freshIds a c = freshIds a b ++ freshIds b c.
Proof.
  intros Hab Hbc. unfold freshIds.
  replace (c - a)%nat with ((b - a) + (c - b))%nat by lia.
  rewrite seq_app, map_app. replace (a + (b - a))%nat with b by lia.
  reflexivity.
Qed.

Lemma freshIds_one (n : nat) : freshIds n (S n) = [Some n].
Proof. unfold freshIds. replace (S n - n)%nat with 1%nat by lia. reflexivity. Qed.

Lemma freshIds_none (n : nat) : freshIds n n = [].
Proof. unfold freshIds. rewrite Nat.sub_diag. reflexivity. Qed.

Lemma renumbers_refl (m : EntityManager.t) : renumbers m m.
Proof. split; [lia |]. rewrite freshIds_none. reflexivity. Qed.

Lemma renumbers_trans (m1 m2 m3 : EntityManager.t) :
  renumbers m1 m2 -> renumbers m2 m3 -> renumbers m1 m3.
Proof.
  intros [Hle12 Hsub12] [Hle23 Hsub23]. split; [lia |].
  rewrite (freshIds_app _ _ _ Hle12 Hle23).
  etransitivity; [exact Hsub23 |].
  etransitivity; [apply submseteq_skips_l, Hsub12 |].
  solve_submseteq.
Qed.

(** A step that hands out ids between the two values of the counter keeps
    the ids distinct and below the counter. *)
Lemma renumbers_wellNumbered (m m' : EntityManager.t) :
  renumbers m m' -> wellNumbered m -> wellNumbered m'.
Proof.
  intros [Hle Hsub] [Hnd Hall]. rewrite List.Forall_forall in Hall.
  assert (Hin : forall i, In i (entityIds m') ->
             exists n, i = Some n /\ (n < EntityManager.nextEntityId m')%nat).
  { intros i Hi. apply list_elem_of_In in Hi.
    apply (elem_of_submseteq _ _ _ Hi) in Hsub.
    apply list_elem_of_In, in_app_or in Hsub. destruct Hsub as [Hfresh | Hold].
    - apply freshIds_In in Hfresh as (n & -> & Hn). exists n. split; [reflexivity | lia].
    - destruct (Hall i Hold) as (n & -> & Hn). exists n. split; [reflexivity | lia]. }
  split; [| apply List.Forall_forall, Hin].
  apply (submseteq_NoDup _ _ Hsub).
  apply List.NoDup_app; [apply freshIds_NoDup | exact Hnd |].
  intros i Hfresh Hold.
  apply freshIds_In in Hfresh as (n & -> & Hn).
  destruct (Hall _ Hold) as (n' & Heq & Hn'). injection Heq as ->. lia.
Qed.

(** Steps that hand out no id to an asteroid or projectile. *)
Lemma renumbers_subset (m m' : EntityManager.t) :
  (EntityManager.nextEntityId m <= EntityManager.nextEntityId m')%nat ->
  entityIds m' ⊆+ entityIds m ->
  renumbers m m'.
Proof.
  intros Hle Hsub. split; [exact Hle |]. apply submseteq_inserts_l, Hsub.
Qed.

(** *** The calls, one by one *)

#[local] Ltac manager_fields :=
  cbn [fst snd EntityManager.asteroids EntityManager.projectiles
       EntityManager.projectilePool EntityManager.particles
       EntityManager.particlePool EntityManager.nextEntityId
       EntityManager.set_asteroids EntityManager.set_projectiles
       EntityManager.set_particles EntityManager.set_projectilePool
       EntityManager.set_particlePool EntityManager.set_nextEntityId
       EntityManager.set_entitiesCreated EntityManager.set_entitiesDestroyed
       EntityManager.set_poolHits EntityManager.set_poolMisses].

Lemma registerParticles_fold_next (new : list Particle.t)
    (st : list Particle.t * EntityManager.t) :
  EntityManager.nextEntityId
    (snd (fold_left EntityManager.registerParticle new st))
  = (EntityManager.nextEntityId (snd st) + length new)%nat.
Proof.
  revert st. induction new as [| p new IH]; intros [registered m];
    cbn [fold_left length]; [cbn; lia |].
  rewrite IH. cbn. lia.
Qed.

Lemma createParticleEffect_renumbers (m : EntityManager.t)
    (e : EntityManager.effect) (g : Js.RandomSource) :
  renumbers m (snd (fst (EntityManager.createParticleEffect m e g))).
Proof.
  destruct (createParticleEffect_frame m e g) as (Hpool & _ & Hproj & Hast & _).
  cbn zeta in *. apply renumbers_subset.
  - destruct e as [position color count speed | position velocity color count
                  | position direction color count | type]; cbn;
      [unfold EntityManager.createExplosionParticles;
       destruct (Particle.createExplosion _ _ _ _ _) as [ps g']
      |unfold EntityManager.createDebrisParticles;
       destruct (Particle.createDebris _ _ _ _ _) as [ps g']
      |unfold EntityManager.createSparkParticles;
       destruct (Particle.createSparks _ _ _ _ _) as [ps g']
      | lia];
      pose proof (registerParticles_fold_next ps ([], m)) as Hnext;
      unfold EntityManager.registerParticles;
      destruct (fold_left EntityManager.registerParticle ps ([], m)) as [ps' m'];
      cbn in *; lia.
  - unfold entityIds. rewrite Hpool, Hproj, Hast. reflexivity.
Qed.

Lemma registerAsteroids_fold_ids (new : list Asteroid.t)
    (st : list Asteroid.t * EntityManager.t) :
  let m := snd st in
  let m' := snd (fold_left EntityManager.registerAsteroid new st) in
  EntityManager.nextEntityId m'
  = (EntityManager.nextEntityId m + length new)%nat /\
  map Asteroid.id (EntityManager.asteroids m')
  = map Asteroid.id (EntityManager.asteroids m)
    ++ freshIds (EntityManager.nextEntityId m)
         (EntityManager.nextEntityId m + length new) /\
  EntityManager.projectiles m' = EntityManager.projectiles m /\
  EntityManager.projectilePool m' = EntityManager.projectilePool m.
Proof.
  revert st. induction new as [| a new IH]; intros [registered m];
    cbn [fold_left length snd].
  - rewrite Nat.add_0_r, freshIds_none, app_nil_r. auto.
  - destruct (IH (EntityManager.registerAsteroid (registered, m) a))
      as (Hnext & Hids & Hproj & Hpool).
    cbn zeta in *. rewrite Hnext, Hids, Hproj, Hpool.
    cbn [EntityManager.registerAsteroid snd EntityManager.nextEntityId
         EntityManager.asteroids EntityManager.projectiles
         EntityManager.projectilePool EntityManager.set_nextEntityId
         EntityManager.set_asteroids EntityManager.set_entitiesCreated].
    split; [lia |]. split; [| auto].
    rewrite map_app. cbn [map Asteroid.id Asteroid.set_id].
    rewrite <- app_assoc. f_equal.
    rewrite (freshIds_app (EntityManager.nextEntityId m)
               (S (EntityManager.nextEntityId m))
               (EntityManager.nextEntityId m + S (length new))) by lia.
    rewrite freshIds_one.
    replace (S (EntityManager.nextEntityId m) + length new)%nat
      with (EntityManager.nextEntityId m + S (length new))%nat by lia.
    reflexivity.
Qed.

Lemma registerAsteroids_renumbers (m : EntityManager.t) (new : list Asteroid.t) :
  renumbers m (snd (EntityManager.registerAsteroids m new)).
Proof.
  destruct (registerAsteroids_fold_ids new ([], m)) as (Hnext & Hids & Hproj & Hpool).
  cbn zeta in *. unfold EntityManager.registerAsteroids.
  cbn [snd] in Hnext, Hids, Hproj, Hpool.
  split; [lia |].
  unfold entityIds. rewrite Hids, Hproj, Hpool, Hnext.
  solve_submseteq.
Qed.

Lemma createAsteroid_renumbers (m : EntityManager.t) (o : Asteroid.options)
    (g : Js.RandomSource) :
  renumbers m (snd (fst (EntityManager.createAsteroid m o g))).
Proof.
  unfold EntityManager.createAsteroid.
  destruct (Asteroid.new _ g) as [a g']. cbn [fst snd].
  split; [cbn; lia |].
  unfold entityIds. cbn -[freshIds]. rewrite freshIds_one, map_app. cbn [map].
  solve_submseteq.
Qed.

Lemma createAsteroidField_renumbers (m : EntityManager.t) (count : Z)
    (playerPosition : Vector2D.t) (difficulty : Difficulty.t)
    (g : Js.RandomSource) :
  renumbers m
    (snd (fst (EntityManager.createAsteroidField m count playerPosition
                 difficulty g))).
Proof.
  unfold EntityManager.createAsteroidField.
  destruct (Asteroid.createField _ _ _ _ _ _) as [new g'].
  pose proof (registerAsteroids_renumbers m new) as Hr.
  destruct (EntityManager.registerAsteroids m new) as [registered m'].
  exact Hr.
Qed.

Lemma pop_inv {A : Type} (l front : list A) (x : A) :
  EntityManager.pop l = Some (x, front) -> l = front ++ [x].
Proof.
  unfold EntityManager.pop. destruct (rev l) as [| y r] eqn:Hrev; [discriminate |].
  intros Heq. injection Heq as <- <-.
  rewrite <- (rev_involutive l), Hrev. reflexivity.
Qed.

Lemma createProjectile_renumbers (m : EntityManager.t)
    (o : EntityManager.projectileOptions) :
  renumbers m (snd (EntityManager.createProjectile m o)).
Proof.
  unfold EntityManager.createProjectile.
  destruct (EntityManager.pop (EntityManager.projectilePool m))
    as [[q front] |] eqn:Hpop.
  - apply pop_inv in Hpop. apply renumbers_subset; [cbn; lia |].
    unfold entityIds. cbn. rewrite Hpop, !map_app. cbn [map].
    solve_submseteq.
  - split; [cbn; lia |].
    unfold entityIds. cbn -[freshIds]. rewrite freshIds_one, map_app. cbn [map].
    solve_submseteq.
Qed.

Lemma map_insert_same {A B : Type} (f : A -> B) (l : list A) (i : nat) (x y : A) :
  l !! i = Some x -> f y = f x -> map f (<[i := y]> l) = map f l.
Proof.
  revert i. induction l as [| z l IH]; intros [| i] Hat Hf;
    try discriminate.
  - injection Hat as ->. cbn. rewrite Hf. reflexivity.
  - change (<[S i := y]> (z :: l)) with (z :: <[i := y]> l).
    cbn [map]. rewrite (IH i Hat Hf). reflexivity.
Qed.

Lemma destroyActive_renumbers (m : EntityManager.t) (i : nat)
    (g : Js.RandomSource) :
  renumbers m (fst (Scenario.destroyActive m i g)).
Proof.
  unfold Scenario.destroyActive.
  destruct (EntityManager.projectiles m !! i) as [p |] eqn:Hat;
    [| apply renumbers_refl].
  unfold EntityManager.destroyProjectile.
  destruct (negb (Projectile.isActive p)).
  - apply renumbers_subset; [cbn; lia |].
    unfold entityIds. manager_fields.
    rewrite (map_insert_same Projectile.id _ i p p Hat eq_refl). reflexivity.
  - match goal with
    | |- context [EntityManager.createParticleEffect m ?e g] =>
        pose proof (createParticleEffect_renumbers m e g) as Hr;
        destruct (createParticleEffect_frame m e g) as (_ & _ & Hproj & _);
        destruct (EntityManager.createParticleEffect m e g) as [[ps m'] g']
    end.
    cbn [fst snd] in *.
    apply (renumbers_trans _ _ _ Hr). apply renumbers_subset; [cbn; lia |].
    unfold entityIds. manager_fields. rewrite Hproj.
    rewrite (map_insert_same Projectile.id _ i p
               (Projectile.set_isActive false p) Hat eq_refl).
    reflexivity.
Qed.

Lemma split_id (a : Asteroid.t) (g : Js.RandomSource) :
  Asteroid.id (snd (fst (Asteroid.split a g))) = Asteroid.id a.
Proof.
  unfold Asteroid.split. destruct (Z.eqb _ 0); [reflexivity |].
  destruct (Asteroid.splitLoop _ _ _ _ _ _). reflexivity.
Qed.

Lemma destroyAt_renumbers (m : EntityManager.t) (j : nat)
    (g : Js.RandomSource) :
  renumbers m (fst (Session.destroyAt m j g)).
Proof.
  unfold Session.destroyAt.
  destruct (EntityManager.asteroids m !! j) as [a |] eqn:Hat;
    [| apply renumbers_refl].
  unfold EntityManager.destroyAsteroid.
  match goal with
  | |- context [EntityManager.createParticleEffect m ?e g] =>
      pose proof (createParticleEffect_renumbers m e g) as Hr1;
      destruct (createParticleEffect_frame m e g) as (_ & _ & _ & Hast & _);
      destruct (EntityManager.createParticleEffect m e g) as [[ps m1] g1]
  end.
  cbn [fst snd] in *.
  pose proof (split_id a g1) as Hid.
  destruct (Asteroid.split a g1) as [[fragments a1] g2]. cbn [fst snd] in Hid.
  pose proof (registerAsteroids_renumbers m1 fragments) as Hr2.
  destruct (registerAsteroids_fold_ids fragments ([], m1)) as (_ & _ & _ & _).
  unfold EntityManager.registerAsteroids in *.
  pose proof (registerAsteroids_fold_spec fragments ([], m1))
    as (registered & _ & Hast2 & _).
  destruct (fold_left EntityManager.registerAsteroid fragments ([], m1))
    as [fragments' m2].
  cbn [fst snd] in *.
  apply (renumbers_trans _ _ _ Hr1), (renumbers_trans _ _ _ Hr2).
  apply renumbers_subset; [cbn; lia |].
  unfold entityIds. manager_fields.
  assert (Hat2 : EntityManager.asteroids m2 !! j = Some a).
  { rewrite Hast2, Hast. apply lookup_app_l_Some, Hat. }
  rewrite (map_insert_same Asteroid.id _ j a _ Hat2); [reflexivity |].
  exact Hid.
Qed.

Lemma asteroid_update_id (a : Asteroid.t) (deltaTime : R) :
  Asteroid.id (Asteroid.update a deltaTime) = Asteroid.id a.
Proof. unfold Asteroid.update. destruct (negb _); reflexivity. Qed.

Lemma projectile_update_id (q : Projectile.t) (deltaTime : R) :
  Projectile.id (Projectile.update q deltaTime) = Projectile.id q.
Proof.
  unfold Projectile.update. destruct (negb _); [reflexivity |].
  repeat match goal with
         | |- context [if ?c then _ else _] => destruct c
         end; reflexivity.
Qed.

Lemma filter_ids {A : Type} (id : A -> option nat) (keep : A -> bool)
    (l : list A) :
  map id (List.filter keep l) ⊆+ map id l.
Proof.
  induction l as [| x l IH]; cbn; [reflexivity |].
  destruct (keep x); cbn; [apply submseteq_skip | apply submseteq_cons]; exact IH.
Qed.

Lemma cleanupProjectile_ids (max : nat) (l kept pool : list Projectile.t) :
  let r := fold_left (EntityManager.cleanupProjectile max) l (kept, pool) in
  map Projectile.id (fst r) ++ map Projectile.id (snd r)
  ⊆+ map Projectile.id kept ++ map Projectile.id l ++ map Projectile.id pool.
Proof.
  revert kept pool. induction l as [| p l IH]; intros kept pool;
    cbn [fold_left fst snd map app]; [reflexivity |].
  unfold EntityManager.cleanupProjectile at 2 4.
  destruct (negb (Projectile.isActive p)).
  - destruct (length pool <? max)%nat.
    + etransitivity; [apply IH |]. rewrite map_app. cbn [map].
      solve_submseteq.
    + etransitivity; [apply IH |]. solve_submseteq.
  - etransitivity; [apply IH |]. rewrite map_app. cbn [map]. solve_submseteq.
Qed.

Lemma cleanupInactiveEntities_renumbers (m : EntityManager.t) :
  renumbers m (EntityManager.cleanupInactiveEntities m).
Proof.
  unfold EntityManager.cleanupInactiveEntities.
  cbn [EntityManager.maxPoolSize EntityManager.set_asteroids
       EntityManager.projectiles EntityManager.projectilePool].
  pose proof (cleanupProjectile_ids (EntityManager.maxPoolSize m)
                (EntityManager.projectiles m) []
                (EntityManager.projectilePool m)) as Hids.
  destruct (fold_left (EntityManager.cleanupProjectile _) _ _) as [kept pool].
  cbn [EntityManager.maxPoolSize EntityManager.set_projectiles
       EntityManager.set_projectilePool EntityManager.particles
       EntityManager.particlePool].
  destruct (fold_left (EntityManager.cleanupParticle _) _ _) as [kept' pool'].
  apply renumbers_subset; [cbn; lia |].
  unfold entityIds. manager_fields. cbn [fst snd map app] in Hids.
  apply submseteq_app; [apply filter_ids | exact Hids].
Qed.

Lemma update_renumbers (m : EntityManager.t) (deltaTime : R) :
  renumbers m (EntityManager.update m deltaTime).
Proof.
  unfold EntityManager.update.
  match goal with
  | |- renumbers m (EntityManager.cleanupInactiveEntities ?m1) =>
      apply (renumbers_trans m m1);
        [| apply cleanupInactiveEntities_renumbers]
  end.
  apply renumbers_subset; [cbn; lia |].
  unfold entityIds. manager_fields. rewrite !map_map.
  rewrite (map_ext (fun a => Asteroid.id
                       (if Asteroid.isActive a
                        then Asteroid.update a deltaTime else a))
             Asteroid.id)
    by (intros a; destruct (Asteroid.isActive a);
        [apply asteroid_update_id | reflexivity]).
  rewrite (map_ext (fun q => Projectile.id
                       (if Projectile.isActive q
                        then Projectile.update q deltaTime else q))
             Projectile.id)
    by (intros q; destruct (Projectile.isActive q);
        [apply projectile_update_id | reflexivity]).
  reflexivity.
Qed.

Lemma step_renumbers (st : EntityManager.t * Js.RandomSource) (o : Session.op) :
  renumbers (fst st) (fst (Session.step st o)).
Proof.
  destruct st as [m g].
  destruct o as [opts | count playerPosition difficulty | opts | e | j | i
                | deltaTime | | | width height]; cbn [Session.step fst].
  - pose proof (createAsteroid_renumbers m opts g) as Hr.
    destruct (EntityManager.createAsteroid m opts g) as [[a m'] g']. exact Hr.
  - pose proof (createAsteroidField_renumbers m count playerPosition
                  difficulty g) as Hr.
    destruct (EntityManager.createAsteroidField _ _ _ _ _) as [[l m'] g'].
    exact Hr.
  - apply createProjectile_renumbers.
  - pose proof (createParticleEffect_renumbers m e g) as Hr.
    destruct (EntityManager.createParticleEffect m e g) as [[l m'] g'].
    exact Hr.
  - apply destroyAt_renumbers.
  - apply destroyActive_renumbers.
  - apply update_renumbers.
  - apply cleanupInactiveEntities_renumbers.
  - apply renumbers_subset; [cbn; lia |].
    unfold entityIds; cbn. apply submseteq_nil_l.
  - apply renumbers_subset; [cbn; lia | reflexivity].
Qed.

(** X21. Ids are never shared: after any sequence of calls on a new
    [EntityManager] (creating asteroids, fields, projectiles and particle
    effects, destroying asteroids and projectiles, updating, cleaning up,
    clearing, resizing), every asteroid and every projectile it holds,
    pooled ones included, carries an id, every id is at least 1 and below
    [nextEntityId], and no two are equal. *)
Theorem entity_ids_stay_distinct :
  forall (screenWidth screenHeight : R) (ops : list Session.op)
         (g : Js.RandomSource),
    let m := fst (Session.run ops
                    (EntityManager.new screenWidth screenHeight, g)) in
    List.NoDup (entityIds m) /\
    Forall (fun i => exists n : nat,
              i = Some n /\ (1 <= n < EntityManager.nextEntityId m)%nat)
      (entityIds m).
Proof.
  intros screenWidth screenHeight ops g.
  assert (Hrun : forall st,
             wellNumbered (fst st) ->
             Forall (fun i => i <> Some 0%nat) (entityIds (fst st)) ->
             (1 <= EntityManager.nextEntityId (fst st))%nat ->
             let m := fst (Session.run ops st) in
             wellNumbered m /\ Forall (fun i => i <> Some 0%nat) (entityIds m)).
  { unfold Session.run. induction ops as [| o ops IH]; intros st Hwell Hpos Hone;
      cbn [fold_left]; [auto |].
    pose proof (step_renumbers st o) as Hr. apply IH.
    - apply (renumbers_wellNumbered _ _ Hr Hwell).
    - destruct Hr as [Hle Hsub]. rewrite List.Forall_forall in *.
      intros i Hi. apply list_elem_of_In in Hi.
      apply (elem_of_submseteq _ _ _ Hi) in Hsub.
      apply list_elem_of_In, in_app_or in Hsub.
      destruct Hsub as [Hfresh | Hold]; [| apply Hpos, Hold].
      apply freshIds_In in Hfresh as (n & -> & Hn). intros Heq.
      injection Heq as ->. lia.
    - destruct Hr as [Hle _]. lia. }
  destruct (Hrun (EntityManager.new screenWidth screenHeight, g))
    as [[Hnd Hall] Hpos].
  - split; cbn; constructor.
  - cbn. constructor.
  - cbn. lia.
  - cbn zeta in *. split; [exact Hnd |].
    rewrite List.Forall_forall in *. intros i Hi.
    destruct (Hall i Hi) as (n & -> & Hn). exists n. split; [reflexivity |].
    specialize (Hpos _ Hi). destruct n; [congruence | lia].
Qed.

(** ** The entity manager: cleaning up, destroying, counting *)

Lemma cleanupProjectile_kept (max : nat) (l kept pool : list Projectile.t) :
  fst (fold_left (EntityManager.cleanupProjectile max) l (kept, pool))
  = kept ++ List.filter Projectile.isActive l.
Proof.
  revert kept pool. induction l as [| p l IH]; intros kept pool;
    cbn [fold_left List.filter]; [cbn; rewrite app_nil_r; reflexivity |].
  unfold EntityManager.cleanupProjectile at 2.
  destruct (Projectile.isActive p); cbn [negb].
  - rewrite IH, <- app_assoc. reflexivity.
  - destruct (length pool <? max)%nat; apply IH.
Qed.

Lemma cleanupParticle_kept (max : nat) (l kept pool : list Particle.t) :
  fst (fold_left (EntityManager.cleanupParticle max) l (kept, pool))
  = kept ++ List.filter Particle.isActive l.
Proof.
  revert kept pool. induction l as [| p l IH]; intros kept pool;
    cbn [fold_left List.filter]; [cbn; rewrite app_nil_r; reflexivity |].
  unfold EntityManager.cleanupParticle at 2.
  destruct (Particle.isActive p); cbn [negb].
  - rewrite IH, <- app_assoc. reflexivity.
  - destruct (length pool <? max)%nat; apply IH.
Qed.

Lemma cleanupProjectile_active (max : nat) (l kept pool : list Projectile.t) :
  Forall (fun p => Projectile.isActive p = true) l ->
  fold_left (EntityManager.cleanupProjectile max) l (kept, pool)
  = (kept ++ l, pool).
Proof.
  intros Hall. revert kept. induction Hall as [| p l Hp _ IH]; intros kept;
    cbn [fold_left]; [rewrite app_nil_r; reflexivity |].
  unfold EntityManager.cleanupProjectile at 2. rewrite Hp. cbn [negb].
  rewrite IH, <- app_assoc. reflexivity.
Qed.

Lemma cleanupParticle_active (max : nat) (l kept pool : list Particle.t) :
  Forall (fun p => Particle.isActive p = true) l ->
  fold_left (EntityManager.cleanupParticle max) l (kept, pool)
  = (kept ++ l, pool).
Proof.
  intros Hall. revert kept. induction Hall as [| p l Hp _ IH]; intros kept;
    cbn [fold_left]; [rewrite app_nil_r; reflexivity |].
  unfold EntityManager.cleanupParticle at 2. rewrite Hp. cbn [negb].
  rewrite IH, <- app_assoc. reflexivity.
Qed.

Lemma filter_active {A : Type} (f : A -> bool) (l : list A) :
  Forall (fun x => f x = true) (List.filter f l).
Proof.
  apply List.Forall_forall. intros x Hin. apply filter_In in Hin. tauto.
Qed.

Lemma cleanupInactiveEntities_arrays (m : EntityManager.t) :
  let m' := EntityManager.cleanupInactiveEntities m in
  EntityManager.asteroids m'
  = List.filter Asteroid.isActive (EntityManager.asteroids m) /\
  EntityManager.projectiles m'
  = List.filter Projectile.isActive (EntityManager.projectiles m) /\
  EntityManager.particles m'
  = List.filter Particle.isActive (EntityManager.particles m).
Proof.
  unfold EntityManager.cleanupInactiveEntities.
  cbn [EntityManager.maxPoolSize EntityManager.set_asteroids
       EntityManager.projectiles EntityManager.projectilePool].
  pose proof (cleanupProjectile_kept (EntityManager.maxPoolSize m)
                (EntityManager.projectiles m) []
                (EntityManager.projectilePool m)) as Hproj.
  destruct (fold_left (EntityManager.cleanupProjectile _) _ _) as [kept pool].
  cbn [EntityManager.maxPoolSize EntityManager.set_projectiles
       EntityManager.set_projectilePool EntityManager.particles
       EntityManager.particlePool].
  pose proof (cleanupParticle_kept (EntityManager.maxPoolSize m)
                (EntityManager.particles m) []
                (EntityManager.particlePool m)) as Hpart.
  destruct (fold_left (EntityManager.cleanupParticle _) _ _) as [kept' pool'].
  cbn in *. auto.
Qed.

Lemma cleanupInactiveEntities_fixed (m : EntityManager.t) :
  Forall (fun a => Asteroid.isActive a = true) (EntityManager.asteroids m) ->
  Forall (fun p => Projectile.isActive p = true) (EntityManager.projectiles m) ->
  Forall (fun p => Particle.isActive p = true) (EntityManager.particles m) ->
  EntityManager.cleanupInactiveEntities m = m.
Proof.
  intros Ha Hp Hq. unfold EntityManager.cleanupInactiveEntities.
  rewrite (filter_all_true _ _ Ha).
  cbn [EntityManager.maxPoolSize EntityManager.set_asteroids
       EntityManager.projectiles EntityManager.projectilePool].
  rewrite (cleanupProjectile_active _ _ [] _ Hp).
  cbn [EntityManager.maxPoolSize EntityManager.set_projectiles
       EntityManager.set_projectilePool EntityManager.particles
       EntityManager.particlePool app].
  rewrite (cleanupParticle_active _ _ [] _ Hq).
  destruct m; reflexivity.
Qed.

(** X22. [cleanupInactiveEntities] keeps exactly the active asteroids,
    projectiles and particles, in their order; a second clean-up changes
    nothing; and since [update] ends with a clean-up, after every
    [update] all three arrays hold active entities only. *)
Theorem cleanup_keeps_the_active :
  forall (m : EntityManager.t) (deltaTime : R),
    let cleaned := EntityManager.cleanupInactiveEntities m in
    let updated := EntityManager.update m deltaTime in
    EntityManager.asteroids cleaned
    = List.filter Asteroid.isActive (EntityManager.asteroids m) /\
    EntityManager.projectiles cleaned
    = List.filter Projectile.isActive (EntityManager.projectiles m) /\
    EntityManager.particles cleaned
    = List.filter Particle.isActive (EntityManager.particles m) /\
    EntityManager.cleanupInactiveEntities cleaned = cleaned /\
    Forall (fun a => Asteroid.isActive a = true) (EntityManager.asteroids updated) /\
    Forall (fun p => Projectile.isActive p = true)
      (EntityManager.projectiles updated) /\
    Forall (fun p => Particle.isActive p = true) (EntityManager.particles updated).
Proof.
  intros m deltaTime cleaned updated.
  destruct (cleanupInactiveEntities_arrays m) as (Ha & Hp & Hq).
  fold cleaned in Ha, Hp, Hq.
  split; [exact Ha | split; [exact Hp | split; [exact Hq |]]].
  split.
  - apply cleanupInactiveEntities_fixed.
    + rewrite Ha. apply filter_active.
    + rewrite Hp. apply filter_active.
    + rewrite Hq. apply filter_active.
  - subst updated. unfold EntityManager.update.
    match goal with
    | |- context [EntityManager.cleanupInactiveEntities ?m1] =>
        destruct (cleanupInactiveEntities_arrays m1) as (Ha' & Hp' & Hq')
    end.
    cbn zeta in *. rewrite Ha', Hp', Hq'.
    repeat split; apply filter_active.
Qed.

Lemma splitLoop_length (a : Asteroid.t) (nextSize : Asteroid.Size) (n : nat)
    (i : Z) (g : Js.RandomSource) (fragments : list Asteroid.t) :
  length (fst (Asteroid.splitLoop a nextSize n i g fragments))
  = (length fragments + n)%nat.
Proof.
  revert i g fragments. induction n as [| n IH]; intros i g fragments;
    cbn [Asteroid.splitLoop]; [cbn; lia |].
  unfold Js.random. cbn [fst snd].
  destruct (Asteroid.new _ _) as [fragment g']. rewrite IH, length_app.
  cbn. lia.
Qed.

Lemma split_fields (a : Asteroid.t) (g : Js.RandomSource) :
  let a' := snd (fst (Asteroid.split a g)) in
  Asteroid.id a' = Asteroid.id a /\
  Asteroid.size a' = Asteroid.size a /\
  Asteroid.position a' = Asteroid.position a /\
  length (fst (fst (Asteroid.split a g)))
  = Z.to_nat (Asteroid.splitCount a).
Proof.
  unfold Asteroid.split. destruct (Z.eqb_spec (Asteroid.splitCount a) 0) as [Hz | Hnz].
  - rewrite Hz. cbn. auto.
  - pose proof (splitLoop_length a
                  (if decide (Asteroid.size a = Asteroid.large)
                   then Asteroid.medium else Asteroid.small)
                  (Z.to_nat (Asteroid.splitCount a)) 0 g []) as Hlen.
    destruct (Asteroid.splitLoop _ _ _ _ _ _) as [fragments g'].
    cbn in *. auto.
Qed.

Lemma split_ignores_isActive (a : Asteroid.t) (b : bool) (g : Js.RandomSource) :
  fst (fst (Asteroid.split (Asteroid.set_isActive b a) g))
  = fst (fst (Asteroid.split a g)).
Proof.
  unfold Asteroid.split.
  cbn [Asteroid.splitCount Asteroid.size Asteroid.set_isActive].
  destruct (Z.eqb _ 0); [reflexivity |].
  set (nextSize := if decide _ then _ else _).
  assert (Hloop : forall n i g fragments,
             Asteroid.splitLoop (Asteroid.set_isActive b a) nextSize n i g fragments
             = Asteroid.splitLoop a nextSize n i g fragments).
  { induction n as [| n IH]; intros i g0 fragments;
      cbn [Asteroid.splitLoop]; [reflexivity |].
    unfold Js.random. cbn [fst snd].
    cbn [Asteroid.splitCount Asteroid.velocity Asteroid.radius
         Asteroid.position Asteroid.screenWidth Asteroid.screenHeight
         Asteroid.set_isActive].
    destruct (Asteroid.new _ _) as [fragment g']. apply IH. }
  rewrite Hloop.
  destruct (Asteroid.splitLoop _ _ _ _ _ _). reflexivity.
Qed.

Lemma registerParticles_fold_destroyed (new : list Particle.t)
    (st : list Particle.t * EntityManager.t) :
  EntityManager.entitiesDestroyed
    (snd (fold_left EntityManager.registerParticle new st))
  = EntityManager.entitiesDestroyed (snd st).
Proof.
  revert st. induction new as [| p new IH]; intros [registered m];
    cbn [fold_left]; [reflexivity |].
  rewrite IH. reflexivity.
Qed.

Lemma registerAsteroids_fold_destroyed (new : list Asteroid.t)
    (st : list Asteroid.t * EntityManager.t) :
  EntityManager.entitiesDestroyed
    (snd (fold_left EntityManager.registerAsteroid new st))
  = EntityManager.entitiesDestroyed (snd st).
Proof.
  revert st. induction new as [| a new IH]; intros [registered m];
    cbn [fold_left]; [reflexivity |].
  rewrite IH. reflexivity.
Qed.

Lemma createParticleEffect_destroyed (m : EntityManager.t)
    (e : EntityManager.effect) (g : Js.RandomSource) :
  EntityManager.entitiesDestroyed
    (snd (fst (EntityManager.createParticleEffect m e g)))
  = EntityManager.entitiesDestroyed m.
Proof.
  destruct e as [position color count speed | position velocity color count
                | position direction color count | type]; cbn;
    [unfold EntityManager.createExplosionParticles;
     destruct (Particle.createExplosion _ _ _ _ _) as [ps g']
    |unfold EntityManager.createDebrisParticles;
     destruct (Particle.createDebris _ _ _ _ _) as [ps g']
    |unfold EntityManager.createSparkParticles;
     destruct (Particle.createSparks _ _ _ _ _) as [ps g']
    | reflexivity];
    pose proof (registerParticles_fold_destroyed ps ([], m)) as Hd;
    unfold EntityManager.registerParticles;
    destruct (fold_left EntityManager.registerParticle ps ([], m)) as [ps' m'];
    exact Hd.
Qed.

(** What [destroyAsteroid] does to the asteroid and to the manager. *)
Lemma destroyAsteroid_fields (m : EntityManager.t) (a : Asteroid.t)
    (g : Js.RandomSource) :
  let result := EntityManager.destroyAsteroid m a g in
  Asteroid.isActive (snd (fst (fst result))) = false /\
  Asteroid.id (snd (fst (fst result))) = Asteroid.id a /\
  Asteroid.size (snd (fst (fst result))) = Asteroid.size a /\
  EntityManager.asteroids (snd (fst result))
  = EntityManager.asteroids m ++ fst (fst (fst result)) /\
  length (fst (fst (fst result))) = Z.to_nat (Asteroid.splitCount a) /\
  EntityManager.projectiles (snd (fst result)) = EntityManager.projectiles m /\
  EntityManager.projectilePool (snd (fst result))
  = EntityManager.projectilePool m /\
  EntityManager.entitiesDestroyed (snd (fst result))
  = S (EntityManager.entitiesDestroyed m).
Proof.
  unfold EntityManager.destroyAsteroid.
  match goal with
  | |- context [EntityManager.createParticleEffect m ?e g] =>
      destruct (createParticleEffect_frame m e g) as (Hpool & _ & Hproj & Hast & _);
      pose proof (createParticleEffect_destroyed m e g) as Hdestroyed;
      destruct (EntityManager.createParticleEffect m e g) as [[ps m1] g1]
  end.
  cbn [fst snd] in *.
  destruct (split_fields a g1) as (Hid' & Hsize' & _ & Hlen).
  destruct (Asteroid.split a g1) as [[fragments a1] g2]. cbn [fst snd] in *.
  destruct (registerAsteroids_fold_ids fragments ([], m1)) as (_ & _ & Hproj2 & Hpool2).
  destruct (registerAsteroids_fold_spec fragments ([], m1))
    as (registered & Hfst & Hast2 & H2 & _).
  unfold EntityManager.registerAsteroids.
  pose proof (registerAsteroids_fold_destroyed fragments ([], m1)) as Hdestroyed2.
  destruct (fold_left EntityManager.registerAsteroid fragments ([], m1))
    as [fragments' m2].
  cbn [fst snd] in *. subst fragments'. cbn [app].
  assert (Hlen2 : length registered = length fragments)
    by (symmetry; apply (Forall2_length _ _ _ H2)).
  cbn. rewrite Hast2, Hast, Hproj2, Hproj, Hpool2, Hpool, Hdestroyed2,
    Hdestroyed, Hlen2, Hlen, Hid', Hsize'. auto 10.
Qed.

(** X23. [destroyAsteroid] always leaves the asteroid inactive, a small
    one included, and keeps its id and size; it counts one entity
    destroyed, appends the fragments (as many as [splitCount]) to the
    asteroid array and touches no projectile.  It never looks at
    [isActive]: destroying an asteroid that is already inactive splits it
    again. *)
Theorem destroyAsteroid_always_deactivates :
  forall (m : EntityManager.t) (asteroid : Asteroid.t) (g : Js.RandomSource),
    let result := EntityManager.destroyAsteroid m asteroid g in
    let fragments := fst (fst (fst result)) in
    let asteroid' := snd (fst (fst result)) in
    let m' := snd (fst result) in
    Asteroid.isActive asteroid' = false /\
    Asteroid.id asteroid' = Asteroid.id asteroid /\
    Asteroid.size asteroid' = Asteroid.size asteroid /\
    EntityManager.asteroids m' = EntityManager.asteroids m ++ fragments /\
    length fragments = Z.to_nat (Asteroid.splitCount asteroid) /\
    EntityManager.projectiles m' = EntityManager.projectiles m /\
    EntityManager.projectilePool m' = EntityManager.projectilePool m /\
    EntityManager.entitiesDestroyed m' = S (EntityManager.entitiesDestroyed m) /\
    length
      (fst (fst (fst (EntityManager.destroyAsteroid m
                        (Asteroid.set_isActive false asteroid) g))))
    = length fragments.
Proof.
  intros m a g. cbv zeta.
  destruct (destroyAsteroid_fields m a g)
    as (H1 & H2 & H3 & H4 & H5 & H6 & H7 & H8).
  destruct (destroyAsteroid_fields m (Asteroid.set_isActive false a) g)
    as (_ & _ & _ & _ & H9 & _).
  cbn zeta in *. rewrite H9, H5. auto 10.
Qed.

Lemma slotsWhere_length {A : Type} (keep : A -> bool) (l : list A) :
  length (EntityManager.slotsWhere keep l) = length (List.filter keep l).
Proof.
  unfold EntityManager.slotsWhere. rewrite length_map.
  generalize 0%nat. induction l as [| x l IH]; intros start; cbn;
    [reflexivity |].
  destruct (keep x); cbn; rewrite IH; reflexivity.
Qed.

(** X24. The counts [getEntityCounts] reports fit together: [total] is
    the number of active asteroids plus the number of active projectiles,
    particles not counted; after [clearAllEntities] every count and both
    pool sizes are zero while the id counter keeps its value; and after
    [cleanupInactiveEntities] the three counts are the lengths of the
    three arrays. *)
Theorem entity_counts_fit :
  forall m : EntityManager.t,
    let counts := EntityManager.getEntityCounts m in
    let cleared := EntityManager.clearAllEntities m in
    let cleaned := EntityManager.cleanupInactiveEntities m in
    EntityManager.countTotal counts
    = (EntityManager.countAsteroids counts
       + EntityManager.countProjectiles counts)%nat /\
    EntityManager.getEntityCounts cleared
    = EntityManager.mkEntityCounts 0 0 0 0 (EntityManager.mkPooledCounts 0 0) /\
    EntityManager.nextEntityId cleared = EntityManager.nextEntityId m /\
    EntityManager.countAsteroids (EntityManager.getEntityCounts cleaned)
    = length (EntityManager.asteroids cleaned) /\
    EntityManager.countProjectiles (EntityManager.getEntityCounts cleaned)
    = length (EntityManager.projectiles cleaned) /\
    EntityManager.countParticles (EntityManager.getEntityCounts cleaned)
    = length (EntityManager.particles cleaned).
Proof.
  intros m counts cleared cleaned. subst counts cleared.
  split; [| split; [reflexivity | split; [reflexivity |]]].
  - unfold EntityManager.getEntityCounts, EntityManager.getAllActiveEntities.
    cbn [EntityManager.countTotal EntityManager.countAsteroids
         EntityManager.countProjectiles].
    rewrite length_app, !length_map, !slotsWhere_length. reflexivity.
  - destruct (cleanupInactiveEntities_arrays m) as (Ha & Hp & Hq).
    fold cleaned in Ha, Hp, Hq. clearbody cleaned.
    unfold EntityManager.getEntityCounts.
    cbn [EntityManager.countAsteroids EntityManager.countProjectiles
         EntityManager.countParticles].
    rewrite Ha, Hp, Hq.
    rewrite !(filter_all_true _ _ (filter_active _ _)). auto.
Qed.

(** ** The input manager *)

Lemma isDown_insert (m : gmap string bool) (code key : string) (b : bool) :
  InputManager.isDown (<[code := b]> m) key
  = if decide (code = key) then b else InputManager.isDown m key.
Proof.
  unfold InputManager.isDown. destruct (decide (code = key)) as [-> | Hne].
  - rewrite lookup_insert_eq. destruct b; reflexivity.
  - rewrite lookup_insert_ne by exact Hne. reflexivity.
Qed.

Lemma existsb_false {A : Type} (f : A -> bool) (l : list A) :
  (forall x, f x = false) -> existsb f l = false.
Proof.
  intros Hf. induction l as [| x l IH]; cbn; [reflexivity |].
  rewrite Hf, IH. reflexivity.
Qed.

Lemma wasJustPressed_after_frame (im : InputManager.t) (a : InputManager.action) :
  InputManager.wasJustPressed (InputManager.updatePreviousKeys im) a = false.
Proof.
  unfold InputManager.wasJustPressed, InputManager.updatePreviousKeys; cbn.
  apply existsb_false. intros code. apply andb_negb_r.
Qed.

Lemma processInput_manager (im : InputManager.t) (ship : option Ship.t)
    (gs : GameState.t) (deltaTime currentTime : R) :
  snd (fst (InputManager.processInput im ship gs deltaTime currentTime))
  = InputManager.updatePreviousKeys im.
Proof.
  unfold InputManager.processInput.
  destruct (GameState.isPaused gs); [reflexivity |].
  destruct ship as [s |]; [| reflexivity].
  repeat match goal with
         | |- context [if ?c then _ else _] => destruct c
         | |- context [let '(_, _) := ?x in _] => destruct x
         | |- context [match ?x with Some _ => _ | None => _ end] => destruct x
         end; reflexivity.
Qed.

(** X25. A key press acts once: once [keydown] has registered a key of
    an action that was not down the frame before, the action is pressed
    and just pressed; [processInput] always ends the frame by copying the
    key states, so on the input manager it leaves behind no action is
    just pressed or just released, every action is pressed exactly as
    before, and the next [processInput] emits neither ['toggle-pause'] nor
    ['escape'] however long the key is held. *)
Theorem held_key_acts_once :
  forall (im : InputManager.t) (ship : option Ship.t) (gs : GameState.t)
         (deltaTime currentTime : R),
    let im' :=
      snd (fst (InputManager.processInput im ship gs deltaTime currentTime)) in
    (forall (a : InputManager.action) (code : string),
        InputManager.inputEnabled im = true ->
        In code (InputManager.keyBindings im a) ->
        InputManager.isDown (InputManager.previousKeys im) code = false ->
        InputManager.isPressed (InputManager.handleKeyDown im code) a = true /\
        InputManager.wasJustPressed (InputManager.handleKeyDown im code) a = true) /\
    (forall a : InputManager.action,
        InputManager.wasJustPressed im' a = false /\
        InputManager.wasJustReleased im' a = false /\
        InputManager.isPressed im' a = InputManager.isPressed im a) /\
    (forall (s : Ship.t) (gs' : GameState.t) (deltaTime' currentTime' : R),
        quiet (InputManager.actions
                 (fst (fst (InputManager.processInput im' (Some s) gs'
                              deltaTime' currentTime'))))).
Proof.
  intros im ship gs deltaTime currentTime im'. subst im'.
  rewrite processInput_manager. split; [| split].
  - intros a code Henabled Hbound Hup.
    unfold InputManager.handleKeyDown. rewrite Henabled. cbn [negb].
    unfold InputManager.isPressed, InputManager.wasJustPressed; cbn.
    split; apply existsb_exists; exists code; (split; [exact Hbound |]);
      rewrite isDown_insert; destruct (decide (code = code)); try congruence.
    rewrite Hup. reflexivity.
  - intros a. split; [apply wasJustPressed_after_frame | split; [| reflexivity]].
    unfold InputManager.wasJustReleased, InputManager.updatePreviousKeys; cbn.
    apply existsb_false. intros code. apply andb_negb_l.
  - intros s gs' deltaTime' currentTime'.
    apply processInput_quiet; apply wasJustPressed_after_frame.
Qed.

Lemma clearAllKeys_released (im : InputManager.t) (a : InputManager.action) :
  InputManager.isPressed (InputManager.clearAllKeys im) a = false.
Proof.
  unfold InputManager.isPressed, InputManager.clearAllKeys; cbn.
  apply existsb_false. intros code. unfold InputManager.isDown.
  rewrite lookup_empty. reflexivity.
Qed.

(** X26. Disabling input releases every key and makes the manager deaf:
    after [setInputEnabled(false)] no action is pressed, key events are
    ignored, and [processInput] neither turns nor thrusts the ship; but it
    still fires, since auto-fire does not depend on [inputEnabled]. *)
Theorem disabled_input_is_deaf :
  forall (im : InputManager.t) (events : list (bool * string)) (s : Ship.t)
         (gs : GameState.t) (deltaTime currentTime : R),
    let off := InputManager.setInputEnabled im false in
    let deliver im (event : bool * string) :=
      if fst event then InputManager.handleKeyDown im (snd event)
      else InputManager.handleKeyUp im (snd event) in
    let r := InputManager.processInput off (Some s) gs deltaTime currentTime in
    fold_left deliver events off = off /\
    (forall a, InputManager.isPressed off a = false) /\
    (GameState.isPaused gs = false ->
     InputManager.shipUpdated (fst (fst r)) = false /\
     (InputManager.autoFireEnabled im = true ->
      Ship.canFire s currentTime = true ->
      InputManager.actions (fst (fst r)) = ["auto-fire"] /\
      InputManager.newProjectile (fst (fst r)) <> None) /\
     exists s', snd r = Some s' /\
       Ship.rotation s' = Ship.rotation s /\
       Ship.isThrusting s' = false /\
       Ship.position s' = Ship.position s).
Proof.
  intros im events s gs deltaTime currentTime off deliver r.
  assert (Hreleased : forall a, InputManager.isPressed off a = false)
    by (intros a; apply clearAllKeys_released).
  split; [| split; [exact Hreleased |]].
  - induction events as [| [down code] events IH]; cbn [fold_left];
      [reflexivity |].
    replace (deliver off (down, code)) with off; [exact IH |].
    unfold deliver. destruct down; reflexivity.
  - intros Hrunning. subst r. unfold InputManager.processInput.
    rewrite !Hreleased, Hrunning. cbn [andb].
    change (InputManager.autoFireEnabled off) with (InputManager.autoFireEnabled im).
    destruct (InputManager.autoFireEnabled im) eqn:Hauto; cbn [andb].
    + destruct (Ship.canFire (Ship.stopThrust s) currentTime) eqn:Hfire.
      * unfold Ship.createProjectile. rewrite Hfire. cbn.
        split; [reflexivity |]. split; [| eauto 10].
        intros _ _. split; [reflexivity | discriminate].
      * cbn. split; [reflexivity |]. split; [| eauto 10].
        intros _ Hcan. change (Ship.canFire s currentTime = false) in Hfire.
        congruence.
    + cbn. split; [reflexivity |]. split; [| eauto 10]. discriminate.
Qed.

(** ** The orchestrator *)

(** X28. A paused game stands still: when the game is paused and neither
    the pause nor the escape key has just been pressed, [update] returns
    before any entity is touched; the manager, the ship, the engine, the
    random source, score, lives and level are as they were and the game
    stays paused.  Only the play clock moves: in the playing phase
    [totalGameTime] still grows by the elapsed time. *)
Theorem paused_game_stands_still :
  forall (gm : Game.t) (deltaTime currentTime now : R) (g : Js.RandomSource),
    GameState.isPaused (Game.gameState gm) = true ->
    InputManager.wasJustPressed (Game.inputManager gm) InputManager.pause = false ->
    InputManager.wasJustPressed (Game.inputManager gm) InputManager.escape = false ->
    exists gm' : Game.t,
      Game.update gm deltaTime currentTime now g = Some (gm', g) /\
      Game.entityManager gm' = Game.entityManager gm /\
      Game.ship gm' = Game.ship gm /\
      Game.physicsEngine gm' = Game.physicsEngine gm /\
      GameState.isPaused (Game.gameState gm') = true /\
      GameState.score (Game.gameState gm') = GameState.score (Game.gameState gm) /\
      GameState.lives (Game.gameState gm') = GameState.lives (Game.gameState gm) /\
      GameState.level (Game.gameState gm') = GameState.level (Game.gameState gm) /\
      (GameState.gamePhase (Game.gameState gm) = GameState.playing ->
       GameState.totalGameTime (Game.gameState gm')
       = GameState.totalGameTime (Game.gameState gm) + deltaTime).
Proof.
  intros gm deltaTime currentTime now g Hpaused Hpause Hescape.
  unfold Game.update.
  cbn [Game.inputManager Game.ship Game.gameState Game.set_gameState].
  set (gs0 := GameState.update (Game.gameState gm) deltaTime).
  assert (Hpaused0 : GameState.isPaused gs0 = true).
  { subst gs0. unfold GameState.update. destruct (decide _); assumption. }
  unfold InputManager.processInput.
  rewrite Hpause, Hescape, !andb_false_r, Hpaused0.
  cbn [InputManager.actions Game.handleInputActions fold_left
       Game.gameState Game.set_ship Game.set_inputManager Game.set_gameState].
  rewrite Hpaused0. cbn [orb].
  eexists. split; [reflexivity |].
  cbn [Game.entityManager Game.ship Game.physicsEngine Game.gameState].
  subst gs0. unfold GameState.update.
  destruct (decide (GameState.gamePhase (Game.gameState gm) <> GameState.playing))
    as [Hother | Hplaying]; cbn; repeat split; try assumption; try reflexivity.
  intros Hphase. contradiction.
Qed.

Lemma paused_game_stands_still_witness :
  exists gm' : Game.t,
    Game.update pausedGame 16 16 16 halves = Some (gm', halves) /\
    Game.entityManager gm' = Game.entityManager pausedGame.
Proof.
  destruct (paused_game_stands_still pausedGame 16 16 16 halves)
    as (gm' & Hupdate & Hmanager & _);
    [reflexivity | reflexivity | reflexivity |].
  exists gm'. exact (conj Hupdate Hmanager).
Defined.

Lemma registerAsteroids_fold_particles (new : list Asteroid.t)
    (st : list Asteroid.t * EntityManager.t) :
  let m := snd st in
  let m' := snd (fold_left EntityManager.registerAsteroid new st) in
  EntityManager.particles m' = EntityManager.particles m /\
  EntityManager.particlePool m' = EntityManager.particlePool m.
Proof.
  revert st. induction new as [| a new IH]; intros [registered m];
    cbn [fold_left]; [cbn; auto |].
  destruct (IH (EntityManager.registerAsteroid (registered, m) a)) as [H1 H2].
  cbn zeta in *. rewrite H1, H2. auto.
Qed.

(** X29. [startNewGame] sets the board: the game is in its playing
    phase, unpaused, at score 0 and level 1 with the lives of the chosen
    difficulty; a new ship stands still at the centre of the game area
    (for a game area of non-zero width and height); and the manager, cleared
    first, holds exactly the base asteroid count of the difficulty, all
    active and placed by [createRandom] around the ship, and no projectile,
    particle or pooled object. *)
Theorem startNewGame_sets_the_board :
  forall (gm : Game.t) (difficulty : Difficulty.t) (shipColor : Color)
         (now : R) (g : Js.RandomSource),
    Js.uniform g ->
    Game.width gm <> 0 ->
    Game.height gm <> 0 ->
    let gm' := fst (Game.startNewGame gm difficulty shipColor now g) in
    let settings := GameState.difficultySettings difficulty in
    let m := Game.entityManager gm in
    let m' := Game.entityManager gm' in
    GameState.gamePhase (Game.gameState gm') = GameState.playing /\
    GameState.isPaused (Game.gameState gm') = false /\
    GameState.isGameOver (Game.gameState gm') = false /\
    GameState.score (Game.gameState gm') = 0 /\
    GameState.level (Game.gameState gm') = 1%Z /\
    GameState.lives (Game.gameState gm') = GameState.initialLives settings /\
    (exists s : Ship.t,
        Game.ship gm' = Some s /\
        Ship.position s = Vector2D.mk (Game.width gm / 2) (Game.height gm / 2) /\
        Ship.velocity s = Vector2D.mk 0 0 /\
        Ship.isInvulnerable s = false /\
        Forall (fun a =>
                  Asteroid.isActive a = true /\
                  placement g (EntityManager.screenWidth m)
                    (EntityManager.screenHeight m) (Ship.position s) 120
                    (Asteroid.position a))
          (EntityManager.asteroids m')) /\
    length (EntityManager.asteroids m')
    = Z.to_nat (GameState.baseAsteroidCount settings) /\
    EntityManager.projectiles m' = [] /\
    EntityManager.particles m' = [] /\
    EntityManager.projectilePool m' = [] /\
    EntityManager.particlePool m' = [].
Proof.
  intros gm difficulty shipColor now g Hu Hw Hh.
  cbv zeta. unfold Game.startNewGame.
  cbn [Game.gameState Game.set_gameState Game.set_selection Game.width
       Game.height Game.entityManager Game.set_entityManager Game.set_ship
       Game.ship].
  set (s := Ship.new _).
  set (gs := GameState.startNewGame (Game.gameState gm) difficulty now).
  assert (Hcount : GameState.getAsteroidCountForLevel gs
                   = GameState.baseAsteroidCount
                       (GameState.difficultySettings difficulty)).
  { subst gs. unfold GameState.getAsteroidCountForLevel; cbn.
    change ((1 - 1) / 3)%Z with 0%Z. apply Z.add_0_r. }
  rewrite Hcount.
  set (cleared := EntityManager.clearAllEntities (Game.entityManager gm)).
  destruct (createAsteroidField_spec cleared
              (GameState.baseAsteroidCount
                 (GameState.difficultySettings difficulty))
              (Ship.position s) difficulty g Hu)
    as (field & Hast & Hlen & Hall).
  unfold EntityManager.createAsteroidField in *.
  destruct (Asteroid.createField _ _ _ _ _ _) as [new g1].
  destruct (registerAsteroids_fold_ids new ([], cleared)) as (_ & _ & Hproj & Hpool).
  destruct (registerAsteroids_fold_particles new ([], cleared)) as (Hpart & Hppool).
  unfold EntityManager.registerAsteroids in *.
  destruct (fold_left EntityManager.registerAsteroid new ([], cleared))
    as [registered m'].
  cbn [fst snd] in *.
  cbn [Game.gameState Game.set_entityManager Game.entityManager Game.ship].
  change (EntityManager.asteroids cleared) with (@nil Asteroid.t) in Hast.
  cbn [app] in Hast. rewrite Hast, Hproj, Hpool, Hpart, Hppool.
  repeat split; try reflexivity; try exact Hlen.
  exists s. split; [reflexivity |].
  assert (Hposition : Ship.position s
                      = Vector2D.mk (Game.width gm / 2) (Game.height gm / 2)).
  { subst s. cbn -[Js.orNumber].
    rewrite !orNumber_nonzero by lra. reflexivity. }
  split; [exact Hposition |]. split; [reflexivity |]. split; [reflexivity |].
  exact Hall.
Qed.

Lemma startNewGame_sets_the_board_witness :
  length
    (EntityManager.asteroids
       (Game.entityManager
          (fst (Game.startNewGame sampleGame Difficulty.hard (css "#00FF88")
                  0 halves))))
  = 8%nat.
Proof.
  destruct (startNewGame_sets_the_board sampleGame Difficulty.hard
              (css "#00FF88") 0 halves halves_uniform)
    as (_ & _ & _ & _ & _ & _ & _ & Hlen & _).
  - cbn. lra.
  - cbn. lra.
  - exact Hlen.
Defined.

(** The projectile branch of [handleCollisions] on an active projectile
    in slot [i] and an active asteroid in slot [j]. *)
Lemma projectileHitsAsteroid_spec (gm : Game.t) (i j : nat)
    (p : Projectile.t) (a : Asteroid.t) (projectile asteroid : Game.Entity)
    (g : Js.RandomSource) :
  EntityManager.projectiles (Game.entityManager gm) !! i = Some p ->
  EntityManager.asteroids (Game.entityManager gm) !! j = Some a ->
  Projectile.isActive p = true ->
  Asteroid.isActive a = true ->
  PhysicsEngine.type projectile = Some projectileType ->
  PhysicsEngine.type asteroid = Some asteroidType ->
  let gm' := fst (Game.projectileHitsAsteroid gm i j projectile asteroid g) in
  let m := Game.entityManager gm in
  let m' := Game.entityManager gm' in
  EntityManager.projectiles m' !! i = Some (Projectile.set_isActive false p) /\
  length (EntityManager.projectiles m') = length (EntityManager.projectiles m) /\
  (exists a', EntityManager.asteroids m' !! j = Some a' /\
     Asteroid.isActive a' = false /\ Asteroid.id a' = Asteroid.id a) /\
  length (EntityManager.asteroids m')
  = (length (EntityManager.asteroids m) + Z.to_nat (Asteroid.splitCount a))%nat /\
  EntityManager.entitiesDestroyed m' = S (EntityManager.entitiesDestroyed m) /\
  Game.gameState gm'
  = snd (GameState.recordAsteroidDestroyed (Game.gameState gm) (Asteroid.size a)) /\
  Game.ship gm' = Game.ship gm.
Proof.
  intros Hp Ha Hpactive Haactive Hptype Hatype.
  cbv zeta. unfold Game.projectileHitsAsteroid. rewrite Hp, Ha.
  unfold Projectile.onCollision, Asteroid.onCollision.
  rewrite Hpactive, Haactive, Hptype, Hatype. cbn [negb].
  destruct (decide (Some asteroidType = Some asteroidType)) as [_ | Hn];
    [| congruence].
  destruct (decide (Some projectileType = Some projectileType)) as [_ | Hn];
    [| congruence].
  unfold Asteroid.destroy, Projectile.destroy, Projectile.deactivate.
  set (p' := Projectile.set_isActive false p).
  set (a1 := Asteroid.set_isActive false a).
  cbn [EntityManager.projectiles EntityManager.asteroids
       EntityManager.set_projectiles EntityManager.set_asteroids].
  unfold EntityManager.destroyProjectile.
  change (Projectile.isActive p') with false. cbn [negb].
  cbn [EntityManager.projectiles EntityManager.asteroids
       EntityManager.set_projectiles EntityManager.set_asteroids].
  rewrite list_insert_insert_eq.
  match goal with
  | |- context [EntityManager.destroyAsteroid ?m0 a1 g] =>
      destruct (destroyAsteroid_fields m0 a1 g)
        as (Hinactive & Hid & Hsize & Hast & Hlen & Hproj & _ & Hdestroyed);
      destruct (EntityManager.destroyAsteroid m0 a1 g) as [[[fragments a2] m3] g3]
  end.
  cbn [fst snd] in *.
  rewrite Hsize. change (Asteroid.size a1) with (Asteroid.size a).
  destruct (GameState.recordAsteroidDestroyed (Game.gameState gm)
              (Asteroid.size a)) as [result gs].
  cbn [fst snd Game.entityManager Game.set_entityManager Game.set_gameState
       Game.gameState Game.ship EntityManager.projectiles
       EntityManager.asteroids EntityManager.entitiesDestroyed
       EntityManager.set_asteroids] in *.
  pose proof (lookup_lt_Some _ _ _ Hp) as Hi.
  pose proof (lookup_lt_Some _ _ _ Ha) as Hj.
  rewrite Hproj, Hast, Hdestroyed.
  cbn [EntityManager.projectiles EntityManager.asteroids
       EntityManager.set_projectiles EntityManager.set_asteroids
       EntityManager.entitiesDestroyed Asteroid.size Asteroid.set_isActive a1].
  rewrite !length_insert, length_app, !length_insert, Hlen.
  split; [apply list_lookup_insert_eq, Hi |]. split; [reflexivity |].
  split.
  - exists a2. split; [| split; [exact Hinactive | exact Hid]].
    apply list_lookup_insert_eq. rewrite length_app, length_insert. lia.
  - repeat split.
Qed.

(** X30. A shot that hits: when [handleCollisions] meets the record of
    an active projectile and an active asteroid, in either order, the
    projectile is deactivated in its slot, the asteroid is deactivated in
    its slot and keeps its id, its fragments (as many as its
    [splitCount]) are appended to the asteroid array, the score grows by
    20, 50 or 100 points for a large, medium or small asteroid, and the
    ship and the lives are left alone.  Only one entity is counted as
    destroyed: the projectile is already inactive when
    [destroyProjectile] is reached, which therefore does nothing. *)
Theorem projectile_hit_scores :
  forall (gm : Game.t) (i j : nat) (p : Projectile.t) (a : Asteroid.t)
         (swapped : bool) (now : R) (g : Js.RandomSource),
    EntityManager.projectiles (Game.entityManager gm) !! i = Some p ->
    EntityManager.asteroids (Game.entityManager gm) !! j = Some a ->
    Projectile.isActive p = true ->
    Asteroid.isActive a = true ->
    let collision :=
      if swapped
      then collisionRecord (Game.asteroidEntity j a) (Game.projectileEntity i p)
      else collisionRecord (Game.projectileEntity i p) (Game.asteroidEntity j a) in
    let gm' := fst (Game.handleCollision gm collision now g) in
    let m := Game.entityManager gm in
    let m' := Game.entityManager gm' in
    EntityManager.projectiles m' !! i = Some (Projectile.set_isActive false p) /\
    (exists a', EntityManager.asteroids m' !! j = Some a' /\
       Asteroid.isActive a' = false /\ Asteroid.id a' = Asteroid.id a) /\
    length (EntityManager.asteroids m')
    = (length (EntityManager.asteroids m) + Z.to_nat (Asteroid.splitCount a))%nat /\
    EntityManager.entitiesDestroyed m' = S (EntityManager.entitiesDestroyed m) /\
    GameState.score (Game.gameState gm')
    = GameState.score (Game.gameState gm) + pointsFor (Asteroid.size a) /\
    (GameState.lives (Game.gameState gm)
     <= GameState.lives (Game.gameState gm'))%Z /\
    Game.ship gm' = Game.ship gm.
Proof.
  intros gm i j p a swapped now g Hp Ha Hpactive Haactive.
  cbv zeta.
  match goal with
  | |- context [Game.handleCollision gm ?collision now g] =>
      assert (Hbranch :
                Game.handleCollision gm collision now g
                = Game.projectileHitsAsteroid gm i j (Game.projectileEntity i p)
                    (Game.asteroidEntity j a) g)
  end.
  { unfold Game.handleCollision, Game.isShip, Game.hasType.
    destruct swapped; destruct (Game.ship gm); reflexivity. }
  rewrite Hbranch.
  destruct (projectileHitsAsteroid_spec gm i j p a (Game.projectileEntity i p)
              (Game.asteroidEntity j a) g Hp Ha Hpactive Haactive eq_refl eq_refl)
    as (H1 & _ & H2 & H3 & H4 & H5 & H6).
  cbn zeta in *.
  split; [exact H1 | split; [exact H2 | split; [exact H3 | split; [exact H4 |]]]].
  rewrite H5.
  destruct (recordAsteroidDestroyed_fields (Game.gameState gm) (Asteroid.size a))
    as (Hscore & Hlives).
  split; [exact Hscore | split; [exact Hlives | exact H6]].
Qed.

Lemma projectile_hit_scores_witness :
  GameState.score
    (Game.gameState
       (fst (Game.handleCollision skirmish
               (collisionRecord (Game.projectileEntity 0 firstProjectile)
                  (Game.asteroidEntity 0 largeAsteroid)) 0 halves)))
  = GameState.score (Game.gameState skirmish) + 20.
Proof.
  destruct (projectile_hit_scores skirmish 0 0 firstProjectile largeAsteroid
              false 0 halves) as (_ & _ & _ & _ & Hscore & _);
    [reflexivity | reflexivity | reflexivity | reflexivity |].
  exact Hscore.
Defined.
